(** * Question-to-Cypher translation of the F1 temporal knowledge graph

    A shallow embedding of [nl_to_cypher.py] (class [NLToCypherConverter]),
    followed by the extraction of triples ([triple_extraction.py]), their
    loading ([neo4j_loader.py]) and the pipeline ([run.py]).

    - Python [str] values are [string]s; a character is a code point below
      256, so [\d] is the ASCII digits and [str.strip] removes the
      Latin-1 white space.
    - [re.search] is a backtracking matcher for the fragment of regular
      expressions that the eight patterns use; it returns the matches in
      the priority order of Python's engine, and the first one is taken.
    - [print], the graph store and the model client are effects: a state
      monad over the [world] (printed events, queries sent, prompts sent)
      with exceptions.  Only subclasses of [Exception] are modelled. *)

From Stdlib Require Import Bool Arith List Ascii String ZArith Lia.
From Stdlib Require Import DecimalString.
Import ListNotations.
Open Scope list_scope.
Open Scope string_scope.

Set Implicit Arguments.

(* ================================================================= *)
(** ** Characters and strings *)

Module Str.

Definition LF : ascii := ascii_of_nat 10.
Definition nl : string := String LF "".

(** [\d] on code points below 256. *)
Definition is_digit (c : ascii) : bool :=
  ((48 <=? nat_of_ascii c) && (nat_of_ascii c <=? 57))%nat.

(** [str.isspace] on code points below 256. *)
Definition isspace (c : ascii) : bool :=
  let n := nat_of_ascii c in
  (((9 <=? n) && (n <=? 13)) || ((28 <=? n) && (n <=? 32))
   || (n =? 133) || (n =? 160))%nat.

Fixpoint rev_onto (s acc : string) : string :=
  match s with
  | "" => acc
  | String c s' => rev_onto s' (String c acc)
  end.

Definition rev (s : string) : string := rev_onto s "".

Fixpoint lstrip (s : string) : string :=
  match s with
  | "" => ""
  | String c s' => if isspace c then lstrip s' else s
  end.

Fixpoint rstrip (s : string) : string :=
  match s with
  | "" => ""
  | String c s' =>
      let t := rstrip s' in
      if String.eqb t "" && isspace c then "" else String c t
  end.

(** [str.strip()] *)
Definition strip (s : string) : string := rstrip (lstrip s).

Fixpoint all (p : ascii -> bool) (s : string) : bool :=
  match s with
  | "" => true
  | String c s' => p c && all p s'
  end.

Definition no_lf (s : string) : bool :=
  all (fun c => negb (Ascii.eqb c LF)) s.

(** [s.endswith(suf)] *)
Fixpoint ends_with (suf s : string) : bool :=
  String.eqb s suf ||
  match s with
  | "" => false
  | String _ s' => ends_with suf s'
  end.

(** [s.split('\n')] *)
Fixpoint split_lines (cur s : string) : list string :=
  match s with
  | "" => [rev cur]
  | String c s' =>
      if Ascii.eqb c LF then rev cur :: split_lines "" s'
      else split_lines (String c cur) s'
  end.

Definition lines (s : string) : list string := split_lines "" s.

Fixpoint spaces (n : nat) : string :=
  match n with
  | O => ""
  | S n' => String " " (spaces n')
  end.

Fixpoint drop_spaces (s : string) : string :=
  match s with
  | String " " s' => drop_spaces s'
  | _ => s
  end.

(** [sep.join(ls)] *)
Definition join (sep : string) (ls : list string) : string :=
  String.concat sep ls.

Definition digit_val (c : ascii) : Z := Z.of_nat (nat_of_ascii c) - 48.

Fixpoint digits_val (acc : Z) (s : string) : Z :=
  match s with
  | "" => acc
  | String c s' => digits_val (10 * acc + digit_val c) s'
  end.

(** [str(n)] and [f"{n}"] for an [int]. *)
Definition str_int (n : Z) : string := NilZero.string_of_int (Z.to_int n).

(** Decimal digits with single underscores between them, as [int()]
    accepts them. *)
Fixpoint digits_us (after_digit : bool) (acc : Z) (s : string) : option Z :=
  match s with
  | "" => if after_digit then Some acc else None
  | String c s' =>
      if is_digit c then digits_us true (10 * acc + digit_val c) s'
      else if Ascii.eqb c "_" && after_digit then digits_us false acc s'
      else None
  end.

(** [int(s)] for a [str]: [None] stands for [ValueError]. *)
Definition parse_int (s : string) : option Z :=
  match strip s with
  | "" => None
  | String c t =>
      if Ascii.eqb c "+" then digits_us false 0 t
      else if Ascii.eqb c "-" then option_map Z.opp (digits_us false 0 t)
      else digits_us false 0 (String c t)
  end.

End Str.

(* ================================================================= *)
(** ** Regular expressions: the fragment used by [query_patterns] *)

Module Re.

Inductive regex : Type :=
| Chr (c : ascii)              (* a literal character *)
| Dot                          (* .   any character but a newline *)
| Digit                        (* \d *)
| Dollar                       (* $   end, or before a final newline *)
| Cat (r1 r2 : regex)
| Alt (r1 r2 : regex)          (* r1|r2 *)
| Opt (r : regex)              (* r?  greedy *)
| PlusLazy (r : regex)         (* r+? *)
| Rep (n : nat) (r : regex).   (* r{n} *)

(** Literal text. *)
Fixpoint lit (s : string) : regex :=
  match s with
  | "" => Rep 0 Dot
  | String c "" => Chr c
  | String c s' => Cat (Chr c) (lit s')
  end.

(** A pattern is a sequence of segments; the capturing groups of the
    patterns of this program are all top-level segments. *)
Inductive seg : Type :=
| Plain (r : regex)            (* r or (?:r) *)
| Capture (r : regex).         (* (r) *)

Definition pattern : Type := list seg.

(** One way of matching: the text consumed and the text left. *)
Definition way : Type := (string * string)%type.

Definition consume (c1 : string) (w : way) : way := (c1 ++ fst w, snd w).

Fixpoint iter_lazy (m : string -> list way) (fuel : nat) (s : string)
  : list way :=
  match fuel with
  | O => m s
  | S fuel' =>
      flat_map
        (fun w =>
           w :: (if (String.length (snd w) <? String.length s)%nat
                 then map (consume (fst w)) (iter_lazy m fuel' (snd w))
                 else []))
        (m s)
  end.

Fixpoint rep (m : string -> list way) (n : nat) (s : string) : list way :=
  match n with
  | O => [("", s)]
  | S n' =>
      flat_map (fun w => map (consume (fst w)) (rep m n' (snd w))) (m s)
  end.

Definition one (p : ascii -> bool) (s : string) : list way :=
  match s with
  | String c s' => if p c then [(String c "", s')] else []
  | "" => []
  end.

(** All the ways in which [r] matches at the start of [s], in the order
    in which a backtracking engine tries them. *)
Fixpoint ways (r : regex) (s : string) : list way :=
  match r with
  | Chr a => one (Ascii.eqb a) s
  | Dot => one (fun c => negb (Ascii.eqb c Str.LF)) s
  | Digit => one Str.is_digit s
  | Dollar =>
      if String.eqb s "" || String.eqb s Str.nl then [("", s)] else []
  | Cat r1 r2 =>
      flat_map (fun w => map (consume (fst w)) (ways r2 (snd w))) (ways r1 s)
  | Alt r1 r2 => (ways r1 s ++ ways r2 s)%list
  | Opt r1 => (ways r1 s ++ [("", s)])%list
  | PlusLazy r1 => iter_lazy (ways r1) (String.length s) s
  | Rep n r1 => rep (ways r1) n s
  end.

(** A match object: [group()] , [groups()] and the text after the match. *)
Record mobj : Type := MObj { group0 : string; groups : list string; rest : string }.

Definition extend (c : string) (capt : bool) (m : mobj) : mobj :=
  MObj (c ++ group0 m) (if capt then c :: groups m else groups m) (rest m).

Fixpoint pways (p : pattern) (s : string) : list mobj :=
  match p with
  | [] => [MObj "" [] s]
  | Plain r :: p' =>
      flat_map (fun w => map (extend (fst w) false) (pways p' (snd w)))
               (ways r s)
  | Capture r :: p' =>
      flat_map (fun w => map (extend (fst w) true) (pways p' (snd w)))
               (ways r s)
  end.

(** [re.match(p, s)] *)
Definition rmatch (p : pattern) (s : string) : option mobj :=
  hd_error (pways p s).

(** [re.search(p, s)]: the first position at which the pattern matches. *)
Fixpoint search (p : pattern) (s : string) : option mobj :=
  match rmatch p s with
  | Some m => Some m
  | None =>
      match s with
      | "" => None
      | String _ s' => search p s'
      end
  end.

End Re.

(* ================================================================= *)
(** ** Exceptions, printed output and the outside world *)

Inductive exn_class : Type :=
| TypeError | ValueError | IndexError | KeyError | AttributeError
| JSONDecodeError | UnboundLocalError | RecursionError
| ServiceError.   (* any [Exception] raised by the driver or the client *)

(** An exception: its class and [str(e)]. *)
Record exn : Type := Exn { exn_cls : exn_class; exn_msg : string }.

Inductive result (A : Type) : Type :=
| Ok (a : A)
| Raise (e : exn).
Arguments Ok {A} a.
Arguments Raise {A} e.

(** What the graph store returns in a column.  Floats, lists and nodes
    are not modelled. *)
Inductive value : Type :=
| VNone
| VBool (b : bool)
| VInt (n : Z)
| VStr (s : string).

(** A record, and the [dict] made of it: the columns in order. *)
Definition row : Type := list (string * value).

(** The calls of [print], with the values they format. *)
Inductive event : Type :=
| PrintTrying (question : string)
| PrintGroups (gs : list string)
| PrintErrorGenerating (e : exn)
| PrintArgs (engineer_name temporal_relation year : string)
| PrintFilter (temporal_filter : string)
| PrintLLMError (e : exn)
| PrintExecError (e : exn)
| PrintQuestion (question : string)
| PrintGenerated (approach cypher : string).

(** The state that a call can change: what was printed, and what was
    sent to the store and to the model so far. *)
Record world : Type := World {
  stdout : list event;
  store_calls : list string;
  model_calls : list string
}.

Definition world0 : world := World [] [] [].

(** The collaborators of a converter.  A store answers a query given the
    queries it got before; the model client, when there is one, answers
    a question's prompt with the [content] of each choice. *)
Record env : Type := Env {
  driver : list string -> string -> result (list row);
  openai_client :
    option (list string -> string -> result (list (option string)))
}.

Definition M (A : Type) : Type := world -> world * result A.

Definition ret {A} (a : A) : M A := fun w => (w, Ok a).

Definition raise {A} (e : exn) : M A := fun w => (w, Raise e).

Definition bind {A B} (m : M A) (k : A -> M B) : M B :=
  fun w =>
    match m w with
    | (w', Ok a) => k a w'
    | (w', Raise e) => (w', Raise e)
    end.

(** [try: m  except Exception as e: h e] *)
Definition try_except {A} (m : M A) (h : exn -> M A) : M A :=
  fun w =>
    match m w with
    | (w', Ok a) => (w', Ok a)
    | (w', Raise e) => h e w'
    end.

Definition lift {A} (r : result A) : M A := fun w => (w, r).

Definition emit (w : world) (e : event) : world :=
  World (stdout w ++ [e]) (store_calls w) (model_calls w).

Definition print (e : event) : M unit := fun w => (emit w e, Ok tt).

Declare Scope py_scope.
Delimit Scope py_scope with py.
Notation "x <- c1 ;; c2" := (bind c1 (fun x => c2))
  (at level 61, c1 at next level, right associativity) : py_scope.
Notation "c1 ;;; c2" := (bind c1 (fun _ => c2))
  (at level 61, right associativity) : py_scope.
Open Scope py_scope.

Definition outcome {A} (m : M A) (w : world) : result A := snd (m w).
Definition printed {A} (m : M A) (w : world) : list event := stdout (fst (m w)).

(* ================================================================= *)
(** ** The query templates of [NLToCypherConverter] *)

(** A triple-quoted template: every line after a newline and the
    indentation of the source, and the indentation before the closing
    quotes. *)
Definition block (indent : nat) (ls : list string) : string :=
  fold_right (fun l text => Str.nl ++ Str.spaces indent ++ l ++ text)
             (Str.nl ++ Str.spaces indent) ls.

Definition year_pattern : Re.pattern := [Re.Plain (Re.Rep 4 Re.Digit)].

Definition int (s : string) : result Z :=
  match Str.parse_int s with
  | Some n => Ok n
  | None =>
      Raise (Exn ValueError
               ("invalid literal for int() with base 10: '" ++ s ++ "'"))
  end.

(** [year = int(year_match.group()) if year_match else None] *)
Definition first_year (context : string) : result (option Z) :=
  match Re.search year_pattern context with
  | Some year_match =>
      match int (Re.group0 year_match) with
      | Ok n => Ok (Some n)
      | Raise e => Raise e
      end
  | None => Ok None
  end.

(** Declared to return a pair, it returns the year alone. *)
Definition _parse_temporal_context (context : string) : result (option Z) :=
  first_year context.

Definition _build_temporal_filter (year : Z) (temporal_relation : string)
  : string :=
  if String.eqb temporal_relation "before" then "r.year < " ++ Str.str_int year
  else if String.eqb temporal_relation "after" then
    "r.year > " ++ Str.str_int year
  else "r.year = " ++ Str.str_int year.

(** Truth value of an [Optional[int]] and of an [Optional[str]]. *)
Definition truthy_int (y : option Z) : bool :=
  match y with
  | Some n => negb (Z.eqb n 0)
  | None => false
  end.

Definition truthy_str (s : option string) : bool :=
  match s with
  | Some t => negb (String.eqb t "")
  | None => false
  end.

(** The value of an [Optional] that passed a truth test. *)
Definition the_int (y : option Z) : Z :=
  match y with Some n => n | None => 0%Z end.

Definition the_str (s : option string) : string :=
  match s with Some t => t | None => "" end.

(** [a, b = v] for the value that [_parse_temporal_context] returns:
    an [int] or [None], neither of which can be unpacked. *)
Definition unpack_pair (v : option Z)
  : result (option Z * option string) :=
  match v with
  | Some _ => Raise (Exn TypeError "cannot unpack non-iterable int object")
  | None => Raise (Exn TypeError "cannot unpack non-iterable NoneType object")
  end.

Definition _race_engineer_query (driver_name year_context : string)
  : M string :=
  year <- lift (first_year year_context) ;;
  if truthy_int year then
    ret (block 12
      [ "MATCH (driver:Entity {name: '" ++ driver_name
          ++ "'})-[r:RELATION]->(engineer:Entity)";
        "WHERE r.type CONTAINS 'engineer' AND r.year = "
          ++ Str.str_int (the_int year);
        "RETURN engineer.name as answer, r.year as year" ])
  else
    ret (block 12
      [ "MATCH (driver:Entity {name: '" ++ driver_name
          ++ "'})-[r:RELATION]->(engineer:Entity)";
        "WHERE r.type CONTAINS 'engineer'";
        "RETURN engineer.name as answer, r.year as year";
        "ORDER BY r.year DESC";
        "LIMIT 1" ]).

Definition _race_engineer_reverse_relative_query
  (engineer_name temporal_relation year : string) : M string :=
  print (PrintArgs engineer_name temporal_relation year) ;;;
  if String.eqb temporal_relation "before"
     || String.eqb temporal_relation "after"
  then
    n <- lift (int year) ;;
    let temporal_filter := _build_temporal_filter n temporal_relation in
    print (PrintFilter temporal_filter) ;;;
    let order_clause :=
      if String.eqb temporal_relation "before" then "ORDER BY r.year DESC"
      else "ORDER BY r.year ASC" in
    ret (block 12
      [ "MATCH (engineer:Entity {name: '" ++ engineer_name
          ++ "'})-[r:RELATION]->(driver:Entity)";
        "WHERE r.type CONTAINS 'engineer' AND " ++ temporal_filter;
        "RETURN driver.name as answer, r.year as year";
        order_clause;
        "LIMIT 5" ])
  else
    ret (block 12
      [ "MATCH (engineer:Entity {name: '" ++ engineer_name
          ++ "'})-[r:RELATION]->(driver:Entity)";
        "WHERE r.type CONTAINS 'engineer' AND r.year = " ++ year;
        "RETURN driver.name as answer, r.year as year" ]).

Definition _team_query (driver_name year : string) : M string :=
  ret (block 8
    [ "MATCH (driver:Entity {name: '" ++ driver_name
        ++ "'})-[r:RELATION]->(team:Entity)";
      "WHERE (r.type CONTAINS 'drove' OR r.type CONTAINS 'team' OR r.type CONTAINS 'race')";
      "AND r.year = " ++ year;
      "RETURN team.name as answer, r.year as year" ]).

Definition _team_relative_query (driver_name year_context : string)
  : M string :=
  v <- lift (_parse_temporal_context year_context) ;;
  yr <- lift (unpack_pair v) ;;
  let year := fst yr in
  let temporal_relation := snd yr in
  if truthy_int year && truthy_str temporal_relation then
    let temporal_relation := the_str temporal_relation in
    let temporal_filter :=
      _build_temporal_filter (the_int year) temporal_relation in
    let order_clause :=
      if String.eqb temporal_relation "before" then "ORDER BY r.year DESC"
      else "ORDER BY r.year ASC" in
    ret (block 12
      [ "MATCH (driver:Entity {name: '" ++ driver_name
          ++ "'})-[r:RELATION]->(team:Entity)";
        "WHERE (r.type CONTAINS 'drove' OR r.type CONTAINS 'team' OR r.type CONTAINS 'race')";
        "AND " ++ temporal_filter;
        "RETURN team.name as answer, r.year as year";
        order_clause;
        "LIMIT 5" ])
  else
    ret (block 12
      [ "MATCH (driver:Entity {name: '" ++ driver_name
          ++ "'})-[r:RELATION]->(team:Entity)";
        "WHERE (r.type CONTAINS 'drove' OR r.type CONTAINS 'team' OR r.type CONTAINS 'race')";
        "RETURN team.name as answer, r.year as year";
        "ORDER BY r.year DESC";
        "LIMIT 1" ]).

Definition _champion_query (year : string) : M string :=
  ret (block 8
    [ "MATCH (driver:Entity)-[r:RELATION]->(championship:Entity)";
      "WHERE (r.type CONTAINS 'champion' OR r.type CONTAINS 'won')";
      "AND r.year = " ++ year;
      "RETURN driver.name as answer, r.year as year" ]).

Definition _champion_relative_query (year_context : string) : M string :=
  v <- lift (_parse_temporal_context year_context) ;;
  yr <- lift (unpack_pair v) ;;
  let year := fst yr in
  let temporal_relation := snd yr in
  if truthy_int year && truthy_str temporal_relation then
    let temporal_relation := the_str temporal_relation in
    let temporal_filter :=
      _build_temporal_filter (the_int year) temporal_relation in
    let order_clause :=
      if String.eqb temporal_relation "before" then "ORDER BY r.year DESC"
      else "ORDER BY r.year ASC" in
    ret (block 12
      [ "MATCH (driver:Entity)-[r:RELATION]->(championship:Entity)";
        "WHERE (r.type CONTAINS 'champion' OR r.type CONTAINS 'won')";
        "AND " ++ temporal_filter;
        "RETURN driver.name as answer, r.year as year";
        order_clause;
        "LIMIT 5" ])
  else
    ret (block 12
      [ "MATCH (driver:Entity)-[r:RELATION]->(championship:Entity)";
        "WHERE (r.type CONTAINS 'champion' OR r.type CONTAINS 'won')";
        "RETURN driver.name as answer, r.year as year";
        "ORDER BY r.year DESC";
        "LIMIT 1" ]).

Definition _dominant_team_query (year : string) : M string :=
  ret (block 8
    [ "MATCH (team:Entity)-[r:RELATION]->(achievement:Entity)";
      "WHERE r.year = " ++ year;
      "AND (r.type CONTAINS 'won' OR r.type CONTAINS 'champion' OR r.type CONTAINS 'dominated')";
      "RETURN team.name as answer, count(r) as dominance_score";
      "ORDER BY dominance_score DESC";
      "LIMIT 1" ]).

Definition _dominant_team_relative_query (year_context : string) : M string :=
  v <- lift (_parse_temporal_context year_context) ;;
  yr <- lift (unpack_pair v) ;;
  let year := fst yr in
  let temporal_relation := snd yr in
  if truthy_int year && truthy_str temporal_relation then
    let temporal_relation := the_str temporal_relation in
    let temporal_filter :=
      _build_temporal_filter (the_int year) temporal_relation in
    let order_clause :=
      if String.eqb temporal_relation "before"
      then "ORDER BY dominance_score DESC, r.year DESC"
      else "ORDER BY dominance_score DESC, r.year ASC" in
    ret (block 12
      [ "MATCH (team:Entity)-[r:RELATION]->(achievement:Entity)";
        "WHERE " ++ temporal_filter;
        "AND (r.type CONTAINS 'won' OR r.type CONTAINS 'champion' OR r.type CONTAINS 'dominated')";
        "RETURN team.name as answer, count(r) as dominance_score, r.year as year";
        order_clause;
        "LIMIT 5" ])
  else
    ret (block 12
      [ "MATCH (team:Entity)-[r:RELATION]->(achievement:Entity)";
        "WHERE (r.type CONTAINS 'won' OR r.type CONTAINS 'champion' OR r.type CONTAINS 'dominated')";
        "RETURN team.name as answer, count(r) as dominance_score";
        "ORDER BY dominance_score DESC";
        "LIMIT 1" ]).

(* ================================================================= *)
(** ** The rule table and [rule_based_query] *)

(** The call of a template with the groups of the match as positional
    arguments; a wrong number of them is a [TypeError]. *)
Definition arity_error : exn :=
  Exn TypeError "wrong number of positional arguments".

Definition call1 (f : string -> M string) (gs : list string) : M string :=
  match gs with
  | [a] => f a
  | _ => raise arity_error
  end.

Definition call2 (f : string -> string -> M string) (gs : list string)
  : M string :=
  match gs with
  | [a; b] => f a b
  | _ => raise arity_error
  end.

Definition call3 (f : string -> string -> string -> M string)
  (gs : list string) : M string :=
  match gs with
  | [a; b; c] => f a b c
  | _ => raise arity_error
  end.

Record rule : Type := Rule {
  pattern : Re.pattern;
  template : list string -> M string
}.

Module Pat.
Import Re.

Definition alts (ss : list string) : regex :=
  match ss with
  | [] => Rep 0 Dot
  | s :: ss' => fold_left (fun r t => Alt r (lit t)) ss' (lit s)
  end.

(** [(?:\?|$)] *)
Definition q_or_end : seg := Plain (Alt (Chr "?") Dollar).

(** [(.+?)] and [(\d{4})] *)
Definition some_text : seg := Capture (PlusLazy Dot).
Definition four_digits : seg := Capture (Rep 4 Digit).

(** [who was (.+?)'s? race engineer (?:when|in|for|during) (.+?)(?:\?|$)] *)
Definition race_engineer : pattern :=
  [ Plain (lit "who was "); some_text; Plain (Chr "'"); Plain (Opt (Chr "s"));
    Plain (lit " race engineer ");
    Plain (alts ["when"; "in"; "for"; "during"]); Plain (Chr " ");
    some_text; q_or_end ].

(** [who was (.+?) race engineer for (before|after|during) (\d{4})(?:\?|$)] *)
Definition race_engineer_reverse_relative : pattern :=
  [ Plain (lit "who was "); some_text; Plain (lit " race engineer for ");
    Capture (alts ["before"; "after"; "during"]); Plain (Chr " ");
    four_digits; q_or_end ].

(** [what team did (.+?) (?:drive for|race for) (?:in|during) (\d{4})(?:\?|$)] *)
Definition team : pattern :=
  [ Plain (lit "what team did "); some_text; Plain (Chr " ");
    Plain (alts ["drive for"; "race for"]); Plain (Chr " ");
    Plain (alts ["in"; "during"]); Plain (Chr " "); four_digits; q_or_end ].

(** [who won (?:the )?championship (?:in|during) (\d{4})(?:\?|$)] *)
Definition champion : pattern :=
  [ Plain (lit "who won "); Plain (Opt (lit "the "));
    Plain (lit "championship "); Plain (alts ["in"; "during"]);
    Plain (Chr " "); four_digits; q_or_end ].

(** [which team dominated (?:the )?(\d{4}) season(?:\?|$)] *)
Definition dominant_team : pattern :=
  [ Plain (lit "which team dominated "); Plain (Opt (lit "the "));
    four_digits; Plain (lit " season"); q_or_end ].

(** [what team did (.+?) (?:drive for|race for) (?:before|after) (\d{4})(?:\?|$)] *)
Definition team_relative : pattern :=
  [ Plain (lit "what team did "); some_text; Plain (Chr " ");
    Plain (alts ["drive for"; "race for"]); Plain (Chr " ");
    Plain (alts ["before"; "after"]); Plain (Chr " "); four_digits;
    q_or_end ].

(** [who won (?:the )?championship (?:before|after) (\d{4})(?:\?|$)] *)
Definition champion_relative : pattern :=
  [ Plain (lit "who won "); Plain (Opt (lit "the "));
    Plain (lit "championship "); Plain (alts ["before"; "after"]);
    Plain (Chr " "); four_digits; q_or_end ].

(** [which team dominated (?:the )?season (?:before|after) (\d{4})(?:\?|$)] *)
Definition dominant_team_relative : pattern :=
  [ Plain (lit "which team dominated "); Plain (Opt (lit "the "));
    Plain (lit "season "); Plain (alts ["before"; "after"]);
    Plain (Chr " "); four_digits; q_or_end ].

End Pat.

Definition query_patterns : list rule :=
  [ Rule Pat.race_engineer (call2 _race_engineer_query);
    Rule Pat.race_engineer_reverse_relative
         (call3 _race_engineer_reverse_relative_query);
    Rule Pat.team (call2 _team_query);
    Rule Pat.champion (call1 _champion_query);
    Rule Pat.dominant_team (call1 _dominant_team_query);
    Rule Pat.team_relative (call2 _team_relative_query);
    Rule Pat.champion_relative (call1 _champion_relative_query);
    Rule Pat.dominant_team_relative (call1 _dominant_team_relative_query) ].

(** The [for] loop of [rule_based_query] over the rules that are left. *)
Fixpoint scan (rules : list rule) (text : string) : M (option string) :=
  match rules with
  | [] => ret None
  | pattern_info :: rules' =>
      match Re.search (pattern pattern_info) text with
      | Some m =>
          try_except
            (print (PrintGroups (Re.groups m)) ;;;
             cypher <- template pattern_info (Re.groups m) ;;
             ret (Some cypher))
            (fun e => print (PrintErrorGenerating e) ;;; scan rules' text)
      | None => scan rules' text
      end
  end.

Definition rule_based_query (question : string) : M (option string) :=
  print (PrintTrying question) ;;;
  scan query_patterns (Str.strip question).

(* ================================================================= *)
(** ** The model fallback, the executor and the formatter *)

(** [session.run(cypher)] in a session of the driver, with the records
    read. *)
Definition session_run (e : env) (cypher : string) : M (list row) :=
  fun w =>
    (World (stdout w) (store_calls w ++ [cypher]) (model_calls w),
     driver e (store_calls w) cypher).

(** [record[key]]; the text of the [KeyError] is that of a key without
    quotes or escapes, as the keys of this program are *)
Fixpoint lookup (key : string) (r : row) : option value :=
  match r with
  | [] => None
  | (k, v) :: r' => if String.eqb k key then Some v else lookup key r'
  end.

Definition getitem (key : string) (r : row) : result value :=
  match lookup key r with
  | Some v => Ok v
  | None => Raise (Exn KeyError ("'" ++ key ++ "'"))
  end.

Fixpoint collect_column (key : string) (rs : list row) : result (list value) :=
  match rs with
  | [] => Ok []
  | r :: rs' =>
      match getitem key r with
      | Ok v =>
          match collect_column key rs' with
          | Ok vs => Ok (v :: vs)
          | Raise e => Raise e
          end
      | Raise e => Raise e
      end
  end.

Definition rel_types_query : string :=
  block 12 [ "MATCH ()-[r:RELATION]->()";
             "RETURN DISTINCT r.type as rel_type";
             "LIMIT 10" ].

Definition entities_query : string :=
  block 12 [ "MATCH (e:Entity)"; "RETURN e.name as name"; "LIMIT 20" ].

Record schema_info : Type := SchemaInfo {
  relationship_types : list value;
  sample_entities : list value
}.

Definition _get_schema_info (e : env) : M schema_info :=
  result <- session_run e rel_types_query ;;
  rel_types <- lift (collect_column "rel_type" result) ;;
  result <- session_run e entities_query ;;
  entities <- lift (collect_column "name" result) ;;
  ret (SchemaInfo rel_types entities).

(** [client.chat.completions.create(...)]: the prompt is a fixed text
    around the question, so that the question stands for it; the answer
    is the [message.content] of every choice. *)
Definition chat_create
  (client : list string -> string -> result (list (option string)))
  (question : string) : M (list (option string)) :=
  fun w =>
    (World (stdout w) (store_calls w) (model_calls w ++ [question]),
     client (model_calls w) question).

(** [response.choices[0].message.content.strip()] *)
Definition first_content (choices : list (option string)) : result string :=
  match choices with
  | [] => Raise (Exn IndexError "list index out of range")
  | None :: _ =>
      Raise (Exn AttributeError "'NoneType' object has no attribute 'strip'")
  | Some content :: _ => Ok (Str.strip content)
  end.

(** [xs[1:-1]] *)
Definition inner {A} (xs : list A) : list A := removelast (tl xs).

Definition fence : string := "```".

Definition llm_based_query (e : env) (question : string)
  : M (option string) :=
  match openai_client e with
  | None => ret None
  | Some client =>
      schema_info <- _get_schema_info e ;;
      try_except
        (choices <- chat_create client question ;;
         cypher <- lift (first_content choices) ;;
         let cypher :=
           if String.prefix fence cypher
           then Str.join Str.nl (inner (Str.lines cypher))
           else cypher in
         ret (Some cypher))
        (fun ex => print (PrintLLMError ex) ;;; ret None)
  end.

Definition execute_query (e : env) (cypher : string) : M (list row) :=
  try_except (session_run e cypher)
             (fun ex => print (PrintExecError ex) ;;; ret []).

(** [str(v)] and [f"{v}"] *)
Definition str (v : value) : string :=
  match v with
  | VNone => "None"
  | VBool true => "True"
  | VBool false => "False"
  | VInt n => Str.str_int n
  | VStr s => s
  end.

Definition truthy (v : value) : bool :=
  match v with
  | VNone => false
  | VBool b => b
  | VInt n => negb (Z.eqb n 0)
  | VStr s => negb (String.eqb s "")
  end.

(** [result.get(key, default)] *)
Definition get (key : string) (default : value) (r : row) : value :=
  match lookup key r with
  | Some v => v
  | None => default
  end.

(** [list(result.values())[0]] *)
Definition first_value (r : row) : result value :=
  match r with
  | (_, v) :: _ => Ok v
  | [] => Raise (Exn IndexError "list index out of range")
  end.

(** The branch for a single row. *)
Definition format_single (r : row) : result string :=
  match lookup "answer" r with
  | Some answer =>
      let year := get "year" (VStr "") r in
      if truthy year then Ok (str answer ++ " (in " ++ str year ++ ")")
      else Ok (str answer)
  | None =>
      match first_value r with
      | Ok v => Ok (str v)
      | Raise e => Raise e
      end
  end.

(** The body of the loop over several rows. *)
Definition format_item (r : row) : result string :=
  match lookup "answer" r with
  | Some answer =>
      let year := get "year" (VStr "") r in
      if truthy year then Ok (str answer ++ " (" ++ str year ++ ")")
      else Ok (str answer)
  | None =>
      match first_value r with
      | Ok v => Ok (str v)
      | Raise e => Raise e
      end
  end.

(** [for result in ...: answers.append(...)] *)
Fixpoint format_loop (rs : list row) (answers : list string)
  : result (list string) :=
  match rs with
  | [] => Ok answers
  | r :: rs' =>
      match format_item r with
      | Ok a => format_loop rs' (answers ++ [a])%list
      | Raise e => Raise e
      end
  end.

Definition not_found : string :=
  "I couldn't find an answer to that question in the knowledge graph.".

Definition _format_answer (results : list row) (question : string)
  : result string :=
  match results with
  | [] => Ok not_found
  | [r] => format_single r
  | _ =>
      match format_loop (firstn 5 results) [] with
      | Ok answers => Ok (Str.join "; " answers)
      | Raise e => Raise e
      end
  end.

(* ================================================================= *)
(** ** [answer_question] *)

(** The dictionary that is returned; [answer_question] always gives it
    its [question] key. *)
Record answer_dict : Type := AnswerDict {
  question : option string;
  cypher : option string;
  results : list row;
  answer : string;
  approach : string
}.

Definition not_understood : string :=
  "Sorry, I couldn't understand that question.".

(** [not cypher] *)
Definition falsy (c : option string) : bool :=
  match c with
  | None => true
  | Some s => String.eqb s ""
  end.

Definition answer_question (e : env) (q : string) (use_llm : bool)
  : M answer_dict :=
  print (PrintQuestion q) ;;;
  c <- rule_based_query q ;;
  ca <- (if falsy c && use_llm
         then (c' <- llm_based_query e q ;; ret (c', "llm-based"))
         else ret (c, "rule-based")) ;;
  let c := fst ca in
  let appr := snd ca in
  if falsy c then
    ret (AnswerDict (Some q) None [] not_understood "none")
  else
    print (PrintGenerated appr (the_str c)) ;;;
    rows <- execute_query e (the_str c) ;;
    text <- lift (_format_answer rows q) ;;
    ret (AnswerDict (Some q) c rows text appr).

(* ================================================================= *)
(** ** Vocabulary of the statements *)

(** *** What a regular expression denotes *)

Module ReSpec.
Import Re.

(** [n] pieces in a row, each in [D]; a piece sees the text after it. *)
Fixpoint den_rep (D : string -> string -> Prop) (n : nat)
  (c after : string) : Prop :=
  match n with
  | O => c = ""
  | S n' =>
      exists c1 c2,
        c = c1 ++ c2 /\ D c1 (c2 ++ after) /\ den_rep D n' c2 after
  end.

Definition den_one (p : ascii -> bool) (c : string) : Prop :=
  exists a, c = String a "" /\ p a = true.

(** [den r c after]: [r] can consume [c] when [after] follows. *)
Fixpoint den (r : regex) (c after : string) : Prop :=
  match r with
  | Chr a => c = String a ""
  | Dot => den_one (fun x => negb (Ascii.eqb x Str.LF)) c
  | Digit => den_one Str.is_digit c
  | Dollar => c = "" /\ (after = "" \/ after = Str.nl)
  | Cat r1 r2 =>
      exists c1 c2, c = c1 ++ c2 /\ den r1 c1 (c2 ++ after) /\ den r2 c2 after
  | Alt r1 r2 => den r1 c after \/ den r2 c after
  | Opt r1 => den r1 c after \/ c = ""
  | PlusLazy r1 => exists n, den_rep (den r1) (S n) c after
  | Rep n r1 => den_rep (den r1) n c after
  end.

(** The expressions of the capturing groups of a pattern, in order. *)
Fixpoint captures (p : pattern) : list regex :=
  match p with
  | [] => []
  | Plain _ :: p' => captures p'
  | Capture r :: p' => r :: captures p'
  end.

(** The literal text that an expression starts with. *)
Fixpoint lead (r : regex) : string :=
  match r with
  | Chr a => String a ""
  | Cat (Chr a) r2 => String a (lead r2)
  | _ => ""
  end.

Definition lead_text (p : pattern) : string :=
  match p with
  | Plain r :: _ => lead r
  | _ => ""
  end.

(** A matcher all of whose ways split the text and lie in [D]. *)
Definition sound (D : string -> string -> Prop) (m : string -> list way)
  : Prop :=
  forall s w, In w (m s) -> s = fst w ++ snd w /\ D (fst w) (snd w).

(** What a group of a match holds. *)
Definition captured (r : regex) (c : string) : Prop :=
  exists after, den r c after.

End ReSpec.

(** *** Reading a generated query *)

(** The lines of a query without their indentation; the empty ones are
    left out. *)
Definition clauses (q : string) : list string :=
  filter (fun l => negb (String.eqb l ""))
         (map Str.drop_spaces (Str.lines q)).

(** A line of a template that reads back as a clause: no newline in it,
    and a first character that is not a space. *)
Definition clause_line (l : string) : Prop :=
  Str.no_lf l = true /\ Str.drop_spaces l = l /\ l <> "".

(** A filter [r.year <op> <year>] closes a line. *)
Definition year_filter (op year q : string) : bool :=
  existsb (Str.ends_with ("r.year " ++ op ++ " " ++ year)) (clauses q).

Definition ordered (q : string) : bool :=
  existsb (String.prefix "ORDER BY") (clauses q).

Definition order_by (key q : string) : bool :=
  existsb (String.eqb ("ORDER BY " ++ key)) (clauses q).

Definition limited (q : string) : bool :=
  existsb (String.prefix "LIMIT") (clauses q).

Definition limit (n q : string) : bool :=
  existsb (String.eqb ("LIMIT " ++ n)) (clauses q).

(** *** Which rule fires *)

Definition fires (text : string) (r : rule) : bool :=
  match Re.search (pattern r) text with
  | Some _ => true
  | None => false
  end.

(** The first rule, from position [i] on, whose pattern is found in the
    text, and the groups of its match. *)
Fixpoint first_from (i : nat) (rules : list rule) (text : string)
  : option (nat * list string) :=
  match rules with
  | [] => None
  | r :: rules' =>
      match Re.search (pattern r) text with
      | Some m => Some (i, Re.groups m)
      | None => first_from (S i) rules' text
      end
  end.

Definition first_match (q : string) : option (nat * list string) :=
  first_from 0 query_patterns (Str.strip q).

(** The template of the rule at a position. *)
Definition handler (i : nat) : list string -> M string :=
  match nth_error query_patterns i with
  | Some r => template r
  | None => fun _ => raise arity_error
  end.

(** The templates that were called: each call is announced by the
    groups it gets. *)
Fixpoint calls (out : list event) : list (list string) :=
  match out with
  | [] => []
  | PrintGroups gs :: out' => gs :: calls out'
  | _ :: out' => calls out'
  end.

(** The rules from position [i] on whose pattern is found in the text,
    and the groups of a rule's match. *)
Definition firing_from (i : nat) (text : string) : list rule :=
  filter (fires text) (skipn i query_patterns).

Definition groups_in (text : string) (r : rule) : list string :=
  match Re.search (pattern r) text with
  | Some m => Re.groups m
  | None => []
  end.

(** A template that raises on every input, and prints nothing. *)
Definition always_raises (h : list string -> M string) : Prop :=
  forall gs w, exists e, h gs w = (w, Raise e) /\ exn_cls e = TypeError.

(** *** Conditions on the store *)

(** The two queries of the schema lookup succeed, whatever came before. *)
Definition schema_lookup_ok (e : env) : Prop :=
  forall w, exists w' v, _get_schema_info e w = (w', Ok v).

(** Every record that the store returns has a column. *)
Definition rows_have_columns (e : env) : Prop :=
  forall h c rs, driver e h c = Ok rs -> Forall (fun r : row => r <> []) rs.

(** Four decimal digits. *)
Definition four_digit (d : string) : Prop :=
  String.length d = 4 /\ Str.all Str.is_digit d = true.

(** *** Collaborators of the examples *)

(** A store that cannot be reached, with a model client. *)
Definition store_down : env :=
  Env (fun _ _ => Raise (Exn ServiceError "Couldn't connect to localhost:7687"))
      (Some (fun _ _ => Ok [Some "MATCH (n:Entity) RETURN n.name as answer"])).

(** A store that returns one record without columns. *)
Definition store_bare : env := Env (fun _ _ => Ok [[]]) None.

(** A store without data, and no model client. *)
Definition store_empty : env := Env (fun _ _ => Ok []) None.

(** A store that answers every query with one record, which has the
    columns of the schema lookup and those of an answer, and a model
    client. *)
Definition store_with_rows : env :=
  Env (fun _ _ => Ok [[ ("rel_type", VStr "drove_for");
                        ("name", VStr "Lewis Hamilton");
                        ("answer", VStr "Mercedes");
                        ("year", VInt 2017) ]])
      (Some (fun _ _ => Ok [Some "MATCH (n:Entity) RETURN n.name as answer"])).

Definition two_engineers : list row :=
  [ [("answer", VStr "Peter Bonnington"); ("year", VInt 2017)];
    [("answer", VStr "Marc Hynes"); ("year", VInt 2012)] ].

(** *** Replies of the model *)

(** A reply in a code fence: the fence with a language tag, the body on
    lines of its own, and the closing fence. *)
Definition fenced (lang body : string) : string :=
  fence ++ lang ++ Str.nl ++ body ++ Str.nl ++ fence.

(** The query that [llm_based_query] makes of a trimmed reply. *)
Definition unfence (reply : string) : string :=
  if String.prefix fence reply
  then Str.join Str.nl (inner (Str.lines reply))
  else reply.

(** A store without data and a model client with one reply, and one
    whose calls fail. *)
Definition model_says (content : string) : env :=
  Env (fun _ _ => Ok []) (Some (fun _ _ => Ok [Some content])).

Definition model_fails : env :=
  Env (fun _ _ => Ok [])
      (Some (fun _ _ => Raise (Exn ServiceError "Rate limit reached"))).

(* ================================================================= *)
(** ** [triple_extraction.py]: years, sentences and batches *)

(** *** Regular expressions with classes, [\b] and a greedy [+] *)

Module Rx.

Definition in_range (lo hi : nat) (c : ascii) : bool :=
  ((lo <=? nat_of_ascii c) && (nat_of_ascii c <=? hi))%nat.

(** [\w] on code points below 256: letters, digits and other numeric
    characters, and the underscore. *)
Definition is_word (c : ascii) : bool :=
  in_range 48 57 c || in_range 65 90 c || in_range 95 95 c
  || in_range 97 122 c || in_range 170 170 c || in_range 178 179 c
  || in_range 181 181 c || in_range 185 186 c || in_range 188 190 c
  || in_range 192 214 c || in_range 216 246 c || in_range 248 255 c.

Inductive regex : Type :=
| Cls (p : ascii -> bool)      (* one character of a class *)
| Bound                        (* \b *)
| Cat (r1 r2 : regex)
| Alt (r1 r2 : regex)
| Plus (r : regex).            (* r+  greedy *)

Fixpoint lit (s : string) : regex :=
  match s with
  | "" => Cls (fun _ => false)
  | String c "" => Cls (Ascii.eqb c)
  | String c s' => Cat (Cls (Ascii.eqb c)) (lit s')
  end.

Inductive seg : Type :=
| Plain (r : regex)
| Capture (r : regex).

Definition pattern : Type := list seg.

Definition word_at (c : option ascii) : bool :=
  match c with
  | Some a => is_word a
  | None => false
  end.

Definition first_char (s : string) : option ascii :=
  match s with
  | String c _ => Some c
  | "" => None
  end.

(** The character before the rest, after [c] was consumed. *)
Fixpoint last_of (prev : option ascii) (c : string) : option ascii :=
  match c with
  | "" => prev
  | String a c' => last_of (Some a) c'
  end.

Fixpoint iter_greedy (m : option ascii -> string -> list Re.way)
  (fuel : nat) (prev : option ascii) (s : string) : list Re.way :=
  match fuel with
  | O => m prev s
  | S fuel' =>
      flat_map
        (fun w =>
           ((if (String.length (snd w) <? String.length s)%nat
             then map (Re.consume (fst w))
                      (iter_greedy m fuel' (last_of prev (fst w)) (snd w))
             else []) ++ [w])%list)
        (m prev s)
  end.

(** The ways in which [r] matches at the start of [s], when [prev] is
    the character before [s]. *)
Fixpoint ways (r : regex) (prev : option ascii) (s : string) : list Re.way :=
  match r with
  | Cls p => Re.one p s
  | Bound =>
      if xorb (word_at prev) (word_at (first_char s)) then [("", s)] else []
  | Cat r1 r2 =>
      flat_map
        (fun w => map (Re.consume (fst w))
                      (ways r2 (last_of prev (fst w)) (snd w)))
        (ways r1 prev s)
  | Alt r1 r2 => (ways r1 prev s ++ ways r2 prev s)%list
  | Plus r1 => iter_greedy (ways r1) (String.length s) prev s
  end.

Fixpoint pways (p : pattern) (prev : option ascii) (s : string)
  : list Re.mobj :=
  match p with
  | [] => [Re.MObj "" [] s]
  | Plain r :: p' =>
      flat_map
        (fun w => map (Re.extend (fst w) false)
                      (pways p' (last_of prev (fst w)) (snd w)))
        (ways r prev s)
  | Capture r :: p' =>
      flat_map
        (fun w => map (Re.extend (fst w) true)
                      (pways p' (last_of prev (fst w)) (snd w)))
        (ways r prev s)
  end.

(** [re.search(p, s)], when [prev] is the character before [s]. *)
Fixpoint search_from (p : pattern) (prev : option ascii) (s : string)
  : option Re.mobj :=
  match hd_error (pways p prev s) with
  | Some m => Some m
  | None =>
      match s with
      | "" => None
      | String c s' => search_from p (Some c) s'
      end
  end.

Definition search (p : pattern) (s : string) : option Re.mobj :=
  search_from p None s.

(** The expressions of the capturing groups of a pattern, in order. *)
Fixpoint captures (p : pattern) : list regex :=
  match p with
  | [] => []
  | Plain _ :: p' => captures p'
  | Capture r :: p' => r :: captures p'
  end.

(** [g] was matched by [r] somewhere. *)
Definition matched_by (r : regex) (g : string) : Prop :=
  exists prev s rest, In (g, rest) (ways r prev s).

(** [g] lies in [whole]. *)
Definition part_of (whole g : string) : Prop :=
  exists a b, whole = a ++ g ++ b.

End Rx.

Module Extractor.

(** [(19[5-9]\d|20[0-3]\d)] *)
Definition year_re : Rx.regex :=
  Rx.Alt
    (Rx.Cat (Rx.lit "19") (Rx.Cat (Rx.Cls (Rx.in_range 53 57))
                                  (Rx.Cls Str.is_digit)))
    (Rx.Cat (Rx.lit "20") (Rx.Cat (Rx.Cls (Rx.in_range 48 51))
                                  (Rx.Cls Str.is_digit))).

(** [\s+] *)
Definition spaces_re : Rx.regex := Rx.Plus (Rx.Cls Str.isspace).

Definition year_patterns : list Rx.pattern :=
  [ [Rx.Plain Rx.Bound; Rx.Capture year_re; Rx.Plain Rx.Bound];
    [Rx.Plain (Rx.lit "in"); Rx.Plain spaces_re; Rx.Capture year_re];
    [Rx.Plain (Rx.lit "during"); Rx.Plain spaces_re; Rx.Capture year_re];
    [Rx.Plain (Rx.lit "season"); Rx.Plain spaces_re; Rx.Capture year_re] ].

(** A text that the year expression matches as a whole. *)
Definition year_token (d : string) : bool :=
  match d with
  | String a (String b (String c (String e ""))) =>
      (Ascii.eqb "1" a && Ascii.eqb "9" b && Rx.in_range 53 57 c
       && Str.is_digit e)
      || (Ascii.eqb "2" a && Ascii.eqb "0" b && Rx.in_range 48 51 c
          && Str.is_digit e)
  | _ => false
  end.

(** Neither "1" nor "2". *)
Definition starts_no_year (c : ascii) : bool :=
  negb (Ascii.eqb "1" c) && negb (Ascii.eqb "2" c).

(** [match.group(1) if match.groups() else match.group(0)] *)
Definition group1_or_0 (m : Re.mobj) : string :=
  match Re.groups m with
  | g :: _ => g
  | [] => Re.group0 m
  end.

(** The loop of [extract_year_from_sentence] over the patterns left. *)
Fixpoint year_loop (patterns : list Rx.pattern) (sentence : string)
  : result (option Z) :=
  match patterns with
  | [] => Ok None
  | p :: patterns' =>
      match Rx.search p sentence with
      | Some m =>
          match int (group1_or_0 m) with
          | Ok year =>
              if (1950 <=? year)%Z && (year <=? 2030)%Z then Ok (Some year)
              else year_loop patterns' sentence
          | Raise e => Raise e
          end
      | None => year_loop patterns' sentence
      end
  end.

Definition extract_year_from_sentence (sentence : string)
  : result (option Z) :=
  year_loop year_patterns sentence.

(** [s.split(sep)] for a separator of one character. *)
Fixpoint split_at (sep : ascii) (cur s : string) : list string :=
  match s with
  | "" => [Str.rev cur]
  | String c s' =>
      if Ascii.eqb c sep then Str.rev cur :: split_at sep "" s'
      else split_at sep (String c cur) s'
  end.

Definition split (sep : ascii) (s : string) : list string :=
  split_at sep "" s.

(** [[s.strip() for s in text.split('.') if len(s.strip()) > 20]] *)
Definition sentences (text : string) : list string :=
  map Str.strip
      (filter (fun s => (20 <? String.length (Str.strip s))%nat)
              (split "." text)).

(** [range(start, stop, step)] for a positive step. *)
Fixpoint range_from (fuel start stop step : nat) : list nat :=
  match fuel with
  | O => []
  | S fuel' =>
      if (start <? stop)%nat
      then start :: range_from fuel' (start + step) stop step
      else []
  end.

Definition range (start stop step : nat) : list nat :=
  range_from stop start stop step.

(** [l[i:j]] for [i <= j] *)
Definition slice {A} (i j : nat) (l : list A) : list A :=
  firstn (j - i) (skipn i l).

Definition batch_size : nat := 5.

(** The batches of the loop of [extract_triples_from_text], and the text
    of a batch. *)
Definition batches (sentences : list string) : list (list string) :=
  map (fun i => slice i (i + batch_size) sentences)
      (range 0 (List.length sentences) batch_size).

Definition batch_text (batch : list string) : string := Str.join ". " batch.

(** [s.replace(old, new)] for [old] and [new] of one character. *)
Fixpoint replace (old new : ascii) (s : string) : string :=
  match s with
  | "" => ""
  | String c s' =>
      String (if Ascii.eqb c old then new else c) (replace old new s')
  end.


(** [s.rfind(c)], when it is not -1 *)
Fixpoint rfind (c : ascii) (s : string) : option nat :=
  match s with
  | "" => None
  | String a s' =>
      match rfind c s' with
      | Some i => Some (S i)
      | None => if Ascii.eqb a c then Some 0 else None
      end
  end.

(** [Path.stem] of a path whose last component is [name]: the name up to
    its last dot, when that dot is neither its first nor its last
    character. *)
Definition stem (name : string) : string :=
  match rfind "." name with
  | Some i =>
      if (0 <? i)%nat && (i <? String.length name - 1)%nat
      then String.substring 0 i name
      else name
  | None => name
  end.



(** [text_file.stem.replace('_', ' ')] in [process_all_pages] *)
Definition page_title (stem : string) : string := replace "_" " " stem.


End Extractor.

(* ================================================================= *)
(** ** JSON values and what Python does with them *)

(** What [json.loads] returns. *)
#[warnings="-register-all"]
Inductive json : Type :=
| JNull
| JBool (b : bool)
| JInt (n : Z)
| JFloat (text : string)
| JStr (s : string)
| JArr (items : list json)
| JObj (members : list (string * json)).

Module Py.

(** [sub in s] for two [str] *)
Fixpoint str_contains (sub s : string) : bool :=
  String.prefix sub s ||
  match s with
  | "" => false
  | String _ s' => str_contains sub s'
  end.

Definition is_str (key : string) (v : json) : bool :=
  match v with
  | JStr s => String.eqb s key
  | _ => false
  end.

Fixpoint member (key : string) (kv : list (string * json)) : option json :=
  match kv with
  | [] => None
  | (k, v) :: kv' => if String.eqb k key then Some v else member key kv'
  end.

(** [type(v).__name__] *)
Definition type_name (v : json) : string :=
  match v with
  | JNull => "NoneType"
  | JBool _ => "bool"
  | JInt _ => "int"
  | JFloat _ => "float"
  | JStr _ => "str"
  | JArr _ => "list"
  | JObj _ => "dict"
  end.

(** [for x in v] *)
Definition iterate (v : json) : result (list json) :=
  match v with
  | JArr items => Ok items
  | JObj members => Ok (map (fun p => JStr (fst p)) members)
  | JStr s => Ok (map (fun c => JStr (String c "")) (list_ascii_of_string s))
  | _ =>
      Raise (Exn TypeError ("'" ++ type_name v ++ "' object is not iterable"))
  end.

(** [key in v] for a [str] key *)
Definition contains (key : string) (v : json) : result bool :=
  match v with
  | JObj members =>
      Ok (match member key members with Some _ => true | None => false end)
  | JStr s => Ok (str_contains key s)
  | JArr items => Ok (existsb (is_str key) items)
  | _ =>
      Raise (Exn TypeError
               ("argument of type '" ++ type_name v ++ "' is not iterable"))
  end.

(** [all(key in v for key in keys)] *)
Fixpoint all_in (keys : list string) (v : json) : result bool :=
  match keys with
  | [] => Ok true
  | key :: keys' =>
      match contains key v with
      | Ok true => all_in keys' v
      | Ok false => Ok false
      | Raise e => Raise e
      end
  end.

(** [v[key]] for a [str] key; the text of the [KeyError] is that of a
    key without quotes or escapes, as the keys of this program are *)
Definition subscript (v : json) (key : string) : result json :=
  match v with
  | JObj members =>
      match member key members with
      | Some x => Ok x
      | None => Raise (Exn KeyError ("'" ++ key ++ "'"))
      end
  | JStr _ =>
      Raise (Exn TypeError "string indices must be integers, not 'str'")
  | JArr _ =>
      Raise (Exn TypeError "list indices must be integers or slices, not str")
  | _ =>
      Raise (Exn TypeError
               ("'" ++ type_name v ++ "' object is not subscriptable"))
  end.

(** [v.get(key)] *)
Definition get (v : json) (key : string) : result json :=
  match v with
  | JObj members =>
      match member key members with
      | Some x => Ok x
      | None => Ok JNull
      end
  | _ =>
      Raise (Exn AttributeError
               ("'" ++ type_name v ++ "' object has no attribute 'get'"))
  end.

(** [s[a:-b]] *)
Definition slice_inside (a b : nat) (s : string) : string :=
  String.substring a (String.length s - b - a) s.

(** An exception that [except json.JSONDecodeError] catches. *)
Definition is_decode_error (ex : exn) : bool :=
  match exn_cls ex with
  | JSONDecodeError => true
  | _ => false
  end.

End Py.

(** A state monad with exceptions, over any state. *)
Module St.

Definition t (S A : Type) : Type := S -> S * result A.

Definition ret {S A} (a : A) : t S A := fun s => (s, Ok a).

Definition bind {S A B} (m : t S A) (k : A -> t S B) : t S B :=
  fun s =>
    match m s with
    | (s', Ok a) => k a s'
    | (s', Raise e) => (s', Raise e)
    end.

Definition try_except {S A} (m : t S A) (h : exn -> t S A) : t S A :=
  fun s =>
    match m s with
    | (s', Ok a) => (s', Ok a)
    | (s', Raise e) => h e s'
    end.

Definition lift {S A} (r : result A) : t S A := fun s => (s, r).

End St.

Declare Scope st_scope.
Delimit Scope st_scope with st.
Notation "x <-- c1 ;; c2" := (St.bind c1 (fun x => c2))
  (at level 61, c1 at next level, right associativity) : st_scope.
Notation "c1 ;;- c2" := (St.bind c1 (fun _ => c2))
  (at level 61, right associativity) : st_scope.
Open Scope st_scope.

(* ================================================================= *)
(** ** [triple_extraction.py]: triples from a batch *)

Module Triples.

(** What the extractor prints. *)
Inductive xevent : Type :=
| PrintJsonError (e : exn)
| PrintRaw (content : string)
| PrintApiError (e : exn)
| PrintBatchError (e : exn)
| PrintFiles (n : nat)
| PrintProcessing (page_title : string)
| PrintExtracted (n : nat) (page_title : string)
| PrintNoTriples (page_title : string)
| PrintTotal (n : nat).

(** Printed events, the prompts sent (text and page title), and the
    readings of the clock so far. *)
Record xworld : Type := XWorld {
  xout : list xevent;
  prompts : list (string * string);
  clock : nat
}.

(** The model client (it answers the prompt of a text and a page title
    given the prompts before, or raises), [json.loads] (it returns a
    value or raises: a [JSONDecodeError] for a text that is not JSON, a
    [ValueError] or a [RecursionError] for a number or a nesting beyond
    its limits) and [datetime.now().isoformat()] at each reading. *)
Record xenv : Type := XEnv {
  chat : list (string * string) -> string -> string
         -> result (list (option string));
  loads : string -> result json;
  now : nat -> string
}.

Definition xprint (ev : xevent) : St.t xworld unit :=
  fun w => (XWorld (xout w ++ [ev]) (prompts w) (clock w), Ok tt).

Definition chat_create (e : xenv) (text page_title : string)
  : St.t xworld (list (option string)) :=
  fun w =>
    (XWorld (xout w) (prompts w ++ [(text, page_title)]) (clock w),
     chat e (prompts w) text page_title).

Definition read_clock (e : xenv) : St.t xworld string :=
  fun w => (XWorld (xout w) (prompts w) (S (clock w)), Ok (now e (clock w))).

Definition json_of_year (year : option Z) : json :=
  match year with
  | Some n => JInt n
  | None => JNull
  end.

Definition triple_keys : list string := ["subject"; "predicate"; "object"].

(** The loop over [triples_data]. *)
Fixpoint enrich_loop (e : xenv) (text page_title : string)
  (items : list json) (enriched_triples : list json)
  : St.t xworld (list json) :=
  match items with
  | [] => St.ret enriched_triples
  | triple :: items' =>
      has_keys <-- St.lift (Py.all_in triple_keys triple) ;;
      if has_keys : bool then
        year <-- St.lift (Extractor.extract_year_from_sentence text) ;;
        subject <-- St.lift (Py.subscript triple "subject") ;;
        predicate <-- St.lift (Py.subscript triple "predicate") ;;
        object <-- St.lift (Py.subscript triple "object") ;;
        extracted_at <-- read_clock e ;;
        enrich_loop e text page_title items'
          (enriched_triples
           ++ [JObj [ ("subject", subject); ("predicate", predicate);
                      ("object", object); ("year", json_of_year year);
                      ("source_page", JStr page_title);
                      ("extracted_at", JStr extracted_at) ]])%list
      else enrich_loop e text page_title items' enriched_triples
  end.

(** The reply without its code fence. *)
Definition strip_fence (content : string) : string :=
  if String.prefix "```json" content then Py.slice_inside 7 3 content
  else if String.prefix "```" content then Py.slice_inside 3 3 content
  else content.

(** The call of the model and the reply read from its answer: up to
    here the local variable [content] is not bound. *)
Definition read_reply (e : xenv) (text page_title : string)
  : St.t xworld string :=
  choices <-- chat_create e text page_title ;;
  St.lift (first_content choices).

(** The rest of the [try] block, with [content] bound. *)
Definition parse_reply (e : xenv) (text page_title content : string)
  : St.t xworld (list json) :=
  triples_data <-- St.lift (loads e content) ;;
  items <-- St.lift (Py.iterate triples_data) ;;
  enrich_loop e text page_title items [].

Definition unbound_content : exn :=
  Exn UnboundLocalError
    "cannot access local variable 'content' where it is not associated with a value".

(** The two [except] clauses: the first one prints [content], which is
    bound only if the reply was read. *)
Definition on_error (content : option string) (ex : exn)
  : St.t xworld (list json) :=
  if Py.is_decode_error ex then
    xprint (PrintJsonError ex) ;;-
    match content with
    | Some raw => xprint (PrintRaw raw) ;;- St.ret []
    | None => St.lift (Raise unbound_content)
    end
  else xprint (PrintApiError ex) ;;- St.ret [].

Definition _extract_batch_triples (e : xenv) (text page_title : string)
  : St.t xworld (list json) :=
  fun w =>
    match read_reply e text page_title w with
    | (w1, Ok content) =>
        let content := strip_fence content in
        St.try_except (parse_reply e text page_title content)
                      (on_error (Some content)) w1
    | (w1, Raise ex) => on_error None ex w1
    end.

(** The loop of [extract_triples_from_text] over the batches. *)
Fixpoint batch_loop (e : xenv) (page_title : string)
  (bs : list (list string)) (all_triples : list json)
  : St.t xworld (list json) :=
  match bs with
  | [] => St.ret all_triples
  | batch :: bs' =>
      all_triples' <--
        St.try_except
          (triples <-- _extract_batch_triples e (Extractor.batch_text batch)
                                              page_title ;;
           St.ret (all_triples ++ triples)%list)
          (fun ex => xprint (PrintBatchError ex) ;;- St.ret all_triples) ;;
      batch_loop e page_title bs' all_triples'
  end.

Definition extract_triples_from_text (e : xenv) (text page_title : string)
  : St.t xworld (list json) :=
  batch_loop e page_title (Extractor.batches (Extractor.sentences text)) [].

(** An enriched triple: the six keys in order, with the year and the
    page given. *)
Definition enriched (year : option Z) (page_title : string) (t : json)
  : Prop :=
  exists subject predicate object extracted_at,
    t = JObj [ ("subject", subject); ("predicate", predicate);
               ("object", object); ("year", json_of_year year);
               ("source_page", JStr page_title);
               ("extracted_at", JStr extracted_at) ].

(** An object with the three keys of a triple. *)
Definition is_triple (v : json) : bool :=
  match v with
  | JObj members =>
      match Py.member "subject" members, Py.member "predicate" members,
            Py.member "object" members with
      | Some _, Some _, Some _ => true
      | _, _, _ => false
      end
  | _ => false
  end.

(** The same subject, predicate and object. *)
Definition same_core (t source : json) : Prop :=
  Py.subscript t "subject" = Py.subscript source "subject"
  /\ Py.subscript t "predicate" = Py.subscript source "predicate"
  /\ Py.subscript t "object" = Py.subscript source "object".

(** A number, a boolean or [None]. *)
Definition scalar (v : json) : bool :=
  match v with
  | JNull | JBool _ | JInt _ | JFloat _ => true
  | _ => false
  end.

Definition is_object (v : json) : bool :=
  match v with
  | JObj _ => true
  | _ => false
  end.

(** What [_extract_batch_triples] itself prints. *)
Definition batch_event (ev : xevent) : bool :=
  match ev with
  | PrintBatchError _ => false
  | _ => true
  end.

End Triples.

(* ================================================================= *)
(** ** [triple_extraction.py]: all pages *)

Module Pages.

(** The extractor and the triples appended to [triples.jsonl]. *)
Record pworld : Type := PWorld {
  extractor : Triples.xworld;
  triples_file : list json
}.

(** The text files of the data directory, each with its stem and its
    content, in the order of [glob]. *)
Record penv : Type := PEnv {
  client : Triples.xenv;
  text_files : list (string * string)
}.

Definition within {A} (m : St.t Triples.xworld A) : St.t pworld A :=
  fun w =>
    match m (extractor w) with
    | (x', r) => (PWorld x' (triples_file w), r)
    end.

Definition save_triples (triples : list json) : St.t pworld unit :=
  fun w => (PWorld (extractor w) (triples_file w ++ triples), Ok tt).

(** The loop of [process_all_pages] over the text files. *)
Fixpoint pages_loop (e : penv) (files : list (string * string))
  (total_triples : nat) : St.t pworld nat :=
  match files with
  | [] => St.ret total_triples
  | (stem, text) :: files' =>
      let page_title := Extractor.page_title stem in
      within (Triples.xprint (Triples.PrintProcessing page_title)) ;;-
      triples <-- within (Triples.extract_triples_from_text (client e) text
                            page_title) ;;
      match triples with
      | _ :: _ =>
          save_triples triples ;;-
          within (Triples.xprint
                    (Triples.PrintExtracted (List.length triples)
                       page_title)) ;;-
          pages_loop e files' (total_triples + List.length triples)
      | [] =>
          within (Triples.xprint (Triples.PrintNoTriples page_title)) ;;-
          pages_loop e files' total_triples
      end
  end.

Definition process_all_pages (e : penv) : St.t pworld nat :=
  within (Triples.xprint (Triples.PrintFiles (List.length (text_files e)))) ;;-
  total_triples <-- pages_loop e (text_files e) 0 ;;
  within (Triples.xprint (Triples.PrintTotal total_triples)) ;;-
  St.ret total_triples.

(** The prompts of a text file: one for each batch of its sentences. *)
Definition prompts_of (file : string * string) : list (string * string) :=
  map (fun b => (Extractor.batch_text b, Extractor.page_title (fst file)))
      (Extractor.batches (Extractor.sentences (snd file))).

(** A triple of one of the files. *)
Definition from_files (files : list (string * string)) (t : json) : Prop :=
  exists stem text year,
    In (stem, text) files
    /\ Triples.enriched year (Extractor.page_title stem) t.

End Pages.

(* ================================================================= *)
(** ** [neo4j_loader.py]: loading triples *)

Module Loader.

(** The parameters of a [MERGE] query. *)
Definition params : Type := list (string * json).

Inductive levent : Type :=
| PrintLoadError (e : exn)
| PrintTriple (triple : json)
| PrintNotFound (file_path : string)
| PrintLoading (n : nat)
| PrintSuccessful (n : nat)
| PrintFailed (n : nat).

(** Printed events and the parameters of the queries sent so far. *)
Record lworld : Type := LWorld {
  lout : list levent;
  merges : list params
}.

(** A file as [load_triples_from_file] meets it: there is none; or it
    cannot be opened; or its lines are read, up to the end or up to a
    line that cannot be read (a decoding error, say). *)
Inductive file : Type :=
| Missing
| Unreadable (e : exn)
| Lines (lines : list string) (failure : option exn).

(** The store ([None]: no exception) when a session is opened and when
    the query is run, the file at a path, and [json.loads] (it returns a
    value or raises: a [JSONDecodeError] for a text that is not JSON, a
    [ValueError] or a [RecursionError] for a number or a nesting beyond
    its limits). *)
Record lenv : Type := LEnv {
  session : list params -> option exn;
  run : list params -> params -> option exn;
  open_file : string -> file;
  loads : string -> result json
}.

Definition lprint (ev : levent) : St.t lworld unit :=
  fun w => (LWorld (lout w ++ [ev]) (merges w), Ok tt).

Definition open_session (e : lenv) : St.t lworld unit :=
  fun w =>
    (w, match session e (merges w) with
        | None => Ok tt
        | Some ex => Raise ex
        end).

Definition session_run (e : lenv) (p : params) : St.t lworld unit :=
  fun w =>
    (LWorld (lout w) (merges w ++ [p]),
     match run e (merges w) p with
     | None => Ok tt
     | Some ex => Raise ex
     end).

Definition load_triple (e : lenv) (triple : json) : St.t lworld bool :=
  St.try_except
    (open_session e ;;-
     subject <-- St.lift (Py.subscript triple "subject") ;;
     object <-- St.lift (Py.subscript triple "object") ;;
     predicate <-- St.lift (Py.subscript triple "predicate") ;;
     year <-- St.lift (Py.get triple "year") ;;
     source_page <-- St.lift (Py.get triple "source_page") ;;
     extracted_at <-- St.lift (Py.get triple "extracted_at") ;;
     session_run e [ ("subject", subject); ("object", object);
                     ("predicate", predicate); ("year", year);
                     ("source_page", source_page);
                     ("extracted_at", extracted_at) ] ;;-
     St.ret true)
    (fun ex =>
       lprint (PrintLoadError ex) ;;- lprint (PrintTriple triple) ;;-
       St.ret false).







(** A triple that [load_triple] can send: an object with a subject, an
    object and a predicate. *)
Definition loadable (triple : json) : bool :=
  match triple with
  | JObj members =>
      match Py.member "subject" members, Py.member "object" members,
            Py.member "predicate" members with
      | Some _, Some _, Some _ => true
      | _, _, _ => false
      end
  | _ => false
  end.

(** The parameters of the query of a triple: the six names in the order
    of the call, the three required values, and the three optional ones
    or [None]. *)
Definition params_of (triple : json) (p : params) : Prop :=
  map fst p = ["subject"; "object"; "predicate"; "year"; "source_page";
               "extracted_at"]
  /\ (forall key, In key ["subject"; "object"; "predicate"] ->
       Py.subscript (JObj p) key = Py.subscript triple key)
  /\ (forall key, In key ["year"; "source_page"; "extracted_at"] ->
       Py.subscript (JObj p) key = Py.get triple key).

End Loader.

(* ================================================================= *)
(** ** [run.py]: the pipeline *)

Module Pipeline.



















End Pipeline.

(* ================================================================= *)
(** * Facts *)

(** ** Strings *)

Module StrFacts.
Import Str.

Lemma app_nil_r (s : string) : s ++ "" = s.
Proof. induction s as [|c s IH]; simpl; [reflexivity | now rewrite IH]. Qed.

Lemma app_assoc (a b c : string) : (a ++ b) ++ c = a ++ b ++ c.
Proof. induction a as [|x a IH]; simpl; [reflexivity | now rewrite IH]. Qed.

Lemma length_app (a b : string) :
  String.length (a ++ b) = String.length a + String.length b.
Proof. induction a as [|x a IH]; simpl; [reflexivity | now rewrite IH]. Qed.

Lemma all_app (p : ascii -> bool) (a b : string) :
  all p (a ++ b) = all p a && all p b.
Proof.
  induction a as [|x a IH]; simpl; [reflexivity|].
  rewrite IH. now rewrite andb_assoc.
Qed.

Lemma no_lf_app (a b : string) : no_lf (a ++ b) = no_lf a && no_lf b.
Proof. apply all_app. Qed.

Lemma rev_onto_acc (s x y : string) : rev_onto s (x ++ y) = rev_onto s x ++ y.
Proof.
  revert x. induction s as [|c s IH]; intros x; simpl; [reflexivity|].
  exact (IH (String c x)).
Qed.

Lemma rev_onto_twice (a cur acc : string) :
  rev_onto (rev_onto a cur) acc = rev_onto cur (a ++ acc).
Proof.
  revert cur. induction a as [|c a IH]; intros cur; simpl; [reflexivity|].
  now rewrite IH.
Qed.

Lemma rev_rev_onto (a cur : string) : rev (rev_onto a cur) = rev cur ++ a.
Proof.
  unfold rev. rewrite rev_onto_twice, app_nil_r.
  exact (rev_onto_acc cur "" a).
Qed.

Lemma split_lines_app (a s cur : string) :
  no_lf a = true -> split_lines cur (a ++ s) = split_lines (rev_onto a cur) s.
Proof.
  revert cur. induction a as [|c a IH]; intros cur H; simpl; [reflexivity|].
  unfold no_lf in H. simpl in H. apply andb_true_iff in H as [Hc Ha].
  apply negb_true_iff in Hc. rewrite Hc. now apply IH.
Qed.

Lemma split_lines_line (a cur : string) :
  no_lf a = true -> split_lines cur a = [rev cur ++ a].
Proof.
  intros H. rewrite <- (app_nil_r a) at 1.
  rewrite split_lines_app by assumption. simpl.
  now rewrite rev_rev_onto.
Qed.

Lemma no_lf_spaces (n : nat) : no_lf (spaces n) = true.
Proof. induction n; simpl; [reflexivity | assumption]. Qed.

Lemma drop_spaces_app (n : nat) (l : string) :
  drop_spaces (spaces n ++ l) = drop_spaces l.
Proof. induction n; simpl; [reflexivity | assumption]. Qed.

Lemma drop_spaces_only (n : nat) : drop_spaces (spaces n) = "".
Proof. induction n; simpl; [reflexivity | assumption]. Qed.

Lemma ends_with_refl (s : string) : ends_with s s = true.
Proof. destruct s; simpl; now rewrite ?String.eqb_refl, ?Ascii.eqb_refl. Qed.

Lemma ends_with_app (p s : string) : ends_with s (p ++ s) = true.
Proof.
  induction p as [|c p IH]; simpl.
  - apply ends_with_refl.
  - rewrite IH. apply orb_true_r.
Qed.

End StrFacts.

(** ** The lines of a template *)

Lemma split_block (indent : nat) (ls : list string) (cur : string) :
  Forall (fun l => Str.no_lf l = true) ls ->
  Str.split_lines cur (block indent ls)
  = (Str.rev cur :: map (fun l => (Str.spaces indent ++ l)%string) ls
       ++ [Str.spaces indent])%list.
Proof.
  intros H. revert cur. induction H as [|l ls Hl _ IH]; intros cur.
  - unfold block. simpl. f_equal.
    rewrite StrFacts.split_lines_line by apply StrFacts.no_lf_spaces.
    reflexivity.
  - change (block indent (l :: ls))
      with (Str.nl ++ Str.spaces indent ++ l ++ block indent ls).
    simpl. f_equal.
    rewrite <- StrFacts.app_assoc.
    rewrite StrFacts.split_lines_app.
    + rewrite IH. rewrite StrFacts.rev_rev_onto. reflexivity.
    + unfold Str.no_lf. rewrite StrFacts.all_app.
      fold (Str.no_lf (Str.spaces indent)). fold (Str.no_lf l).
      now rewrite StrFacts.no_lf_spaces, Hl.
Qed.

Lemma clauses_block (indent : nat) (ls : list string) :
  Forall clause_line ls -> clauses (block indent ls) = ls.
Proof.
  intros H. unfold clauses, Str.lines.
  rewrite split_block.
  2:{ eapply Forall_impl; [|exact H]. intros l Hl. apply Hl. }
  simpl. rewrite map_app, filter_app. simpl.
  rewrite StrFacts.drop_spaces_only. simpl. rewrite app_nil_r.
  induction H as [|l ls Hl _ IH]; simpl; [reflexivity|].
  destruct Hl as (_ & Hd & Hne).
  rewrite StrFacts.drop_spaces_app, Hd.
  apply String.eqb_neq in Hne. rewrite Hne. simpl. now rewrite IH.
Qed.

(** ** The matcher is sound for what the expressions denote *)

Module ReFacts.
Import Re ReSpec.

Lemma one_sound (p : ascii -> bool) (s : string) (w : way) :
  In w (one p s) -> s = fst w ++ snd w /\ den_one p (fst w).
Proof.
  destruct s as [|c s]; simpl; [tauto|].
  destruct (p c) eqn:Hp; simpl; [|tauto].
  intros [<-|[]]. simpl. split; [reflexivity|].
  exists c. now split.
Qed.

Lemma rep_sound D m (Hm : sound D m) (n : nat) :
  forall s w, In w (rep m n s) ->
              s = fst w ++ snd w /\ den_rep D n (fst w) (snd w).
Proof.
  induction n as [|n IH]; intros s w; simpl.
  - intros [<-|[]]. simpl. now split.
  - rewrite in_flat_map. intros (w1 & H1 & H2).
    apply in_map_iff in H2 as (w2 & <- & H2).
    apply Hm in H1 as [E1 D1]. apply IH in H2 as [E2 D2].
    simpl. split.
    + now rewrite StrFacts.app_assoc, <- E2.
    + exists (fst w1), (fst w2). rewrite <- E2. now repeat split.
Qed.

Lemma iter_lazy_sound D m (Hm : sound D m) (fuel : nat) :
  forall s w, In w (iter_lazy m fuel s) ->
              s = fst w ++ snd w /\
              exists n, den_rep D (S n) (fst w) (snd w).
Proof.
  assert (once : forall s w, In w (m s) ->
            s = fst w ++ snd w /\ exists n, den_rep D (S n) (fst w) (snd w)).
  { intros s w H. apply Hm in H as [E1 D1]. split; [assumption|].
    exists 0. exists (fst w), "". simpl.
    now rewrite StrFacts.app_nil_r. }
  induction fuel as [|fuel IH]; intros s w; simpl; [apply once|].
  rewrite in_flat_map. intros (w1 & H1 & [<-|H2]); [now apply once|].
  destruct (String.length (snd w1) <? String.length s)%nat; [|destruct H2].
  apply in_map_iff in H2 as (w2 & <- & H2).
  apply Hm in H1 as [E1 D1]. apply IH in H2 as [E2 [n D2]].
  simpl. split.
  - now rewrite StrFacts.app_assoc, <- E2.
  - exists (S n), (fst w1), (fst w2). rewrite <- E2. now repeat split.
Qed.

Lemma ways_sound (r : regex) : sound (den r) (ways r).
Proof.
  induction r as [a| | | |r1 IH1 r2 IH2|r1 IH1 r2 IH2|r1 IH1|r1 IH1|n r1 IH1];
    intros s w; simpl.
  - intros H. apply one_sound in H as [E (c & Hc & Hp)].
    split; [assumption|]. apply Ascii.eqb_eq in Hp. now subst.
  - intros H. now apply one_sound in H.
  - intros H. now apply one_sound in H.
  - destruct (String.eqb s "" || String.eqb s Str.nl) eqn:Hs; [|intros []].
    intros [<-|[]]. simpl. repeat split.
    apply orb_true_iff in Hs as [Hs|Hs]; apply String.eqb_eq in Hs; auto.
  - rewrite in_flat_map. intros (w1 & H1 & H2).
    apply in_map_iff in H2 as (w2 & <- & H2).
    apply IH1 in H1 as [E1 D1]. apply IH2 in H2 as [E2 D2].
    simpl. split.
    + now rewrite StrFacts.app_assoc, <- E2.
    + exists (fst w1), (fst w2). rewrite <- E2. now repeat split.
  - rewrite in_app_iff. intros [H|H]; [apply IH1 in H|apply IH2 in H]; tauto.
  - rewrite in_app_iff. intros [H|[<-|[]]].
    + apply IH1 in H. tauto.
    + simpl. auto.
  - intros H. now apply (iter_lazy_sound IH1) in H.
  - intros H. now apply (rep_sound IH1) in H.
Qed.

(** A match splits the text, and every group holds what its expression
    denotes. *)
Lemma pways_sound (p : pattern) :
  forall s m, In m (pways p s) ->
              s = group0 m ++ rest m /\
              Forall2 captured (captures p) (groups m).
Proof.
  induction p as [|[r|r] p IH]; intros s m; simpl.
  - intros [<-|[]]. simpl. split; [reflexivity | constructor].
  - rewrite in_flat_map. intros (w1 & H1 & H2).
    apply in_map_iff in H2 as (m2 & <- & H2).
    apply ways_sound in H1 as [E1 D1]. apply IH in H2 as [E2 F2].
    simpl. split; [|assumption].
    now rewrite StrFacts.app_assoc, <- E2.
  - rewrite in_flat_map. intros (w1 & H1 & H2).
    apply in_map_iff in H2 as (m2 & <- & H2).
    apply ways_sound in H1 as [E1 D1]. apply IH in H2 as [E2 F2].
    simpl. split.
    + now rewrite StrFacts.app_assoc, <- E2.
    + constructor; [|assumption]. now exists (snd w1).
Qed.

Lemma rmatch_in (p : pattern) (s : string) (m : mobj) :
  rmatch p s = Some m -> In m (pways p s).
Proof.
  unfold rmatch. destruct (pways p s); simpl; [discriminate|].
  intros [= ->]. now left.
Qed.

(** [search] finds its match at some place of the text. *)
Lemma search_sound (p : pattern) :
  forall s m, search p s = Some m ->
              exists pre suf, s = pre ++ suf /\ rmatch p suf = Some m.
Proof.
  induction s as [|c s IH]; intros m; simpl.
  - destruct (rmatch p "") eqn:E; [|discriminate].
    intros [= ->]. now exists "", "".
  - destruct (rmatch p (String c s)) eqn:E.
    + intros [= ->]. now exists "", (String c s).
    + intros H. apply IH in H as (pre & suf & -> & H).
      now exists (String c pre), suf.
Qed.

Lemma search_groups (p : pattern) (s : string) (m : mobj) :
  search p s = Some m -> Forall2 captured (captures p) (groups m).
Proof.
  intros H. apply search_sound in H as (pre & suf & _ & H).
  apply rmatch_in in H. now apply pways_sound in H.
Qed.

(** A match starts with the literal text that the pattern starts with. *)
Lemma ways_lead (r : regex) :
  forall s w, In w (ways r s) -> exists t, s = lead r ++ t.
Proof.
  induction r as [a| | | |r1 IH1 r2 IH2|r1 IH1 r2 IH2|r1 IH1|r1 IH1|n r1 IH1];
    intros s w H; try (now exists s).
  - apply ways_sound in H as [E D]. simpl in D. rewrite D in E.
    now exists (snd w).
  - destruct r1; try (now exists s).
    simpl in H. apply in_flat_map in H as (w1 & H1 & H2).
    apply in_map_iff in H2 as (w2 & _ & H2).
    apply (ways_sound (Chr c)) in H1 as [E1 D1]. simpl in D1.
    apply IH2 in H2 as [t E2]. exists t.
    rewrite E1, D1, E2. reflexivity.
Qed.

Lemma search_lead (p : pattern) (s : string) (m : mobj) :
  search p s = Some m -> exists pre post, s = pre ++ lead_text p ++ post.
Proof.
  intros H. apply search_sound in H as (pre & suf & -> & H).
  exists pre. apply rmatch_in in H.
  destruct p as [|[r|r] p]; simpl; try (now exists suf).
  simpl in H. apply in_flat_map in H as (w1 & H1 & _).
  apply ways_lead in H1 as [t ->]. now exists t.
Qed.

(** *** What the groups of the patterns hold *)

Lemma den_lit (t c after : string) : den (lit t) c after -> c = t.
Proof.
  revert c. induction t as [|a t IH]; intros c; simpl; [tauto|].
  destruct t as [|b t]; simpl; [tauto|].
  intros (c1 & c2 & -> & -> & H). apply IH in H. now subst.
Qed.

Lemma den_some_text (c after : string) :
  den (PlusLazy Dot) c after -> Str.no_lf c = true /\ c <> "".
Proof.
  intros [n H]. revert c H.
  assert (step : forall c1, den Dot c1 "" ->
            Str.no_lf c1 = true /\ exists a, c1 = String a "").
  { intros c1 (a & -> & Ha). unfold Str.no_lf. simpl. rewrite Ha.
    split; [reflexivity | now exists a]. }
  assert (dot : forall c1 x y, den Dot c1 x -> den Dot c1 y) by (intros; assumption).
  induction n as [|n IH]; intros c (c1 & c2 & -> & D1 & D2).
  - simpl in D2. subst c2. apply (dot _ _ "") in D1.
    apply step in D1 as [H1 [a ->]]. split; [assumption | discriminate].
  - apply (dot _ _ "") in D1. apply step in D1 as [H1 [a ->]].
    apply IH in D2 as [H2 _]. split; [|discriminate].
    unfold Str.no_lf in *. rewrite StrFacts.all_app. now rewrite H1, H2.
Qed.

Lemma den_four_digits (c after : string) :
  den (Rep 4 Digit) c after -> four_digit c.
Proof.
  simpl.
  intros (c1 & d1 & -> & (a1 & -> & H1) &
          c2 & d2 & -> & (a2 & -> & H2) &
          c3 & d3 & -> & (a3 & -> & H3) &
          c4 & d4 & -> & (a4 & -> & H4) & ->).
  split; simpl; [reflexivity|]. now rewrite H1, H2, H3, H4.
Qed.

End ReFacts.

(** ** [int()] on digits, and the first year of a text *)

Module IntFacts.
Import Str.

Lemma digit_char (c : ascii) :
  is_digit c = true ->
  isspace c = false /\ Ascii.eqb c "+" = false /\ Ascii.eqb c "-" = false
  /\ Ascii.eqb c LF = false.
Proof.
  destruct c as [[] [] [] [] [] [] [] []]; vm_compute;
    intros H; try discriminate H; repeat split.
Qed.

Lemma digit_val_range (c : ascii) :
  is_digit c = true -> (0 <= digit_val c <= 9)%Z.
Proof.
  unfold is_digit, digit_val. intros H.
  apply andb_true_iff in H as [H1 H2].
  apply Nat.leb_le in H1, H2. lia.
Qed.

Lemma lstrip_digits (s : string) : all is_digit s = true -> lstrip s = s.
Proof.
  destruct s as [|c s]; simpl; [reflexivity|].
  intros H. apply andb_true_iff in H as [H _].
  apply digit_char in H as [-> _]. reflexivity.
Qed.

Lemma rstrip_digits (s : string) : all is_digit s = true -> rstrip s = s.
Proof.
  induction s as [|c s IH]; simpl; [reflexivity|].
  intros H. apply andb_true_iff in H as [Hc Hs].
  apply digit_char in Hc as [-> _]. rewrite andb_false_r.
  now rewrite IH.
Qed.

Lemma strip_digits (s : string) : all is_digit s = true -> strip s = s.
Proof.
  intros H. unfold strip. rewrite lstrip_digits by assumption.
  now apply rstrip_digits.
Qed.

Lemma digits_us_digits (s : string) :
  all is_digit s = true ->
  forall after_digit acc,
    s <> "" \/ after_digit = true ->
    digits_us after_digit acc s = Some (digits_val acc s).
Proof.
  induction s as [|c s IH]; simpl; intros H after_digit acc Hne.
  - destruct Hne as [Hne| ->]; [now destruct Hne | reflexivity].
  - apply andb_true_iff in H as [Hc Hs]. rewrite Hc.
    apply IH; [assumption | now right].
Qed.

Lemma parse_int_digits (s : string) :
  all is_digit s = true -> s <> "" -> parse_int s = Some (digits_val 0 s).
Proof.
  intros H Hne. unfold parse_int. rewrite strip_digits by assumption.
  destruct s as [|c s]; [now destruct Hne|].
  pose proof H as H'. simpl in H'. apply andb_true_iff in H' as [Hc _].
  apply digit_char in Hc as (_ & -> & -> & _).
  apply digits_us_digits; [assumption | now left].
Qed.

Lemma digits_val_range (s : string) :
  all is_digit s = true ->
  forall acc, (0 <= acc)%Z ->
    (0 <= digits_val acc s
     <= acc * 10 ^ Z.of_nat (String.length s)
        + 10 ^ Z.of_nat (String.length s) - 1)%Z.
Proof.
  induction s as [|c s IH]; intros H acc Hacc.
  - simpl. lia.
  - simpl in H. apply andb_true_iff in H as [Hc Hs].
    apply digit_val_range in Hc.
    cbn [digits_val String.length].
    specialize (IH Hs (10 * acc + digit_val c)%Z ltac:(lia)).
    rewrite Nat2Z.inj_succ, Z.pow_succ_r by lia.
    set (P := (10 ^ Z.of_nat (String.length s))%Z) in *.
    assert (0 < P)%Z by (apply Z.pow_pos_nonneg; lia).
    nia.
Qed.

End IntFacts.

Lemma four_digit_shape (d : string) :
  four_digit d ->
  exists a b c e,
    d = String a (String b (String c (String e "")))
    /\ Str.is_digit a = true /\ Str.is_digit b = true
    /\ Str.is_digit c = true /\ Str.is_digit e = true.
Proof.
  intros [Hl Hd].
  destruct d as [|a [|b [|c [|e [|x d]]]]]; try discriminate Hl.
  simpl in Hd. rewrite andb_true_r in Hd.
  apply andb_true_iff in Hd as (Ha & Hd).
  apply andb_true_iff in Hd as (Hb & Hd).
  apply andb_true_iff in Hd as (Hc & He).
  now exists a, b, c, e.
Qed.

Lemma int_four_digit (d : string) :
  four_digit d ->
  int d = Ok (Str.digits_val 0 d) /\ (0 <= Str.digits_val 0 d <= 9999)%Z.
Proof.
  intros [Hl Hd]. split.
  - unfold int. rewrite IntFacts.parse_int_digits; [reflexivity|assumption|].
    intros ->. discriminate Hl.
  - pose proof (@IntFacts.digits_val_range d Hd 0%Z ltac:(lia)) as H.
    rewrite Hl in H. simpl in H. lia.
Qed.

(** The match of the year pattern is four digits. *)
Lemma year_match_digits (s : string) (m : Re.mobj) :
  Re.search year_pattern s = Some m -> four_digit (Re.group0 m).
Proof.
  intros H. apply ReFacts.search_sound in H as (pre & suf & _ & H).
  apply ReFacts.rmatch_in in H. unfold year_pattern in H. simpl in H.
  apply in_flat_map in H as (w & Hw & [<-|[]]).
  apply (ReFacts.ways_sound (Re.Rep 4 Re.Digit)) in Hw as [_ Hw].
  simpl Re.group0. rewrite StrFacts.app_nil_r.
  now apply ReFacts.den_four_digits in Hw.
Qed.

(** [first_year] never raises, and a year it finds has four digits. *)
Lemma first_year_total (context : string) :
  first_year context = Ok None \/
  exists n, first_year context = Ok (Some n) /\ (0 <= n <= 9999)%Z.
Proof.
  unfold first_year.
  destruct (Re.search year_pattern context) as [m|] eqn:E; [right|now left].
  apply year_match_digits in E. apply int_four_digit in E as [-> R].
  now exists (Str.digits_val 0 (Re.group0 m)).
Qed.

(** No digit, hence no year, before the first digit of the text. *)
Lemma first_year_at (pre d post : string) :
  Str.all (fun c => negb (Str.is_digit c)) pre = true ->
  four_digit d ->
  first_year (pre ++ d ++ post) = Ok (Some (Str.digits_val 0 d)).
Proof.
  intros Hpre Hd. unfold first_year.
  assert (E : Re.search year_pattern (pre ++ d ++ post)
              = Some (Re.MObj d [] post)).
  { induction pre as [|c pre IH].
    - destruct (four_digit_shape Hd) as (a & b & c & e & -> & Ha & Hb & Hc & He).
      simpl. unfold Re.rmatch. simpl. rewrite Ha. simpl. rewrite Hb. simpl.
      rewrite Hc. simpl. rewrite He. reflexivity.
    - simpl in Hpre. apply andb_true_iff in Hpre as [Hc Hpre].
      apply negb_true_iff in Hc.
      simpl. unfold Re.rmatch. simpl. rewrite Hc. simpl. now apply IH. }
  rewrite E. simpl Re.group0.
  now destruct (int_four_digit Hd) as [-> _].
Qed.

(** ** The loop over the rules *)

Lemma scan_miss (r : rule) (rs : list rule) (text : string) :
  Re.search (pattern r) text = None -> scan (r :: rs) text = scan rs text.
Proof. intros H. simpl. now rewrite H. Qed.

Lemma scan_hit_ok r rs text m w w' c :
  Re.search (pattern r) text = Some m ->
  template r (Re.groups m) (emit w (PrintGroups (Re.groups m))) = (w', Ok c) ->
  scan (r :: rs) text w = (w', Ok (Some c)).
Proof.
  intros H T. simpl. rewrite H.
  unfold try_except, bind, print, ret. now rewrite T.
Qed.

Lemma scan_hit_raise r rs text m w w' e :
  Re.search (pattern r) text = Some m ->
  template r (Re.groups m) (emit w (PrintGroups (Re.groups m)))
  = (w', Raise e) ->
  scan (r :: rs) text w = scan rs text (emit w' (PrintErrorGenerating e)).
Proof.
  intros H T. simpl. rewrite H.
  unfold try_except, bind, print, ret. now rewrite T.
Qed.

(** The loop never raises. *)
Lemma scan_total (rs : list rule) (text : string) :
  forall w, exists w' c, scan rs text w = (w', Ok c).
Proof.
  induction rs as [|r rs IH]; intros w; simpl.
  - now exists w, None.
  - destruct (Re.search (pattern r) text) as [m|]; [|apply IH].
    unfold try_except, bind, print, ret.
    destruct (template r (Re.groups m) _) as [w1 [c|e]].
    + now exists w1, (Some c).
    + apply IH.
Qed.

Lemma calls_app (a b : list event) : calls (a ++ b) = (calls a ++ calls b)%list.
Proof.
  induction a as [|[] a IH]; simpl; try assumption; [reflexivity|].
  now rewrite IH.
Qed.

(** Rules whose templates all raise: each one that fires is called, and
    the loop ends without a query. *)
Lemma scan_raising (rs : list rule) (text : string) :
  Forall (fun r => always_raises (template r)) rs ->
  forall w, exists w',
    scan rs text w = (w', Ok None)
    /\ calls (stdout w')
       = (calls (stdout w) ++ map (groups_in text) (filter (fires text) rs))%list.
Proof.
  induction 1 as [|r rs Hr _ IH]; intros w.
  - exists w. simpl. now rewrite app_nil_r.
  - cbn [filter scan].
    destruct (Re.search (pattern r) text) as [m|] eqn:E.
    + assert (F : fires text r = true) by (unfold fires; now rewrite E).
      assert (G : groups_in text r = Re.groups m)
        by (unfold groups_in; now rewrite E).
      rewrite F. cbn [map]. rewrite G.
      destruct (Hr (Re.groups m) (emit w (PrintGroups (Re.groups m))))
        as (e & T & _).
      unfold try_except, bind, print, ret. rewrite T.
      destruct (IH (emit (emit w (PrintGroups (Re.groups m)))
                         (PrintErrorGenerating e))) as (w' & S & C).
      exists w'. split; [exact S|]. rewrite C. simpl.
      rewrite !calls_app. simpl. rewrite <- !app_assoc. reflexivity.
    + assert (F : fires text r = false) by (unfold fires; now rewrite E).
      rewrite F. apply IH.
Qed.

(** The rules before the first one that fires are passed over. *)
Lemma first_from_skip (rs : list rule) (text : string) :
  forall k i gs,
    first_from k rs text = Some (i, gs) ->
    exists j r m,
      i = k + j /\ nth_error rs j = Some r
      /\ Re.search (pattern r) text = Some m /\ gs = Re.groups m
      /\ scan rs text = scan (skipn j rs) text.
Proof.
  induction rs as [|r rs IH]; intros k i gs; simpl; [discriminate|].
  destruct (Re.search (pattern r) text) as [m|] eqn:E.
  - intros [= <- <-]. exists 0, r, m. simpl. rewrite E.
    repeat split; auto.
  - intros H. apply IH in H as (j & r' & m' & -> & N & F & G & K).
    exists (S j), r', m'. simpl. repeat split; auto.
Qed.

(** ** The templates that unpack a year *)

Lemma unpack_pair_raises (v : option Z) :
  exists e, unpack_pair v = Raise e /\ exn_cls e = TypeError.
Proof. destruct v; simpl; eexists; split; reflexivity. Qed.

Lemma parse_then_unpack (context : string) (k : option Z * option string -> M string) (w : world) :
  exists e,
    (v <- lift (_parse_temporal_context context) ;;
     yr <- lift (unpack_pair v) ;; k yr) w = (w, Raise e)
    /\ exn_cls e = TypeError.
Proof.
  unfold bind, lift, _parse_temporal_context.
  destruct (first_year_total context) as [-> | (n & -> & _)];
    simpl; eexists; split; reflexivity.
Qed.

Lemma team_relative_raises (driver_name year_context : string) (w : world) :
  exists e, _team_relative_query driver_name year_context w = (w, Raise e)
            /\ exn_cls e = TypeError.
Proof. apply parse_then_unpack. Qed.

Lemma champion_relative_raises (year_context : string) (w : world) :
  exists e, _champion_relative_query year_context w = (w, Raise e)
            /\ exn_cls e = TypeError.
Proof. apply parse_then_unpack. Qed.

Lemma dominant_team_relative_raises (year_context : string) (w : world) :
  exists e, _dominant_team_relative_query year_context w = (w, Raise e)
            /\ exn_cls e = TypeError.
Proof. apply parse_then_unpack. Qed.

Lemma arity_raises (w : world) :
  exists e, raise (A:=string) arity_error w = (w, Raise e)
            /\ exn_cls e = TypeError.
Proof. now exists arity_error. Qed.

Lemma relative_rules_raise :
  Forall (fun r => always_raises (template r)) (skipn 5 query_patterns).
Proof.
  repeat constructor; intros gs w; simpl.
  - destruct gs as [|a [|b [|c gs]]]; simpl;
      try apply arity_raises. apply team_relative_raises.
  - destruct gs as [|a [|b gs]]; simpl;
      try apply arity_raises. apply champion_relative_raises.
  - destruct gs as [|a [|b gs]]; simpl;
      try apply arity_raises. apply dominant_team_relative_raises.
Qed.

(** ** What the groups of each rule hold *)

Ltac groups_of H :=
  apply ReFacts.search_groups in H;
  cbv [ReSpec.captures Pat.race_engineer Pat.race_engineer_reverse_relative
       Pat.team Pat.champion Pat.dominant_team Pat.some_text
       Pat.four_digits Pat.q_or_end] in H;
  repeat match goal with
  | F : Forall2 _ (_ :: _) _ |- _ =>
      let c := fresh "c" in let C := fresh "C" in
      inversion F as [|? c ? ? C ?]; subst; clear F;
      destruct C as [? C]
  | F : Forall2 _ [] _ |- _ => inversion F; subst; clear F
  end.

Lemma four_digit_no_lf (d : string) : four_digit d -> Str.no_lf d = true.
Proof.
  intros H. destruct (four_digit_shape H) as (a & b & c & e & -> & Ha & Hb & Hc & He).
  apply IntFacts.digit_char in Ha as (_ & _ & _ & Ha).
  apply IntFacts.digit_char in Hb as (_ & _ & _ & Hb).
  apply IntFacts.digit_char in Hc as (_ & _ & _ & Hc).
  apply IntFacts.digit_char in He as (_ & _ & _ & He).
  unfold Str.no_lf. simpl. now rewrite Ha, Hb, Hc, He.
Qed.

Lemma race_engineer_groups (text : string) (m : Re.mobj) :
  Re.search Pat.race_engineer text = Some m ->
  exists name context,
    Re.groups m = [name; context] /\ Str.no_lf name = true.
Proof.
  intros H. groups_of H.
  do 2 eexists. split; [reflexivity|].
  now apply ReFacts.den_some_text in C.
Qed.

Lemma reverse_groups (text : string) (m : Re.mobj) :
  Re.search Pat.race_engineer_reverse_relative text = Some m ->
  exists name rel year,
    Re.groups m = [name; rel; year] /\ Str.no_lf name = true
    /\ (rel = "before" \/ rel = "after" \/ rel = "during")
    /\ four_digit year.
Proof.
  intros H. groups_of H.
  do 3 eexists. split; [reflexivity|]. split; [|split].
  - now apply ReFacts.den_some_text in C.
  - change ((ReSpec.den (Re.lit "before") c0 x0
              \/ ReSpec.den (Re.lit "after") c0 x0)
             \/ ReSpec.den (Re.lit "during") c0 x0) in C0.
    destruct C0 as [[D|D]|D]; apply ReFacts.den_lit in D; auto.
  - now apply ReFacts.den_four_digits in C1.
Qed.

Lemma team_groups (text : string) (m : Re.mobj) :
  Re.search Pat.team text = Some m ->
  exists name year,
    Re.groups m = [name; year] /\ Str.no_lf name = true /\ four_digit year.
Proof.
  intros H. groups_of H.
  do 2 eexists. split; [reflexivity|]. split.
  - now apply ReFacts.den_some_text in C.
  - now apply ReFacts.den_four_digits in C0.
Qed.

Lemma champion_groups (text : string) (m : Re.mobj) :
  Re.search Pat.champion text = Some m ->
  exists year, Re.groups m = [year] /\ four_digit year.
Proof.
  intros H. groups_of H.
  eexists. split; [reflexivity|].
  now apply ReFacts.den_four_digits in C.
Qed.

Lemma dominant_team_groups (text : string) (m : Re.mobj) :
  Re.search Pat.dominant_team text = Some m ->
  exists year, Re.groups m = [year] /\ four_digit year.
Proof.
  intros H. groups_of H.
  eexists. split; [reflexivity|].
  now apply ReFacts.den_four_digits in C.
Qed.

(** ** The queries that the templates build *)

Lemma uint_no_lf (d : Decimal.uint) :
  Str.no_lf (NilEmpty.string_of_uint d) = true.
Proof. induction d; simpl; auto. Qed.

Lemma str_int_no_lf (n : Z) : Str.no_lf (Str.str_int n) = true.
Proof.
  unfold Str.str_int. destruct (Z.to_int n) as [d|d]; simpl;
    destruct d; simpl; try reflexivity; apply uint_no_lf.
Qed.

(** The lines of a template are clauses when the texts put into them
    hold no newline. *)
Ltac no_lf_line :=
  rewrite ?StrFacts.no_lf_app;
  repeat match goal with H : Str.no_lf _ = true |- _ => rewrite H end;
  reflexivity.

Ltac clause_lines :=
  repeat first
    [ apply Forall_nil
    | apply Forall_cons;
      [ split; [no_lf_line | split; [reflexivity | cbn; discriminate]] | ] ].

Ltac has_clause l :=
  apply existsb_exists; exists l; split;
  [ cbn; tauto | ].




Lemma race_engineer_query_reads (driver_name year_context : string) (w : world) :
  Str.no_lf driver_name = true ->
  exists c,
    _race_engineer_query driver_name year_context w = (w, Ok c)
    /\ forall y, first_year year_context = Ok (Some y) -> y <> 0%Z ->
         year_filter "=" (Str.str_int y) c = true
         /\ ordered c = false /\ limited c = false.
Proof.
  intros Hn. unfold _race_engineer_query, bind, lift, ret.
  destruct (first_year_total year_context) as [-> | (n & -> & _)];
    cbv beta iota.
  - eexists. split; [reflexivity|]. discriminate.
  - unfold truthy_int. destruct (Z.eqb_spec n 0) as [->|Hn0]; cbn [negb].
    + eexists. split; [reflexivity|]. now intros y [= <-] H.
    + eexists. split; [reflexivity|]. intros y [= <-] _.
      pose proof (str_int_no_lf n) as Hs. cbn [the_int].
      unfold year_filter, ordered, limited.
      rewrite clauses_block by clause_lines.
      split; [|split; reflexivity].
      has_clause ("WHERE r.type CONTAINS 'engineer' AND r.year = "
                  ++ Str.str_int n).
      apply (StrFacts.ends_with_app "WHERE r.type CONTAINS 'engineer' AND ").
Qed.

Lemma reverse_query_reads (engineer_name temporal_relation year : string) (w : world) :
  Str.no_lf engineer_name = true -> four_digit year ->
  exists w' c,
    _race_engineer_reverse_relative_query
      engineer_name temporal_relation year w = (w', Ok c)
    /\ (temporal_relation <> "before" -> temporal_relation <> "after" ->
        year_filter "=" year c = true
        /\ ordered c = false /\ limited c = false).
Proof.
  intros Hn Hd. pose proof (four_digit_no_lf Hd) as Hy.
  unfold _race_engineer_reverse_relative_query, bind, lift, print, ret.
  destruct (String.eqb_spec temporal_relation "before") as [->|Hb].
  - cbn [orb]. destruct (int_four_digit Hd) as [-> _].
    do 2 eexists. split; [reflexivity|]. now intros H.
  - destruct (String.eqb_spec temporal_relation "after") as [->|Ha].
    + cbn [orb]. destruct (int_four_digit Hd) as [-> _].
      do 2 eexists. split; [reflexivity|]. now intros _ H.
    + cbn [orb]. do 2 eexists. split; [reflexivity|]. intros _ _.
      unfold year_filter, ordered, limited.
      rewrite clauses_block by clause_lines.
      split; [|split; reflexivity].
      has_clause ("WHERE r.type CONTAINS 'engineer' AND r.year = " ++ year).
      apply (StrFacts.ends_with_app "WHERE r.type CONTAINS 'engineer' AND ").
Qed.

(** ** From the first match to the answer of [rule_based_query] *)

Lemma skipn_nth (A : Type) (l : list A) :
  forall i x, nth_error l i = Some x -> skipn i l = x :: skipn (S i) l.
Proof.
  induction l as [|y l IH]; intros [|i] x; simpl; try discriminate.
  - now intros [= ->].
  - intros H. now apply IH.
Qed.

Lemma fired (q : string) (i : nat) (gs : list string) :
  first_match q = Some (i, gs) ->
  exists r m,
    nth_error query_patterns i = Some r
    /\ Re.search (pattern r) (Str.strip q) = Some m
    /\ gs = Re.groups m
    /\ forall w,
         rule_based_query q w
         = scan (r :: skipn (S i) query_patterns) (Str.strip q)
                (emit w (PrintTrying q)).
Proof.
  intros H. apply first_from_skip in H as (j & r & m & -> & N & F & G & K).
  exists r, m. simpl. repeat split; auto.
  intros w. unfold rule_based_query, bind, print.
  rewrite K. now rewrite (skipn_nth _ _ N).
Qed.

(** The template of the first rule that fires returns: so does
    [rule_based_query], with its query. *)
Lemma answered (q : string) (i : nat) (gs : list string) (w w' : world)
  (c : string) :
  first_match q = Some (i, gs) ->
  handler i gs (emit (emit w (PrintTrying q)) (PrintGroups gs)) = (w', Ok c) ->
  rule_based_query q w = (w', Ok (Some c)).
Proof.
  intros H T. apply fired in H as (r & m & N & F & -> & K).
  rewrite K. unfold handler in T. rewrite N in T.
  now apply scan_hit_ok with (m := m).
Qed.

(** It raises: the loop goes on with the rules after it. *)
Lemma passed_on (q : string) (i : nat) (gs : list string) (w w' : world)
  (e : exn) :
  first_match q = Some (i, gs) ->
  handler i gs (emit (emit w (PrintTrying q)) (PrintGroups gs))
  = (w', Raise e) ->
  rule_based_query q w
  = scan (skipn (S i) query_patterns) (Str.strip q)
         (emit w' (PrintErrorGenerating e)).
Proof.
  intros H T. apply fired in H as (r & m & N & F & -> & K).
  rewrite K. unfold handler in T. rewrite N in T.
  now apply scan_hit_raise with (m := m).
Qed.

(** The groups of the first rule that fires, rule by rule. *)
Lemma fired_groups (q : string) (i : nat) (gs : list string) :
  first_match q = Some (i, gs) ->
  match i with
  | 0 => exists name context,
           gs = [name; context] /\ Str.no_lf name = true
  | 1 => exists name rel year,
           gs = [name; rel; year] /\ Str.no_lf name = true
           /\ (rel = "before" \/ rel = "after" \/ rel = "during")
           /\ four_digit year
  | 2 => exists name year,
           gs = [name; year] /\ Str.no_lf name = true /\ four_digit year
  | 3 | 4 => exists year, gs = [year] /\ four_digit year
  | _ => i < 8
  end.
Proof.
  intros H. apply fired in H as (r & m & N & F & -> & _).
  destruct i as [|[|[|[|[|[|[|[|i]]]]]]]]; simpl in N;
    try (injection N as <-); try lia.
  - now apply race_engineer_groups in F.
  - now apply reverse_groups in F.
  - now apply team_groups in F.
  - now apply champion_groups in F.
  - now apply dominant_team_groups in F.
  - destruct i; discriminate N.
Qed.

(** The first five templates return a query on the groups of their
    rule. *)
Lemma absolute_templates_return (q : string) (i : nat) (gs : list string) :
  first_match q = Some (i, gs) -> i < 5 ->
  forall w, exists w' c, handler i gs w = (w', Ok c).
Proof.
  intros H Hi w. apply fired_groups in H.
  destruct i as [|[|[|[|[|i]]]]]; try lia; unfold handler; simpl.
  - destruct H as (name & context & -> & Hn).
    destruct (@race_engineer_query_reads name context w Hn) as (c & E & _).
    now exists w, c.
  - destruct H as (name & rel & year & -> & Hn & _ & Hd).
    destruct (@reverse_query_reads name rel year w Hn Hd) as (w' & c & E & _).
    now exists w', c.
  - destruct H as (name & year & -> & _). now do 2 eexists.
  - destruct H as (year & -> & _). now do 2 eexists.
  - destruct H as (year & -> & _). now do 2 eexists.
Qed.

(* ================================================================= *)
(** * The claims *)

(** ** Relative rules (C4, C5) *)

Lemma first_from_none (rs : list rule) (text : string) :
  forall k, first_from k rs text = None ->
            forall w, scan rs text w = (w, Ok None).
Proof.
  induction rs as [|r rs IH]; intros k; simpl; [reflexivity|].
  destruct (Re.search (pattern r) text); [discriminate|]. apply IH.
Qed.

(** C4, evaluated on the code: the question of the relative team shape
    "what team did Max Verstappen drive for after 2018?" fires the
    relative team rule with the groups "Max Verstappen" and "2018", and
    [rule_based_query] returns no query for it: the ascending, capped
    query that the template is written to build is never built. *)
Theorem team_after_2018_no_query :
  first_match "what team did Max Verstappen drive for after 2018?"
  = Some (5, ["Max Verstappen"; "2018"])
  /\ outcome
       (rule_based_query "what team did Max Verstappen drive for after 2018?")
       world0
     = Ok None.
Proof. split; vm_compute; reflexivity. Qed.

(** C5, as stated, fails: a question can match the relative team
    pattern and still get a rule-based query, from an earlier rule whose
    pattern it matches too. *)
Lemma relative_shape_can_get_a_query :
  option_map Re.groups
    (Re.search Pat.team_relative
       "who was a's race engineer in b? what team did c drive for after 2018?")
  = Some ["c"; "2018"]
  /\ first_match
       "who was a's race engineer in b? what team did c drive for after 2018?"
     = Some (0, ["a"; "b"])
  /\ exists c,
       outcome
         (rule_based_query
            "who was a's race engineer in b? what team did c drive for after 2018?")
         world0
       = Ok (Some c)
       /\ clauses c
          = [ "MATCH (driver:Entity {name: 'a'})-[r:RELATION]->(engineer:Entity)";
              "WHERE r.type CONTAINS 'engineer'";
              "RETURN engineer.name as answer, r.year as year";
              "ORDER BY r.year DESC";
              "LIMIT 1" ].
Proof.
  split; [vm_compute; reflexivity|]. split; [vm_compute; reflexivity|].
  eexists. split; vm_compute; reflexivity.
Qed.

(** C5, amended: whatever their arguments, [_team_relative_query],
    [_champion_relative_query] and [_dominant_team_relative_query] raise
    a [TypeError] when they unpack the single value that
    [_parse_temporal_context] returns, before any query is built; hence a
    question whose first matching rule is one of these three never gets a
    rule-based query, and a question that gets one has one of the five
    rules before them as its first matching rule. *)
Theorem relative_rules_give_no_query :
  (forall driver_name year_context w,
      exists e, _team_relative_query driver_name year_context w = (w, Raise e)
                /\ exn_cls e = TypeError)
  /\ (forall year_context w,
         exists e, _champion_relative_query year_context w = (w, Raise e)
                   /\ exn_cls e = TypeError)
  /\ (forall year_context w,
         exists e, _dominant_team_relative_query year_context w = (w, Raise e)
                   /\ exn_cls e = TypeError)
  /\ (forall q i gs w,
         first_match q = Some (i, gs) -> 5 <= i ->
         outcome (rule_based_query q) w = Ok None)
  /\ (forall q w c,
         outcome (rule_based_query q) w = Ok (Some c) ->
         exists i gs, first_match q = Some (i, gs) /\ i < 5).
Proof.
  assert (N : forall q i gs w,
             first_match q = Some (i, gs) -> 5 <= i ->
             outcome (rule_based_query q) w = Ok None).
  { intros q i gs w H Hi.
    pose proof (fired_groups _ H) as Hlt.
    apply fired in H as (r & m & N & _ & _ & K).
    rewrite <- (skipn_nth _ _ N) in K.
    assert (R : Forall (fun r => always_raises (template r))
                       (skipn i query_patterns)).
    { pose proof relative_rules_raise as R.
      destruct i as [|[|[|[|[|[|[|[|i]]]]]]]]; try lia; simpl in Hlt; try lia.
      - exact R.
      - now inversion R.
      - inversion R as [|? ? _ R1]. now inversion R1. }
    destruct (scan_raising (Str.strip q) R (emit w (PrintTrying q)))
      as (w' & S & _).
    unfold outcome. now rewrite K, S. }
  split; [exact team_relative_raises|].
  split; [exact champion_relative_raises|].
  split; [exact dominant_team_relative_raises|].
  split; [exact N|].
  intros q w c H.
  destruct (first_match q) as [[i gs]|] eqn:F.
  - exists i, gs. split; [reflexivity|].
    destruct (Nat.lt_ge_cases i 5) as [L|G]; [exact L|].
    rewrite (N q i gs w F G) in H. discriminate.
  - unfold outcome, rule_based_query, bind, print in H.
    rewrite (first_from_none _ _ _ F) in H. discriminate.
Qed.

Lemma relative_rules_give_no_query_witness :
  first_match "who won the championship before 2020?" = Some (6, ["2020"])
  /\ 5 <= 6
  /\ outcome (rule_based_query "who won the championship before 2020?") world0
     = Ok None.
Proof.
  split; [vm_compute; reflexivity|]. split; [lia|].
  apply (proj1 (proj2 (proj2 (proj2 relative_rules_give_no_query)))
           "who won the championship before 2020?" 6 ["2020"] world0).
  - vm_compute; reflexivity.
  - lia.
Defined.

(** ** The year of a context (C6) *)

(** C6, as stated, fails: the first four digits are taken as the year
    also when they lie outside 1950..2030. *)
Lemma year_out_of_range_is_taken :
  _parse_temporal_context "1234" = Ok (Some 1234%Z)
  /\ _parse_temporal_context "in 9999" = Ok (Some 9999%Z)
  /\ ~ (1950 <= 1234 <= 2030)%Z /\ ~ (1950 <= 9999 <= 2030)%Z.
Proof. repeat split; try (vm_compute; reflexivity); lia. Qed.

(** Where the year pattern is found: at the first place where four
    digits stand in a row. *)
Lemma year_match_here (s : string) :
  match Re.rmatch year_pattern s with
  | Some m => s = Re.group0 m ++ Re.rest m /\ four_digit (Re.group0 m)
  | None => forall d post, s = d ++ post -> ~ four_digit d
  end.
Proof.
  destruct (Re.rmatch year_pattern s) as [m|] eqn:E.
  - assert (S : Re.search year_pattern s = Some m).
    { destruct s; cbn [Re.search]; now rewrite E. }
    split; [|exact (year_match_digits _ S)].
    apply ReFacts.rmatch_in, ReFacts.pways_sound in E as [E _]. exact E.
  - intros d post -> Hd.
    destruct (four_digit_shape Hd) as (a & b & c & e & -> & Ha & Hb & Hc & He).
    unfold Re.rmatch in E. simpl in E. rewrite Ha in E. simpl in E.
    rewrite Hb in E. simpl in E. rewrite Hc in E. simpl in E.
    rewrite He in E. discriminate E.
Qed.

Lemma year_search_first (s : string) :
  match Re.search year_pattern s with
  | Some m =>
      exists pre,
        s = pre ++ Re.group0 m ++ Re.rest m /\ four_digit (Re.group0 m)
        /\ forall pre' d' post',
             s = pre' ++ d' ++ post' -> four_digit d' ->
             String.length pre <= String.length pre'
  | None => forall pre' d' post', s = pre' ++ d' ++ post' -> ~ four_digit d'
  end.
Proof.
  induction s as [|c s IH].
  - cbn. intros pre' d' post' E [L _].
    destruct pre'; [|discriminate E]. destruct d'; discriminate.
  - cbn [Re.search]. pose proof (year_match_here (String c s)) as H.
    destruct (Re.rmatch year_pattern (String c s)) as [m|].
    + destruct H as [E D]. exists "". split; [exact E|]. split; [exact D|].
      intros. cbn. lia.
    + destruct (Re.search year_pattern s) as [m|].
      * destruct IH as (pre & E & D & M). exists (String c pre).
        split; [cbn; now rewrite <- E|]. split; [exact D|].
        intros [|c' pre'] d' post' E' D'.
        -- now destruct (H d' post' E').
        -- cbn in E'. injection E' as _ E'. cbn.
           apply le_n_S. exact (M pre' d' post' E' D').
      * intros [|c' pre'] d' post' E'.
        -- exact (H d' post' E').
        -- cbn in E'. injection E' as _ E'. exact (IH pre' d' post' E').
Qed.

(** C6, amended: for every context the temporal resolver returns the
    value of the first four digits that stand in a row in it, whatever
    this value between 0 and 9999 (no range is checked), and no year
    when no four digits stand in a row. *)
Theorem first_four_digits_are_the_year (context : string) :
  exists r,
    _parse_temporal_context context = Ok r
    /\ match r with
       | Some y =>
           exists pre d post,
             context = pre ++ d ++ post /\ four_digit d
             /\ y = Str.digits_val 0 d /\ (0 <= y <= 9999)%Z
             /\ forall pre' d' post',
                  context = pre' ++ d' ++ post' -> four_digit d' ->
                  String.length pre <= String.length pre'
       | None =>
           forall pre' d' post',
             context = pre' ++ d' ++ post' -> ~ four_digit d'
       end.
Proof.
  unfold _parse_temporal_context, first_year.
  pose proof (year_search_first context) as H.
  destruct (Re.search year_pattern context) as [m|].
  - destruct H as (pre & E & D & M).
    destruct (int_four_digit D) as [-> R].
    eexists. split; [reflexivity|].
    now exists pre, (Re.group0 m), (Re.rest m).
  - now exists None.
Qed.

(** ** Absolute years (C7, C10) *)




(** C10, as stated, fails: a question can match the reverse
    race-engineer pattern with "during" and still get the query of the
    first rule, whose pattern it matches too: no condition on the year,
    an ordering and a limit. *)
Lemma during_question_can_be_ranked :
  option_map Re.groups
    (Re.search Pat.race_engineer_reverse_relative
       "who was a's race engineer for b? who was c race engineer for during 2017?")
  = Some ["a's race engineer for b? who was c"; "during"; "2017"]
  /\ first_match
       "who was a's race engineer for b? who was c race engineer for during 2017?"
     = Some (0, ["a"; "b"])
  /\ exists c,
       outcome
         (rule_based_query
            "who was a's race engineer for b? who was c race engineer for during 2017?")
         world0
       = Ok (Some c)
       /\ clauses c
          = [ "MATCH (driver:Entity {name: 'a'})-[r:RELATION]->(engineer:Entity)";
              "WHERE r.type CONTAINS 'engineer'";
              "RETURN engineer.name as answer, r.year as year";
              "ORDER BY r.year DESC";
              "LIMIT 1" ].
Proof.
  split; [vm_compute; reflexivity|]. split; [vm_compute; reflexivity|].
  eexists. split; vm_compute; reflexivity.
Qed.

(** The reverse template on "during": its arguments are printed, no
    filter is, and the query is the template with the name and the year
    as they were captured. *)
Lemma reverse_during_reads (engineer_name year : string) (w : world) :
  Str.no_lf engineer_name = true -> four_digit year ->
  exists c,
    _race_engineer_reverse_relative_query engineer_name "during" year w
    = (emit w (PrintArgs engineer_name "during" year), Ok c)
    /\ clauses c
       = [ "MATCH (engineer:Entity {name: '" ++ engineer_name
             ++ "'})-[r:RELATION]->(driver:Entity)";
           "WHERE r.type CONTAINS 'engineer' AND r.year = " ++ year;
           "RETURN driver.name as answer, r.year as year" ].
Proof.
  intros Hn Hd. pose proof (four_digit_no_lf Hd) as Hy.
  eexists. split; [reflexivity|].
  now rewrite clauses_block by clause_lines.
Qed.

(** C10, amended: for every temporal relation other than "before" and
    "after" ("during" among them) [_build_temporal_filter] gives the
    equality filter [r.year = <year>].  A question whose first matching
    rule is the reverse race-engineer rule with the keyword "during" does
    not get there: the template prints its arguments and writes the
    equality filter itself, on the four digits as they were captured.
    The query is made of the three lines of the template, with the name
    as it was captured: a match, the condition with the equality filter,
    and the values returned; the template writes no ordering and no
    limit. *)
Theorem during_means_equality :
  (forall year temporal_relation,
      temporal_relation <> "before" -> temporal_relation <> "after" ->
      _build_temporal_filter year temporal_relation
      = "r.year = " ++ Str.str_int year)
  /\ (forall q name year w,
         first_match q = Some (1, [name; "during"; year]) ->
         exists c,
           rule_based_query q w
           = (World (stdout w ++ [ PrintTrying q;
                                   PrintGroups [name; "during"; year];
                                   PrintArgs name "during" year ])
                    (store_calls w) (model_calls w),
              Ok (Some c))
           /\ four_digit year
           /\ clauses c
              = [ "MATCH (engineer:Entity {name: '" ++ name
                    ++ "'})-[r:RELATION]->(driver:Entity)";
                  "WHERE r.type CONTAINS 'engineer' AND r.year = " ++ year;
                  "RETURN driver.name as answer, r.year as year" ]
           /\ year_filter "=" year c = true
           /\ ordered c = false /\ limited c = false).
Proof.
  split.
  - intros year rel Hb Ha. unfold _build_temporal_filter.
    apply String.eqb_neq in Hb, Ha. now rewrite Hb, Ha.
  - intros q name year w H. pose proof (fired_groups _ H) as G.
    destruct G as (name' & rel' & year' & [= <- <- <-] & Hn & _ & Hd).
    destruct (@reverse_during_reads name year
                (emit (emit w (PrintTrying q))
                      (PrintGroups [name; "during"; year]))
                Hn Hd) as (c & E & C).
    exists c. rewrite (@answered _ _ _ _ _ _ H E).
    split.
    { unfold emit. cbn [stdout store_calls model_calls].
      now rewrite <- !app_assoc. }
    split; [exact Hd|]. split; [exact C|].
    unfold year_filter, ordered, limited. rewrite C.
    split; [|split; reflexivity].
    has_clause ("WHERE r.type CONTAINS 'engineer' AND r.year = " ++ year).
    apply (StrFacts.ends_with_app "WHERE r.type CONTAINS 'engineer' AND ").
Qed.

Lemma during_means_equality_witness :
  first_match "who was Peter Bonnington race engineer for during 0017?"
  = Some (1, ["Peter Bonnington"; "during"; "0017"])
  /\ _build_temporal_filter 17 "during" = "r.year = 17"
  /\ exists c,
       outcome
         (rule_based_query
            "who was Peter Bonnington race engineer for during 0017?") world0
       = Ok (Some c)
       /\ clauses c
          = [ "MATCH (engineer:Entity {name: 'Peter Bonnington'})-[r:RELATION]->(driver:Entity)";
              "WHERE r.type CONTAINS 'engineer' AND r.year = 0017";
              "RETURN driver.name as answer, r.year as year" ]
       /\ ordered c = false /\ limited c = false.
Proof.
  split; [vm_compute; reflexivity|]. split.
  - apply (proj1 during_means_equality 17%Z "during"); discriminate.
  - destruct (proj2 during_means_equality
                "who was Peter Bonnington race engineer for during 0017?"
                "Peter Bonnington" "0017" world0)
      as (c & E & _ & C & _ & O & L).
    + vm_compute; reflexivity.
    + exists c. unfold outcome. rewrite E. now repeat split.
Defined.

(** ** The formatter (C8) *)

Lemma format_loop_items (rs : list row) :
  forall ts answers,
    Forall2 (fun r t => format_item r = Ok t) rs ts ->
    format_loop rs answers = Ok (answers ++ ts)%list.
Proof.
  induction rs as [|r rs IH]; intros ts answers H; inversion H; subst; simpl.
  - now rewrite app_nil_r.
  - match goal with E : format_item r = _ |- _ => rewrite E end.
    rewrite (IH l'); [|assumption]. now rewrite <- app_assoc.
Qed.

(** C8, as stated, fails: with several rows a year is shown as "(2017)",
    not as "(in 2017)" as for a single row. *)
Lemma several_rows_show_no_in :
  _format_answer two_engineers "who?"
  = Ok "Peter Bonnington (2017); Marc Hynes (2012)"
  /\ _format_answer two_engineers "who?"
     <> Ok "Peter Bonnington (in 2017); Marc Hynes (in 2012)"
  /\ _format_answer (firstn 1 two_engineers) "who?"
     = Ok "Peter Bonnington (in 2017)".
Proof. repeat split; try (vm_compute; reflexivity). vm_compute. discriminate. Qed.

(** C8, amended: for every result set with more than one row, the
    formatter renders each of the first 5 rows and joins the texts with
    "; "; a row is rendered by the one-row rule, except that a row with
    an answer and a true year is rendered as "<answer> (<year>)", without
    "in". *)
Theorem several_rows_are_joined :
  (forall rows q ts,
      1 < List.length rows ->
      Forall2 (fun r t => format_item r = Ok t) (firstn 5 rows) ts ->
      _format_answer rows q = Ok (Str.join "; " ts))
  /\ (forall r a y,
         lookup "answer" r = Some a -> lookup "year" r = Some y ->
         truthy y = true ->
         format_item r = Ok (str a ++ " (" ++ str y ++ ")")
         /\ format_single r = Ok (str a ++ " (in " ++ str y ++ ")"))
  /\ (forall r,
         lookup "answer" r = None \/ truthy (get "year" (VStr "") r) = false ->
         format_item r = format_single r).
Proof.
  split; [|split].
  - intros rows q ts Hlen H.
    destruct rows as [|r1 [|r2 rows]]; simpl in Hlen; try lia.
    unfold _format_answer.
    now rewrite (@format_loop_items _ ts [] H).
  - intros r a y Ha Hy Ht. unfold format_item, format_single, get.
    now rewrite Ha, Hy, Ht.
  - intros r [Ha|Hy]; unfold format_item, format_single.
    + now rewrite Ha.
    + destruct (lookup "answer" r); [now rewrite Hy | reflexivity].
Qed.

Lemma several_rows_are_joined_witness :
  1 < List.length two_engineers
  /\ Forall2 (fun r t => format_item r = Ok t) (firstn 5 two_engineers)
             ["Peter Bonnington (2017)"; "Marc Hynes (2012)"]
  /\ _format_answer two_engineers "who?"
     = Ok (Str.join "; " ["Peter Bonnington (2017)"; "Marc Hynes (2012)"]).
Proof.
  assert (F : Forall2 (fun r t => format_item r = Ok t)
                (firstn 5 two_engineers)
                ["Peter Bonnington (2017)"; "Marc Hynes (2012)"])
    by (repeat constructor).
  split; [simpl; lia|]. split; [exact F|].
  apply (proj1 several_rows_are_joined two_engineers "who?"
           ["Peter Bonnington (2017)"; "Marc Hynes (2012)"]).
  - simpl; lia.
  - exact F.
Defined.

(** ** The executor (C9) *)

(** C9: for every query and every behaviour of the store,
    [execute_query] returns: the rows of the store, or no rows when the
    store raises (and the failure is printed); it never raises. *)
Theorem execute_query_never_raises (e : env) (c : string) (w : world) :
  exists rows,
    outcome (execute_query e c) w = Ok rows
    /\ match driver e (store_calls w) c with
       | Ok rs => rows = rs /\ printed (execute_query e c) w = stdout w
       | Raise ex =>
           rows = []
           /\ printed (execute_query e c) w
              = (stdout w ++ [PrintExecError ex])%list
       end.
Proof.
  unfold outcome, printed, execute_query, try_except, session_run.
  destruct (driver e (store_calls w) c) as [rs|ex]; simpl; eauto.
Qed.

(** ** Rules that raise, and the order of the rules (C2, C3) *)

Lemma first_from_earlier (rs : list rule) (text : string) :
  forall k i gs,
    first_from k rs text = Some (i, gs) ->
    forall j r, k + j < i -> nth_error rs j = Some r ->
                Re.search (pattern r) text = None.
Proof.
  induction rs as [|r0 rs IH]; intros k i gs; simpl; [discriminate|].
  destruct (Re.search (pattern r0) text) as [m|] eqn:E.
  - intros [= <- <-] j r Hj. lia.
  - intros H [|j] r Hj; simpl.
    + now intros [= <-].
    + apply (IH _ _ _ H). lia.
Qed.

(** A query of the loop is the query of a template. *)
Lemma scan_some (rs : list rule) (text : string) :
  forall w w' c,
    scan rs text w = (w', Ok (Some c)) ->
    exists r gs w1 w2, In r rs /\ template r gs w1 = (w2, Ok c).
Proof.
  induction rs as [|r rs IH]; intros w w' c; simpl; [discriminate|].
  destruct (Re.search (pattern r) text) as [m|].
  - unfold try_except, bind, print, ret.
    destruct (template r (Re.groups m) _) as [w1 [c1|e]] eqn:T.
    + intros [= <- <-]. exists r, (Re.groups m). do 2 eexists.
      split; [now left | exact T].
    + intros H. apply IH in H as (r' & gs & w1' & w2 & I & T').
      exists r', gs, w1', w2. split; [now right | exact T'].
  - intros H. apply IH in H as (r' & gs & w1' & w2 & I & T').
    exists r', gs, w1', w2. split; [now right | exact T'].
Qed.

Lemma block_not_empty (indent : nat) (ls : list string) : block indent ls <> "".
Proof. destruct ls; discriminate. Qed.

Ltac returned_block :=
  repeat match goal with
  | |- context [match ?x with _ => _ end] => destruct x
  end;
  try discriminate;
  intros [= <- <-]; first [apply block_not_empty | discriminate].

(** No template returns the empty text. *)
Lemma template_not_empty (r : rule) :
  In r query_patterns ->
  forall gs w1 w2 c, template r gs w1 = (w2, Ok c) -> c <> "".
Proof.
  intros I gs w1 w2 c.
  pose proof relative_rules_raise as R.
  repeat (destruct I as [<-|I]); [| | | | | | | |destruct I]; simpl.
  - destruct gs as [|a [|b [|x gs]]]; try discriminate.
    unfold call2, _race_engineer_query, bind, lift, ret. returned_block.
  - destruct gs as [|a [|b [|x [|y gs]]]]; try discriminate.
    unfold call3, _race_engineer_reverse_relative_query, bind, lift, ret,
      print.
    returned_block.
  - destruct gs as [|a [|b [|x gs]]]; try discriminate.
    unfold call2, _team_query, ret. returned_block.
  - destruct gs as [|a [|b gs]]; try discriminate.
    unfold call1, _champion_query, ret. returned_block.
  - destruct gs as [|a [|b gs]]; try discriminate.
    unfold call1, _dominant_team_query, ret. returned_block.
  - inversion R as [|? ? R0 _]. destruct (R0 gs w1) as (e & E & _).
    simpl in E. rewrite E. discriminate.
  - inversion R as [|? ? _ R1]. inversion R1 as [|? ? R0 _].
    destruct (R0 gs w1) as (e & E & _). simpl in E. rewrite E. discriminate.
  - inversion R as [|? ? _ R1]. inversion R1 as [|? ? _ R2].
    inversion R2 as [|? ? R0 _].
    destruct (R0 gs w1) as (e & E & _). simpl in E. rewrite E. discriminate.
Qed.

(** C2, as stated, fails: after the template of the first rule that
    fires has raised, a later rule whose pattern is found is called too
    (here the relative champion rule, with the group "2019"). *)
Lemma later_rule_is_called :
  first_match
    "what team did Max Verstappen drive for after 2018? who won championship after 2019?"
  = Some (5, ["Max Verstappen"; "2018"])
  /\ (exists e, outcome (handler 5 ["Max Verstappen"; "2018"]) world0 = Raise e)
  /\ calls
       (printed
          (rule_based_query
             "what team did Max Verstappen drive for after 2018? who won championship after 2019?")
          world0)
     = [["Max Verstappen"; "2018"]; ["2019"]].
Proof.
  split; [vm_compute; reflexivity|]. split; [|vm_compute; reflexivity].
  eexists. vm_compute. reflexivity.
Qed.

(** C2, amended: for every question, if the template of the first rule
    whose pattern matches raises, the loop goes on with the later rules,
    and every later rule whose pattern matches is called in turn; with
    the registered rules the overall result is still "no rule-based
    match", because the templates that raise are those of the last three
    rules and each of them raises.  A template that returns, returns a
    text that is not empty. *)
Theorem raising_rule_is_passed_over :
  (forall q i gs w,
      first_match q = Some (i, gs) ->
      (exists e, outcome (handler i gs) w = Raise e) ->
      outcome (rule_based_query q) w = Ok None
      /\ calls (printed (rule_based_query q) w)
         = (calls (stdout w)
            ++ map (groups_in (Str.strip q))
                   (firing_from i (Str.strip q)))%list)
  /\ (forall q w c,
         outcome (rule_based_query q) w = Ok (Some c) -> c <> "").
Proof.
  split.
  - intros q i gs w H [e He].
    destruct (Nat.lt_ge_cases i 5) as [Hi|Hi].
    { destruct (absolute_templates_return _ H Hi w) as (w' & c & E).
      unfold outcome in He. rewrite E in He. discriminate He. }
    pose proof (fired_groups _ H) as Hlt.
    apply fired in H as (r & m & N & _ & _ & K).
    rewrite <- (skipn_nth _ _ N) in K.
    assert (R : Forall (fun r => always_raises (template r))
                       (skipn i query_patterns)).
    { pose proof relative_rules_raise as R.
      destruct i as [|[|[|[|[|[|[|[|i]]]]]]]]; try lia; simpl in Hlt; try lia.
      - exact R.
      - now inversion R.
      - inversion R as [|? ? _ R1]. now inversion R1. }
    destruct (scan_raising (Str.strip q) R (emit w (PrintTrying q)))
      as (w' & S & C).
    unfold outcome, printed. rewrite K, S. split; [reflexivity|].
    simpl fst. rewrite C. unfold firing_from. simpl stdout.
    rewrite calls_app. simpl. now rewrite app_nil_r.
  - intros q w c. unfold outcome, rule_based_query, bind, print.
    destruct (scan query_patterns (Str.strip q) (emit w (PrintTrying q)))
      as [w' r] eqn:S.
    simpl. intros ->.
    apply scan_some in S as (r & gs & w1 & w2 & I & T).
    exact (@template_not_empty r I gs w1 w2 c T).
Qed.

Lemma raising_rule_is_passed_over_witness :
  first_match "which team dominated the season after 2015?"
  = Some (7, ["2015"])
  /\ (exists e, outcome (handler 7 ["2015"]) world0 = Raise e)
  /\ outcome (rule_based_query "which team dominated the season after 2015?")
             world0
     = Ok None.
Proof.
  assert (F : first_match "which team dominated the season after 2015?"
              = Some (7, ["2015"])) by (vm_compute; reflexivity).
  assert (E : exists e, outcome (handler 7 ["2015"]) world0 = Raise e)
    by (eexists; vm_compute; reflexivity).
  split; [exact F|]. split; [exact E|].
  exact (proj1 (proj1 raising_rule_is_passed_over
                  "which team dominated the season after 2015?" 7 ["2015"]
                  world0 F E)).
Defined.

(** C3, evaluated on the code: the patterns are matched with the case
    of the letters as it is.  The question "Who won the championship in
    2017?", written as the test questions of [demo_queries] are, differs
    from the champion pattern in the case of its first letter: it fires
    no rule and gets no rule-based query, whereas the same question in
    lower case fires the champion rule. *)
Theorem capital_letter_fires_no_rule :
  first_match "Who won the championship in 2017?" = None
  /\ outcome (rule_based_query "Who won the championship in 2017?") world0
     = Ok None
  /\ first_match "who won the championship in 2017?" = Some (3, ["2017"]).
Proof. repeat split; vm_compute; reflexivity. Qed.

(** X27: for every question, the rules are scanned in the order of
    registration and a rule fires when its pattern matches somewhere in
    the trimmed text, with the case of the letters as it is (the text
    holds the literal lower-case start of the pattern); the groups of the
    first rule that fires are passed in order to its template, whose
    query is the result; when no rule fires there is no query. *)
Theorem first_firing_rule_answers :
  (forall q i gs,
      first_match q = Some (i, gs) ->
      exists r m pre suf,
        nth_error query_patterns i = Some r
        /\ Str.strip q = pre ++ suf
        /\ Re.rmatch (pattern r) suf = Some m
        /\ gs = Re.groups m
        /\ (exists post, suf = ReSpec.lead_text (pattern r) ++ post)
        /\ forall j r', j < i -> nth_error query_patterns j = Some r' ->
                        Re.search (pattern r') (Str.strip q) = None)
  /\ (forall q i gs w w' c,
         first_match q = Some (i, gs) ->
         handler i gs (emit (emit w (PrintTrying q)) (PrintGroups gs))
         = (w', Ok c) ->
         rule_based_query q w = (w', Ok (Some c)))
  /\ (forall q w,
         first_match q = None -> outcome (rule_based_query q) w = Ok None).
Proof.
  split; [|split].
  - intros q i gs H.
    pose proof (first_from_earlier _ _ _ H) as Early.
    apply fired in H as (r & m & N & F & -> & _).
    apply ReFacts.search_sound in F as (pre & suf & E & F).
    exists r, m, pre, suf. repeat split; auto.
    apply ReFacts.rmatch_in in F.
    destruct (pattern r) as [|[r1|r1] p]; simpl; try (now exists suf).
    simpl in F. apply in_flat_map in F as (w1 & H1 & _).
    now apply ReFacts.ways_lead in H1.
  - intros q i gs w w' c. apply answered.
  - intros q w H. unfold outcome, rule_based_query, bind, print.
    now rewrite (first_from_none _ _ _ H).
Qed.

Lemma first_firing_rule_answers_witness :
  first_match "  who won the championship in 2017?" = Some (3, ["2017"])
  /\ exists c,
       rule_based_query "  who won the championship in 2017?" world0
       = (emit (emit world0 (PrintTrying "  who won the championship in 2017?"))
               (PrintGroups ["2017"]),
          Ok (Some c)).
Proof.
  split; [vm_compute; reflexivity|].
  eexists.
  apply (proj1 (proj2 first_firing_rule_answers)
           "  who won the championship in 2017?" 3 ["2017"] world0).
  - vm_compute; reflexivity.
  - reflexivity.
Defined.

(** ** The answer operation (C1) *)

Lemma rule_based_query_total (q : string) (w : world) :
  exists w' c, rule_based_query q w = (w', Ok c).
Proof. unfold rule_based_query, bind, print. apply scan_total. Qed.

Lemma llm_based_query_total (e : env) (q : string) (w : world) :
  schema_lookup_ok e -> exists w' c, llm_based_query e q w = (w', Ok c).
Proof.
  intros Hs. unfold llm_based_query.
  destruct (openai_client e) as [client|]; [|now exists w, None].
  unfold bind at 1. destruct (Hs w) as (w1 & v & ->).
  unfold try_except, bind, chat_create, lift, print, ret.
  destruct (client (model_calls w1) q) as [choices|ex]; [|eauto].
  destruct (first_content choices) as [content|ex]; eauto.
Qed.

Lemma execute_query_total (e : env) (c : string) (w : world) :
  exists w' rows,
    execute_query e c w = (w', Ok rows)
    /\ (rows = [] \/ driver e (store_calls w) c = Ok rows).
Proof.
  unfold execute_query, try_except, session_run, bind, print, ret.
  destruct (driver e (store_calls w) c) as [rs|ex]; eauto.
Qed.

Lemma format_item_total (r : row) :
  r <> [] -> exists t, format_item r = Ok t.
Proof.
  intros Hr. unfold format_item.
  destruct (lookup "answer" r).
  - destruct (truthy _); eauto.
  - destruct r as [|[k v] r]; [now destruct Hr | simpl; eauto].
Qed.

Lemma format_single_total (r : row) :
  r <> [] -> exists t, format_single r = Ok t.
Proof.
  intros Hr. unfold format_single.
  destruct (lookup "answer" r).
  - destruct (truthy _); eauto.
  - destruct r as [|[k v] r]; [now destruct Hr | simpl; eauto].
Qed.

Lemma format_loop_total (rs : list row) :
  Forall (fun r : row => r <> []) rs ->
  forall answers, exists ts, format_loop rs answers = Ok ts.
Proof.
  induction 1 as [|r rs Hr _ IH]; intros answers; simpl; [eauto|].
  destruct (format_item_total Hr) as [t ->]. apply IH.
Qed.

Lemma Forall_firstn (A : Type) (P : A -> Prop) (n : nat) (l : list A) :
  Forall P l -> Forall P (firstn n l).
Proof.
  revert l. induction n as [|n IH]; intros l H; simpl; [constructor|].
  destruct H; constructor; auto.
Qed.

Lemma format_answer_total (rows : list row) (q : string) :
  Forall (fun r : row => r <> []) rows ->
  exists t, _format_answer rows q = Ok t /\ (rows = [] -> t = not_found).
Proof.
  intros H. unfold _format_answer.
  destruct rows as [|r1 [|r2 rows]].
  - now exists not_found.
  - inversion H as [|? ? Hr _]; subst.
    destruct (format_single_total Hr) as [t ->]. exists t.
    split; [reflexivity | discriminate].
  - destruct (format_loop_total (Forall_firstn 5 H) []) as [ts ->].
    eexists. split; [reflexivity | discriminate].
Qed.

(** A record without columns makes the formatter raise. *)
Lemma format_answer_needs_a_column :
  outcome
    (answer_question store_bare "who won the championship in 2017?" false)
    world0
  = Raise (Exn IndexError "list index out of range").
Proof. vm_compute; reflexivity. Qed.

(** C1, evaluated on the code: with a model client and a store that
    cannot be reached, a question that no rule matches makes
    [answer_question] raise.  The failure comes from the one query of
    [_get_schema_info], which [llm_based_query] calls before its [try]:
    nothing is sent to the model and no dictionary is returned, whereas
    [execute_query] turns the same failure of the store into no rows. *)
Theorem answer_question_can_raise :
  first_match "hello" = None
  /\ answer_question store_down "hello" true world0
     = (World [PrintQuestion "hello"; PrintTrying "hello"]
              [rel_types_query] [],
        Raise (Exn ServiceError "Couldn't connect to localhost:7687"))
  /\ outcome (execute_query store_down rel_types_query) world0 = Ok [].
Proof. repeat split; vm_compute; reflexivity. Qed.

(** X28: [answer_question] returns a dictionary whenever the schema
    lookup of the fallback succeeds and every record of the store has a
    column, whatever the question and the model client.  With no query
    the approach is "none" and the text is the apology for a question
    not understood; with a query and no rows the text is the apology for
    an answer not found. *)
Theorem answer_question_returns (e : env) (q : string) (use_llm : bool)
  (w : world) :
  schema_lookup_ok e -> rows_have_columns e ->
  exists w' d,
    answer_question e q use_llm w = (w', Ok d)
    /\ (cypher d = None ->
        approach d = "none" /\ answer d = not_understood
        /\ results d = [])
    /\ (cypher d <> None -> results d = [] -> answer d = not_found).
Proof.
  intros Hs Hr. unfold answer_question.
  unfold bind at 1. unfold print at 1.
  unfold bind at 1.
  destruct (rule_based_query_total q (emit w (PrintQuestion q)))
    as (w1 & c1 & ->).
  assert (Q : exists w2 c a,
             (if falsy c1 && use_llm
              then (c' <- llm_based_query e q ;; ret (c', "llm-based"))
              else ret (c1, "rule-based")) w1 = (w2, Ok (c, a))).
  { destruct (falsy c1 && use_llm).
    - unfold bind, ret.
      destruct (llm_based_query_total q w1 Hs) as (w2 & c & ->). eauto.
    - unfold ret. eauto. }
  destruct Q as (w2 & c & a & Q). unfold bind at 1. rewrite Q.
  cbn [fst snd].
  destruct (falsy c) eqn:Fc.
  { unfold ret. do 2 eexists. split; [reflexivity|]. simpl.
    split; [auto | intros H; now destruct H]. }
  unfold bind, print, lift, ret.
  destruct (execute_query_total e (the_str c)
              (emit w2 (PrintGenerated a (the_str c))))
    as (w3 & rows & -> & Rows).
  assert (F : Forall (fun r : row => r <> []) rows).
  { destruct Rows as [->|Rows]; [constructor | exact (Hr _ _ _ Rows)]. }
  destruct (format_answer_total q F) as (t & -> & T).
  do 2 eexists. split; [reflexivity|]. simpl. split.
  + intros ->. discriminate Fc.
  + intros _. exact T.
Qed.

Lemma answer_question_returns_witness :
  schema_lookup_ok store_with_rows /\ rows_have_columns store_with_rows
  /\ first_match "hello" = None
  /\ exists w' d,
       answer_question store_with_rows "hello" true world0 = (w', Ok d)
       /\ store_calls w'
          = [ rel_types_query; entities_query;
              "MATCH (n:Entity) RETURN n.name as answer" ]
       /\ (cypher d = None ->
           approach d = "none" /\ answer d = not_understood
           /\ results d = [])
       /\ (cypher d <> None -> results d = [] -> answer d = not_found).
Proof.
  assert (S : schema_lookup_ok store_with_rows)
    by (intros w; do 2 eexists; reflexivity).
  assert (R : rows_have_columns store_with_rows)
    by (intros h c rs [= <-]; repeat constructor; discriminate).
  split; [exact S|]. split; [exact R|]. split; [reflexivity|].
  destruct (@answer_question_returns store_with_rows "hello" true world0 S R)
    as (w' & d & E & N & F).
  exists w', d. split; [exact E|]. split; [|now split].
  vm_compute in E. now injection E as <- _.
Defined.

(* ================================================================= *)
(** * Further properties of the converter *)

(** ** What rule matching does to the world *)

(** A computation that only prints: the same events and the same result
    in every world; nothing is sent to the store or to the model. *)
Lemma only_prints_ret (A : Type) (a : A) :
  exists evs res, forall w,
    ret a w = (World (stdout w ++ evs) (store_calls w) (model_calls w), res).
Proof.
  exists [], (Ok a). intros [o s m]. unfold ret. simpl.
  now rewrite app_nil_r.
Qed.

Lemma only_prints_raise (A : Type) (e : exn) :
  exists evs res, forall w,
    raise (A:=A) e w
    = (World (stdout w ++ evs) (store_calls w) (model_calls w), res).
Proof.
  exists [], (Raise e). intros [o s m]. unfold raise. simpl.
  now rewrite app_nil_r.
Qed.

Lemma only_prints_lift_bind (A B : Type) (r : result A) (k : A -> M B) :
  (forall a, exists evs res, forall w,
      k a w = (World (stdout w ++ evs) (store_calls w) (model_calls w), res)) ->
  exists evs res, forall w,
    (x <- lift r ;; k x) w
    = (World (stdout w ++ evs) (store_calls w) (model_calls w), res).
Proof.
  intros Hk. unfold bind, lift. destruct r as [a|e].
  - apply Hk.
  - exists [], (Raise e). intros [o s m]. simpl. now rewrite app_nil_r.
Qed.

Lemma only_prints_print_bind (B : Type) (ev : event) (k : M B) :
  (exists evs res, forall w,
      k w = (World (stdout w ++ evs) (store_calls w) (model_calls w), res)) ->
  exists evs res, forall w,
    (print ev ;;; k) w
    = (World (stdout w ++ evs) (store_calls w) (model_calls w), res).
Proof.
  intros (evs & res & Hk). exists (ev :: evs), res. intros w.
  unfold bind, print. rewrite Hk. unfold emit. simpl.
  now rewrite <- app_assoc.
Qed.

Ltac only_prints :=
  repeat first
    [ apply only_prints_ret
    | apply only_prints_raise
    | apply only_prints_print_bind
    | apply only_prints_lift_bind; intros ?
    | match goal with
      | |- context [if ?b then _ else _] => destruct b
      end ].

Lemma templates_only_print (r : rule) :
  In r query_patterns ->
  forall gs, exists evs res, forall w,
    template r gs w
    = (World (stdout w ++ evs) (store_calls w) (model_calls w), res).
Proof.
  intros I gs.
  repeat (destruct I as [<-|I]); [| | | | | | | |destruct I]; simpl.
  - destruct gs as [|a [|b [|x gs]]]; try apply only_prints_raise.
    unfold call2, _race_engineer_query. only_prints.
  - destruct gs as [|a [|b [|x [|y gs]]]]; try apply only_prints_raise.
    unfold call3, _race_engineer_reverse_relative_query. only_prints.
  - destruct gs as [|a [|b [|x gs]]]; try apply only_prints_raise.
    unfold call2, _team_query. only_prints.
  - destruct gs as [|a [|b gs]]; try apply only_prints_raise.
    unfold call1, _champion_query. only_prints.
  - destruct gs as [|a [|b gs]]; try apply only_prints_raise.
    unfold call1, _dominant_team_query. only_prints.
  - destruct gs as [|a [|b [|x gs]]]; try apply only_prints_raise.
    unfold call2, _team_relative_query. only_prints.
  - destruct gs as [|a [|b gs]]; try apply only_prints_raise.
    unfold call1, _champion_relative_query. only_prints.
  - destruct gs as [|a [|b gs]]; try apply only_prints_raise.
    unfold call1, _dominant_team_relative_query. only_prints.
Qed.

Lemma scan_only_prints (rs : list rule) (text : string) :
  Forall (fun r => forall gs, exists evs res, forall w,
              template r gs w
              = (World (stdout w ++ evs) (store_calls w) (model_calls w), res))
         rs ->
  exists evs res, forall w,
    scan rs text w
    = (World (stdout w ++ evs) (store_calls w) (model_calls w), res).
Proof.
  induction 1 as [|r rs Hr _ IH]; simpl.
  - apply only_prints_ret.
  - destruct (Re.search (pattern r) text) as [m|]; [|exact IH].
    destruct (Hr (Re.groups m)) as (evs & res & T).
    destruct IH as (evs' & res' & S).
    destruct res as [c|e].
    + exists (PrintGroups (Re.groups m) :: evs), (Ok (Some c)). intros w.
      unfold try_except, bind, print, ret. rewrite T. unfold emit. simpl.
      now rewrite <- app_assoc.
    + exists (PrintGroups (Re.groups m) :: evs
              ++ PrintErrorGenerating e :: evs')%list, res'.
      intros w. unfold try_except, bind, print, ret. rewrite T, S.
      unfold emit. simpl. now rewrite <- !app_assoc.
Qed.

Lemma rule_based_query_only_prints (q : string) :
  exists evs res, forall w,
    rule_based_query q w
    = (World (stdout w ++ PrintTrying q :: evs)
             (store_calls w) (model_calls w), res).
Proof.
  destruct (@scan_only_prints query_patterns (Str.strip q)) as (evs & res & S).
  { apply Forall_forall. intros r I. now apply templates_only_print. }
  exists evs, res. intros w. unfold rule_based_query, bind, print.
  rewrite S. unfold emit. simpl. now rewrite <- app_assoc.
Qed.

(** ** [strip] applied twice *)

Lemma lstrip_head (s : string) :
  match Str.lstrip s with
  | "" => True
  | String c _ => Str.isspace c = false
  end.
Proof.
  induction s as [|c s IH]; simpl; [exact I|].
  destruct (Str.isspace c) eqn:E; [exact IH | exact E].
Qed.

Lemma rstrip_idem (s : string) : Str.rstrip (Str.rstrip s) = Str.rstrip s.
Proof.
  induction s as [|c s IH]; simpl; [reflexivity|].
  destruct (String.eqb (Str.rstrip s) "" && Str.isspace c) eqn:E;
    [reflexivity|].
  simpl. now rewrite IH, E.
Qed.

Lemma strip_idem (s : string) : Str.strip (Str.strip s) = Str.strip s.
Proof.
  unfold Str.strip. pose proof (lstrip_head s) as H.
  destruct (Str.lstrip s) as [|c t]; [reflexivity|].
  cbn [Str.rstrip]. rewrite H, andb_false_r.
  cbn [Str.lstrip]. rewrite H.
  cbn [Str.rstrip]. rewrite H, andb_false_r. now rewrite rstrip_idem.
Qed.

(** ** The question alone decides the rule-based query *)

Lemma query_not_empty (q : string) (w w' : world) (c : string) :
  rule_based_query q w = (w', Ok (Some c)) -> c <> "".
Proof.
  unfold rule_based_query, bind, print. intros S.
  apply scan_some in S as (r & gs & w1 & w2 & I & T).
  exact (@template_not_empty r I gs w1 w2 c T).
Qed.

(** No rule fires, or the first that fires is a relative one: no query. *)
Lemma no_rule_query (q : string) :
  first_match q = None
  \/ (exists i gs, first_match q = Some (i, gs) /\ 5 <= i) ->
  forall w, outcome (rule_based_query q) w = Ok None.
Proof.
  intros [H|(i & gs & H & Hi)] w.
  - unfold outcome, rule_based_query, bind, print.
    now rewrite (first_from_none _ _ _ H).
  - pose proof (fired_groups _ H) as Hlt.
    apply fired in H as (r & m & N & _ & _ & K).
    rewrite <- (skipn_nth _ _ N) in K.
    assert (R : Forall (fun r => always_raises (template r))
                       (skipn i query_patterns)).
    { pose proof relative_rules_raise as R.
      destruct i as [|[|[|[|[|[|[|[|i]]]]]]]]; try lia; simpl in Hlt; try lia.
      - exact R.
      - now inversion R.
      - inversion R as [|? ? _ R1]. now inversion R1. }
    destruct (scan_raising (Str.strip q) R (emit w (PrintTrying q)))
      as (w' & S & _).
    unfold outcome. now rewrite K, S.
Qed.

(** X1: rule matching is offline: for every question there are printed
    events and a result such that, in every world, [rule_based_query]
    prints "Trying ..." and then exactly these events, returns this
    result, and sends nothing to the store or to the model. *)
Theorem rule_matching_is_offline (q : string) :
  exists evs res, forall w,
    rule_based_query q w
    = (World (stdout w ++ PrintTrying q :: evs)
             (store_calls w) (model_calls w), res).
Proof. apply rule_based_query_only_prints. Qed.

(** X2: white space around a question does not matter: two questions
    with the same trimmed text get the same rule-based result and, after
    the line "Trying ..." that shows each question as it was given, the
    same printed events, in any two worlds; and trimming twice is
    trimming once. *)
Theorem surrounding_space_is_ignored :
  (forall q q',
      Str.strip q = Str.strip q' ->
      exists evs res, forall w w',
        rule_based_query q w
        = (World (stdout w ++ PrintTrying q :: evs)
                 (store_calls w) (model_calls w), res)
        /\ rule_based_query q' w'
           = (World (stdout w' ++ PrintTrying q' :: evs)
                    (store_calls w') (model_calls w'), res))
  /\ (forall q, Str.strip (Str.strip q) = Str.strip q).
Proof.
  split; [|exact strip_idem].
  intros q q' E.
  destruct (@scan_only_prints query_patterns (Str.strip q)) as (evs & res & S).
  { apply Forall_forall. intros r I. now apply templates_only_print. }
  exists evs, res. intros w w'.
  unfold rule_based_query, bind, print.
  rewrite <- E, !S. unfold emit. cbn [stdout store_calls model_calls].
  now rewrite <- !app_assoc.
Qed.

Lemma surrounding_space_is_ignored_witness :
  Str.strip "  who won the championship in 2017?  "
  = Str.strip "who won the championship in 2017?"
  /\ exists evs res, forall w w',
       rule_based_query "  who won the championship in 2017?  " w
       = (World (stdout w
                 ++ PrintTrying "  who won the championship in 2017?  " :: evs)
                (store_calls w) (model_calls w), res)
       /\ rule_based_query "who won the championship in 2017?" w'
          = (World (stdout w'
                    ++ PrintTrying "who won the championship in 2017?" :: evs)
                   (store_calls w') (model_calls w'), res).
Proof.
  split; [reflexivity|].
  apply (proj1 surrounding_space_is_ignored). reflexivity.
Defined.

(** ** Answers from a rule, and answers without a query *)

(** X3: a question whose first matching rule is one of the five absolute
    rules is answered from that rule's query, whether or not the model
    fallback is allowed: the model is never called, the store gets this
    one query, a failure of the store gives no rows and the "couldn't
    find" text, and the approach is "rule-based". *)
Theorem rule_query_is_answered_without_model
  (e : env) (q : string) (i : nat) (gs : list string) (use_llm : bool)
  (w : world) :
  first_match q = Some (i, gs) -> i < 5 ->
  exists c,
    outcome (rule_based_query q) w = Ok (Some c) /\ c <> ""
    /\ model_calls (fst (answer_question e q use_llm w)) = model_calls w
    /\ store_calls (fst (answer_question e q use_llm w))
       = (store_calls w ++ [c])%list
    /\ outcome (answer_question e q use_llm) w
       = match driver e (store_calls w) c with
         | Raise _ =>
             Ok (AnswerDict (Some q) (Some c) [] not_found "rule-based")
         | Ok rows =>
             match _format_answer rows q with
             | Ok text =>
                 Ok (AnswerDict (Some q) (Some c) rows text "rule-based")
             | Raise ex => Raise ex
             end
         end.
Proof.
  intros H Hi.
  destruct (rule_based_query_only_prints q) as (evs & res & S).
  destruct (absolute_templates_return _ H Hi
              (emit (emit w (PrintTrying q)) (PrintGroups gs)))
    as (w' & c & T).
  pose proof (@answered _ _ _ _ _ _ H T) as A.
  pose proof (@query_not_empty _ _ _ _ A) as Hc.
  rewrite S in A. injection A as _ ->.
  exists c. unfold outcome at 1. rewrite S. split; [reflexivity|].
  split; [exact Hc|].
  apply String.eqb_neq in Hc.
  unfold outcome, answer_question.
  set (rb := rule_based_query q) in *. clearbody rb.
  unfold bind, print, execute_query, try_except, session_run, lift, ret.
  rewrite S. cbn -[_format_answer].
  repeat (rewrite Hc; cbn -[_format_answer]).
  destruct (driver e (store_calls w) c) as [rows|ex];
    [destruct (_format_answer rows q)|]; cbn; auto.
Qed.

Lemma rule_query_is_answered_without_model_witness :
  first_match "who won the championship in 2017?" = Some (3, ["2017"])
  /\ 3 < 5
  /\ exists c,
       c <> ""
       /\ outcome
            (answer_question store_down "who won the championship in 2017?"
                             true) world0
          = Ok (AnswerDict (Some "who won the championship in 2017?")
                           (Some c) [] not_found "rule-based").
Proof.
  split; [vm_compute; reflexivity|]. split; [lia|].
  destruct (@rule_query_is_answered_without_model store_down
              "who won the championship in 2017?" 3 ["2017"] true world0)
    as (c & _ & Hc & _ & _ & A).
  - vm_compute; reflexivity.
  - lia.
  - exists c. split; [exact Hc|]. exact A.
Defined.

(** X4: when no rule gives a query (none fires, or the first that fires
    is a relative rule) and the fallback is off or has no client, the
    answer is the "couldn't understand" dictionary with approach "none",
    and nothing is sent to the store or to the model. *)
Theorem no_query_means_not_understood
  (e : env) (q : string) (use_llm : bool) (w : world) :
  first_match q = None
  \/ (exists i gs, first_match q = Some (i, gs) /\ 5 <= i) ->
  use_llm = false \/ openai_client e = None ->
  outcome (answer_question e q use_llm) w
  = Ok (AnswerDict (Some q) None [] not_understood "none")
  /\ store_calls (fst (answer_question e q use_llm w)) = store_calls w
  /\ model_calls (fst (answer_question e q use_llm w)) = model_calls w.
Proof.
  intros H F.
  destruct (rule_based_query_only_prints q) as (evs & res & S).
  pose proof (@no_rule_query q H (emit w (PrintQuestion q))) as N.
  unfold outcome in N. rewrite S in N. simpl in N. subst res.
  unfold outcome, answer_question.
  set (rb := rule_based_query q) in *. clearbody rb.
  destruct F as [->|F].
  - unfold bind, print, ret. rewrite S. cbn. auto.
  - unfold llm_based_query. rewrite F. unfold bind, print, ret. rewrite S.
    destruct use_llm; cbn; auto.
Qed.

Lemma no_query_means_not_understood_witness :
  first_match "Who won the championship in 2017?" = None
  /\ openai_client store_empty = None
  /\ outcome
       (answer_question store_empty "Who won the championship in 2017?" true)
       world0
     = Ok (AnswerDict (Some "Who won the championship in 2017?") None []
                      not_understood "none").
Proof.
  split; [vm_compute; reflexivity|]. split; [reflexivity|].
  apply (@no_query_means_not_understood store_empty
           "Who won the championship in 2017?" true world0).
  - left. vm_compute; reflexivity.
  - right. reflexivity.
Defined.

(** ** Lines and joins *)

Lemma split_lines_not_nil (cur s : string) : Str.split_lines cur s <> [].
Proof.
  revert cur. induction s as [|c s IH]; intros cur; simpl; [discriminate|].
  destruct (Ascii.eqb c Str.LF); [discriminate | apply IH].
Qed.

Lemma join_cons (sep x : string) (l : list string) :
  l <> [] -> Str.join sep (x :: l) = x ++ sep ++ Str.join sep l.
Proof. destruct l; [now intros H | reflexivity]. Qed.

(** Splitting at the newlines and joining with newlines gives the text
    back. *)
Lemma join_split_lines (s cur : string) :
  Str.join Str.nl (Str.split_lines cur s) = Str.rev cur ++ s.
Proof.
  revert cur. induction s as [|c s IH]; intros cur; simpl.
  - now rewrite StrFacts.app_nil_r.
  - destruct (Ascii.eqb_spec c Str.LF) as [->|Hc].
    + rewrite join_cons by apply split_lines_not_nil. now rewrite IH.
    + rewrite IH. unfold Str.rev. simpl.
      pose proof (StrFacts.rev_onto_acc cur "" (String c "")) as E.
      simpl in E. rewrite E. now rewrite StrFacts.app_assoc.
Qed.

Lemma lines_cons (a s : string) :
  Str.no_lf a = true -> Str.lines (a ++ Str.nl ++ s) = a :: Str.lines s.
Proof.
  intros H. unfold Str.lines. rewrite StrFacts.split_lines_app by assumption.
  simpl. now rewrite StrFacts.rev_rev_onto.
Qed.

Lemma split_lines_snoc (s y cur : string) :
  Str.no_lf y = true ->
  Str.split_lines cur (s ++ Str.nl ++ y)
  = (Str.split_lines cur s ++ [y])%list.
Proof.
  intros H. revert cur. induction s as [|c s IH]; intros cur; simpl.
  - now rewrite StrFacts.split_lines_line.
  - destruct (Ascii.eqb c Str.LF); simpl; now rewrite IH.
Qed.

Lemma inner_middle (A : Type) (x y : A) (l : list A) :
  inner (x :: l ++ [y]) = l.
Proof. unfold inner. simpl. apply removelast_last. Qed.

Lemma inner_short (A : Type) (l : list A) : List.length l <= 2 -> inner l = [].
Proof.
  destruct l as [|x [|y [|z l]]]; simpl; intros H; try reflexivity. lia.
Qed.

(** ** Trimming a text that has no space at its ends *)

Lemma rstrip_end (s : string) (c : ascii) :
  Str.isspace c = false ->
  Str.rstrip (s ++ String c "") = s ++ String c "".
Proof.
  intros H. induction s as [|a s IH]; simpl.
  - now rewrite H.
  - rewrite IH. destruct s; reflexivity.
Qed.

Lemma strip_fenced (lang body : string) :
  Str.strip (fenced lang body) = fenced lang body.
Proof.
  unfold Str.strip.
  assert (L : Str.lstrip (fenced lang body) = fenced lang body) by reflexivity.
  rewrite L.
  assert (E : fenced lang body
              = (fence ++ lang ++ Str.nl ++ body ++ Str.nl ++ "``")
                ++ String "`" "").
  { unfold fenced. rewrite !StrFacts.app_assoc. reflexivity. }
  rewrite E. now apply rstrip_end.
Qed.

Lemma prefix_nil (s : string) : String.prefix "" s = true.
Proof. destruct s; reflexivity. Qed.

(** A fenced reply is unfenced to its body. *)
Lemma unfence_fenced (lang body : string) :
  Str.no_lf lang = true -> unfence (fenced lang body) = body.
Proof.
  intros H. unfold unfence.
  assert (P : String.prefix fence (fenced lang body) = true).
  { unfold fenced. simpl. apply prefix_nil. }
  rewrite P. unfold fenced.
  rewrite <- (StrFacts.app_assoc fence lang).
  rewrite lines_cons.
  2:{ rewrite StrFacts.no_lf_app, H. reflexivity. }
  unfold Str.lines. rewrite split_lines_snoc by reflexivity.
  rewrite inner_middle. rewrite join_split_lines. reflexivity.
Qed.

(** ** The model fallback *)

Lemma schema_lookup_sends (e : env) (w w' : world) (v : schema_info) :
  _get_schema_info e w = (w', Ok v) ->
  w' = World (stdout w)
             (store_calls w ++ [rel_types_query; entities_query])
             (model_calls w).
Proof.
  unfold _get_schema_info, bind, session_run, lift, ret.
  destruct (driver e (store_calls w) rel_types_query) as [r1|ex];
    [|discriminate].
  destruct (collect_column "rel_type" r1) as [c1|ex]; [|discriminate].
  cbn [stdout store_calls model_calls].
  destruct (driver e (store_calls w ++ [rel_types_query]) entities_query)
    as [r2|ex]; [|discriminate].
  destruct (collect_column "name" r2) as [c2|ex]; [|discriminate].
  intros [= <- _]. cbn. now rewrite <- app_assoc.
Qed.

(** What [llm_based_query] returns, by the reply of the client. *)
Lemma llm_reply (e : env) client (q : string) (w : world) :
  openai_client e = Some client ->
  schema_lookup_ok e ->
  llm_based_query e q w
  = let w2 := World (stdout w)
                    (store_calls w ++ [rel_types_query; entities_query])
                    (model_calls w ++ [q]) in
    match match client (model_calls w) q with
          | Ok choices => first_content choices
          | Raise ex => Raise ex
          end with
    | Ok reply => (w2, Ok (Some (unfence reply)))
    | Raise ex => (emit w2 (PrintLLMError ex), Ok None)
    end.
Proof.
  intros C Hs. unfold llm_based_query. rewrite C.
  unfold bind at 1. destruct (Hs w) as (w1 & v & E). rewrite E.
  apply schema_lookup_sends in E. subst w1.
  unfold try_except, bind, chat_create, lift, print, ret.
  cbn [stdout store_calls model_calls].
  destruct (client (model_calls w) q) as [choices|ex]; [|reflexivity].
  destruct (first_content choices) as [reply|ex]; reflexivity.
Qed.

(** The fallback of [answer_question], after the rules gave no query. *)
Lemma fallback_answer (e : env) client (q : string) (w : world) :
  first_match q = None
  \/ (exists i gs, first_match q = Some (i, gs) /\ 5 <= i) ->
  openai_client e = Some client ->
  schema_lookup_ok e ->
  exists out,
    let w1 := World out (store_calls w) (model_calls w) in
    answer_question e q true w
    = match llm_based_query e q w1 with
      | (w2, Ok c) =>
          if falsy c
          then (w2, Ok (AnswerDict (Some q) None [] not_understood "none"))
          else
            match execute_query e (the_str c)
                    (emit w2 (PrintGenerated "llm-based" (the_str c))) with
            | (w3, Ok rows) =>
                match _format_answer rows q with
                | Ok text =>
                    (w3, Ok (AnswerDict (Some q) c rows text "llm-based"))
                | Raise ex => (w3, Raise ex)
                end
            | (w3, Raise ex) => (w3, Raise ex)
            end
      | (w2, Raise ex) => (w2, Raise ex)
      end.
Proof.
  intros H C Hs.
  destruct (rule_based_query_only_prints q) as (evs & res & S).
  pose proof (@no_rule_query q H (emit w (PrintQuestion q))) as N.
  unfold outcome in N. rewrite S in N. simpl in N. subst res.
  exists ((stdout w ++ [PrintQuestion q]) ++ PrintTrying q :: evs)%list.
  cbv zeta. unfold answer_question.
  set (rb := rule_based_query q) in *. clearbody rb.
  set (llm := llm_based_query e q). set (ex := execute_query e).
  unfold bind, print, lift, ret. rewrite S.
  cbn [falsy andb emit stdout store_calls model_calls].
  destruct (llm _) as [w2 [c|x]]; [|reflexivity].
  cbn [fst snd]. destruct (falsy c); [reflexivity|].
  destruct (ex _ _) as [w3 [rows|x]]; [|reflexivity].
  destruct (_format_answer rows q); reflexivity.
Qed.

Lemma schema_ok_without_data (client : option (list string -> string -> result (list (option string)))) :
  schema_lookup_ok (Env (fun _ _ => Ok []) client).
Proof. intros w. do 2 eexists. reflexivity. Qed.

(** X5: when the rules give no query and the model replies with a text
    that makes a non-empty query (trimmed, and taken out of its code
    fence), the store gets the two schema queries and then this query,
    the model gets the one question, and the answer has the approach
    "llm-based"; a failure of the store on the query gives no rows and
    the "couldn't find" text. *)
Theorem fallback_query_is_answered
  (e : env) client (q content : string) (rest : list (option string))
  (w : world) :
  first_match q = None
  \/ (exists i gs, first_match q = Some (i, gs) /\ 5 <= i) ->
  openai_client e = Some client ->
  schema_lookup_ok e ->
  client (model_calls w) q = Ok (Some content :: rest) ->
  unfence (Str.strip content) <> "" ->
  model_calls (fst (answer_question e q true w)) = (model_calls w ++ [q])%list
  /\ store_calls (fst (answer_question e q true w))
     = (store_calls w
        ++ [rel_types_query; entities_query; unfence (Str.strip content)])%list
  /\ outcome (answer_question e q true) w
     = match driver e (store_calls w ++ [rel_types_query; entities_query])
                    (unfence (Str.strip content)) with
       | Raise _ =>
           Ok (AnswerDict (Some q) (Some (unfence (Str.strip content))) []
                          not_found "llm-based")
       | Ok rows =>
           match _format_answer rows q with
           | Ok text =>
               Ok (AnswerDict (Some q) (Some (unfence (Str.strip content)))
                              rows text "llm-based")
           | Raise ex => Raise ex
           end
       end.
Proof.
  intros H C Hs R Hc.
  destruct (@fallback_answer e client q w H C Hs) as [out A].
  cbv zeta in A. unfold outcome. rewrite A. clear A.
  rewrite (@llm_reply e client q _ C Hs). cbv zeta.
  cbn [stdout store_calls model_calls]. rewrite R.
  cbn [first_content falsy the_str].
  set (c := unfence (Str.strip content)) in *.
  apply String.eqb_neq in Hc. rewrite Hc.
  unfold execute_query, try_except, session_run, bind, print, ret, emit.
  cbn [stdout store_calls model_calls].
  destruct (driver e _ c) as [rows|ex];
    [destruct (_format_answer rows q)|];
    cbn; rewrite <- !app_assoc; auto.
Qed.

Lemma fallback_query_is_answered_witness :
  first_match "hello" = None
  /\ unfence (Str.strip "MATCH (n:Entity) RETURN n.name as answer") <> ""
  /\ outcome
       (answer_question (model_says "MATCH (n:Entity) RETURN n.name as answer")
                        "hello" true) world0
     = Ok (AnswerDict (Some "hello")
             (Some "MATCH (n:Entity) RETURN n.name as answer") []
             not_found "llm-based").
Proof.
  assert (F : first_match "hello" = None) by (vm_compute; reflexivity).
  assert (N : unfence (Str.strip "MATCH (n:Entity) RETURN n.name as answer")
              <> "") by (vm_compute; discriminate).
  split; [exact F|]. split; [exact N|].
  exact (proj2 (proj2
    (@fallback_query_is_answered
       (model_says "MATCH (n:Entity) RETURN n.name as answer")
       (fun _ _ => Ok [Some "MATCH (n:Entity) RETURN n.name as answer"])
       "hello" "MATCH (n:Entity) RETURN n.name as answer" [] world0
       (or_introl F) eq_refl (schema_ok_without_data _) eq_refl N))).
Defined.

(** X6: a reply in a code fence (the fence with a language tag on the
    first line, the closing fence on the last) gives its body as the
    query, whatever the body holds. *)
Theorem fenced_reply_gives_its_body
  (e : env) client (q lang body : string) (rest : list (option string))
  (w : world) :
  openai_client e = Some client ->
  schema_lookup_ok e ->
  client (model_calls w) q = Ok (Some (fenced lang body) :: rest) ->
  Str.no_lf lang = true ->
  outcome (llm_based_query e q) w = Ok (Some body).
Proof.
  intros C Hs R L. unfold outcome.
  rewrite (@llm_reply e client q _ C Hs). cbv zeta. rewrite R.
  cbn [first_content]. rewrite strip_fenced.
  now rewrite unfence_fenced.
Qed.

Lemma fenced_reply_gives_its_body_witness :
  Str.no_lf "cypher" = true
  /\ outcome
       (llm_based_query
          (model_says (fenced "cypher" "MATCH (n:Entity) RETURN n.name"))
          "hello") world0
     = Ok (Some "MATCH (n:Entity) RETURN n.name").
Proof.
  split; [reflexivity|].
  apply (@fenced_reply_gives_its_body
           (model_says (fenced "cypher" "MATCH (n:Entity) RETURN n.name"))
           (fun _ _ => Ok [Some (fenced "cypher" "MATCH (n:Entity) RETURN n.name")])
           "hello" "cypher" "MATCH (n:Entity) RETURN n.name" [] world0).
  - reflexivity.
  - apply schema_ok_without_data.
  - reflexivity.
  - reflexivity.
Defined.

(** X7: a reply that is empty once trimmed, or that is fenced on fewer
    than three lines (the fences on the lines of the query), makes the
    empty query: the answer is the "couldn't understand" dictionary with
    approach "none", and the store gets the schema queries only. *)
Theorem short_fenced_reply_is_no_query
  (e : env) client (q content : string) (rest : list (option string))
  (w : world) :
  first_match q = None
  \/ (exists i gs, first_match q = Some (i, gs) /\ 5 <= i) ->
  openai_client e = Some client ->
  schema_lookup_ok e ->
  client (model_calls w) q = Ok (Some content :: rest) ->
  Str.strip content = ""
  \/ (String.prefix fence (Str.strip content) = true
      /\ List.length (Str.lines (Str.strip content)) <= 2) ->
  outcome (answer_question e q true) w
  = Ok (AnswerDict (Some q) None [] not_understood "none")
  /\ store_calls (fst (answer_question e q true w))
     = (store_calls w ++ [rel_types_query; entities_query])%list.
Proof.
  intros H C Hs R Hc.
  assert (U : unfence (Str.strip content) = "").
  { unfold unfence. destruct Hc as [->|[P L]]; [reflexivity|].
    rewrite P. now rewrite inner_short. }
  destruct (@fallback_answer e client q w H C Hs) as [out A].
  cbv zeta in A. unfold outcome. rewrite A. clear A.
  rewrite (@llm_reply e client q _ C Hs). cbv zeta.
  cbn [stdout store_calls model_calls]. rewrite R.
  cbn [first_content falsy]. rewrite U. cbn. auto.
Qed.

Lemma short_fenced_reply_is_no_query_witness :
  first_match "hello" = None
  /\ String.prefix fence (Str.strip "```MATCH (n) RETURN n```") = true
  /\ List.length (Str.lines (Str.strip "```MATCH (n) RETURN n```")) <= 2
  /\ outcome
       (answer_question (model_says "```MATCH (n) RETURN n```") "hello" true)
       world0
     = Ok (AnswerDict (Some "hello") None [] not_understood "none").
Proof.
  assert (F : first_match "hello" = None) by (vm_compute; reflexivity).
  assert (P : String.prefix fence (Str.strip "```MATCH (n) RETURN n```")
              = true) by reflexivity.
  assert (L : List.length (Str.lines (Str.strip "```MATCH (n) RETURN n```"))
              <= 2) by (vm_compute; lia).
  split; [exact F|]. split; [exact P|]. split; [exact L|].
  exact (proj1
    (@short_fenced_reply_is_no_query
       (model_says "```MATCH (n) RETURN n```")
       (fun _ _ => Ok [Some "```MATCH (n) RETURN n```"])
       "hello" "```MATCH (n) RETURN n```" [] world0
       (or_introl F) eq_refl (schema_ok_without_data _) eq_refl
       (or_intror (conj P L)))).
Defined.

(** X8: when the call of the model raises, or its reply has no choice or
    a choice without content, the failure is printed and the answer is
    the "couldn't understand" dictionary with approach "none"; the store
    got the schema queries only. *)
Theorem model_failure_is_no_query
  (e : env) client (q : string) (w : world) :
  first_match q = None
  \/ (exists i gs, first_match q = Some (i, gs) /\ 5 <= i) ->
  openai_client e = Some client ->
  schema_lookup_ok e ->
  (exists ex, client (model_calls w) q = Raise ex)
  \/ client (model_calls w) q = Ok []
  \/ (exists rest, client (model_calls w) q = Ok (None :: rest)) ->
  outcome (answer_question e q true) w
  = Ok (AnswerDict (Some q) None [] not_understood "none")
  /\ store_calls (fst (answer_question e q true w))
     = (store_calls w ++ [rel_types_query; entities_query])%list
  /\ exists out ex, printed (answer_question e q true) w
                    = (out ++ [PrintLLMError ex])%list.
Proof.
  intros H C Hs R.
  destruct (@fallback_answer e client q w H C Hs) as [out A].
  cbv zeta in A. unfold outcome, printed. rewrite A. clear A.
  rewrite (@llm_reply e client q _ C Hs). cbv zeta.
  cbn [stdout store_calls model_calls].
  destruct R as [[ex ->]|[->|[rest ->]]]; cbn; repeat split; eauto.
Qed.

Lemma model_failure_is_no_query_witness :
  first_match "hello" = None
  /\ outcome (answer_question model_fails "hello" true) world0
     = Ok (AnswerDict (Some "hello") None [] not_understood "none").
Proof.
  assert (F : first_match "hello" = None) by (vm_compute; reflexivity).
  split; [exact F|].
  exact (proj1
    (@model_failure_is_no_query model_fails
       (fun _ _ => Raise (Exn ServiceError "Rate limit reached"))
       "hello" world0 (or_introl F) eq_refl (schema_ok_without_data _)
       (or_introl (ex_intro _ (Exn ServiceError "Rate limit reached")
                            eq_refl)))).
Defined.

(** ** More on the formatter and on the templates *)

(** X9: the formatter reads the first five rows only: the rows after the
    fifth change neither the text nor a failure. *)
Theorem only_five_rows_are_read (rows : list row) (q : string) :
  _format_answer rows q = _format_answer (firstn 5 rows) q.
Proof.
  destruct rows as [|r1 [|r2 rows]]; try reflexivity.
  unfold _format_answer.
  change (firstn 5 (r1 :: r2 :: rows)) with (r1 :: r2 :: firstn 3 rows).
  change (firstn 5 (r1 :: r2 :: firstn 3 rows))
    with (r1 :: r2 :: firstn 3 (firstn 3 rows)).
  now rewrite firstn_firstn.
Qed.




Lemma race_engineer_latest_reads (driver_name year_context : string) (w : world) :
  Str.no_lf driver_name = true ->
  first_year year_context = Ok None
  \/ first_year year_context = Ok (Some 0%Z) ->
  exists c,
    _race_engineer_query driver_name year_context w = (w, Ok c)
    /\ clauses c
       = [ "MATCH (driver:Entity {name: '" ++ driver_name
             ++ "'})-[r:RELATION]->(engineer:Entity)";
           "WHERE r.type CONTAINS 'engineer'";
           "RETURN engineer.name as answer, r.year as year";
           "ORDER BY r.year DESC";
           "LIMIT 1" ].
Proof.
  intros Hn Hy. unfold _race_engineer_query, bind, lift, ret.
  destruct Hy as [-> | ->]; cbv beta iota; cbn [truthy_int Z.eqb negb];
    eexists; (split; [reflexivity|]);
    now rewrite clauses_block by clause_lines.
Qed.

(** X11: a question whose first matching rule is the race-engineer rule
    and whose context holds no four digits in a row, or holds "0000"
    first, gets the query for the latest engineer: its only condition is
    on the type of the relation, it is ordered by year, descending, and
    limited to 1 row.  The year 0 is read as no year. *)
Theorem race_engineer_without_year_is_latest
  (q name context : string) (w : world) :
  first_match q = Some (0, [name; context]) ->
  first_year context = Ok None \/ first_year context = Ok (Some 0%Z) ->
  exists c,
    outcome (rule_based_query q) w = Ok (Some c)
    /\ order_by "r.year DESC" c = true /\ limit "1" c = true
    /\ filter (String.prefix "WHERE") (clauses c)
       = ["WHERE r.type CONTAINS 'engineer'"]
    /\ filter (String.prefix "AND") (clauses c) = [].
Proof.
  intros H Hy. pose proof (fired_groups _ H) as G.
  destruct G as (name' & context' & [= <- <-] & Hn).
  destruct (@race_engineer_latest_reads name context
              (emit (emit w (PrintTrying q)) (PrintGroups [name; context]))
              Hn Hy) as (c & E & C).
  exists c. unfold outcome. rewrite (@answered _ _ _ _ _ _ H E).
  unfold order_by, limit. rewrite C.
  repeat split; reflexivity.
Qed.

Lemma race_engineer_without_year_is_latest_witness :
  first_match "who was Lewis Hamilton's race engineer in 0000?"
  = Some (0, ["Lewis Hamilton"; "0000"])
  /\ first_year "0000" = Ok (Some 0%Z)
  /\ exists c,
       outcome
         (rule_based_query "who was Lewis Hamilton's race engineer in 0000?")
         world0
       = Ok (Some c)
       /\ order_by "r.year DESC" c = true /\ limit "1" c = true.
Proof.
  assert (F : first_match "who was Lewis Hamilton's race engineer in 0000?"
              = Some (0, ["Lewis Hamilton"; "0000"]))
    by (vm_compute; reflexivity).
  assert (Y : first_year "0000" = Ok (Some 0%Z)) by (vm_compute; reflexivity).
  split; [exact F|]. split; [exact Y|].
  destruct (@race_engineer_without_year_is_latest
              "who was Lewis Hamilton's race engineer in 0000?"
              "Lewis Hamilton" "0000" world0 F (or_intror Y))
    as (c & E & O & L & _).
  exists c. now repeat split.
Defined.

(* ================================================================= *)
(** * [triple_extraction.py] *)

(** ** The matcher with classes and word boundaries *)

Module RxFacts.
Import Rx.

Lemma ways_cls (p : ascii -> bool) prev (s : string) (w : Re.way) :
  In w (ways (Cls p) prev s) ->
  exists c rest, s = String c rest /\ w = (String c "", rest) /\ p c = true.
Proof.
  simpl. destruct s as [|c s]; simpl; [tauto|].
  destruct (p c) eqn:E; simpl; [|tauto].
  intros [<-|[]]. now exists c, s.
Qed.

Lemma ways_cat (r1 r2 : regex) prev (s : string) (w : Re.way) :
  In w (ways (Cat r1 r2) prev s) ->
  exists w1 w2,
    In w1 (ways r1 prev s)
    /\ In w2 (ways r2 (last_of prev (fst w1)) (snd w1))
    /\ w = (fst w1 ++ fst w2, snd w2).
Proof.
  simpl. rewrite in_flat_map. intros (w1 & H1 & H2).
  apply in_map_iff in H2 as (w2 & <- & H2). now exists w1, w2.
Qed.

Lemma ways_alt (r1 r2 : regex) prev (s : string) (w : Re.way) :
  In w (ways (Alt r1 r2) prev s) ->
  In w (ways r1 prev s) \/ In w (ways r2 prev s).
Proof. simpl. apply in_app_iff. Qed.

Lemma iter_greedy_splits m
  (Hm : forall prev s w, In w (m prev s) -> s = fst w ++ snd w)
  (fuel : nat) :
  forall prev s w, In w (iter_greedy m fuel prev s) -> s = fst w ++ snd w.
Proof.
  induction fuel as [|fuel IH]; intros prev s w; simpl; [apply Hm|].
  rewrite in_flat_map. intros (w1 & H1 & H2).
  apply in_app_iff in H2 as [H2|[<-|[]]]; [|now apply Hm in H1].
  destruct (String.length (snd w1) <? String.length s)%nat; [|destruct H2].
  apply in_map_iff in H2 as (w2 & <- & H2).
  apply Hm in H1. apply IH in H2. simpl.
  now rewrite StrFacts.app_assoc, <- H2.
Qed.

(** A way splits the text. *)
Lemma ways_split (r : regex) :
  forall prev s w, In w (ways r prev s) -> s = fst w ++ snd w.
Proof.
  induction r as [p| |r1 IH1 r2 IH2|r1 IH1 r2 IH2|r1 IH1]; intros prev s w H.
  - apply ways_cls in H as (c & rest & -> & -> & _). reflexivity.
  - simpl in H. destruct (xorb _ _); [|destruct H].
    destruct H as [<-|[]]. reflexivity.
  - apply ways_cat in H as (w1 & w2 & H1 & H2 & ->).
    apply IH1 in H1. apply IH2 in H2. simpl.
    now rewrite StrFacts.app_assoc, <- H2.
  - simpl in H. apply in_app_iff in H as [H|H]; eauto.
  - simpl in H. now apply (iter_greedy_splits _ IH1) in H.
Qed.

Lemma part_of_later (c whole g : string) :
  part_of whole g -> part_of (c ++ whole) g.
Proof.
  intros (a & b & ->). exists (c ++ a), b. now rewrite StrFacts.app_assoc.
Qed.

(** A match splits the text; every group lies in the match and was
    matched by its expression. *)
Lemma groups_sound (p : pattern) :
  forall prev s m,
    In m (pways p prev s) ->
    s = Re.group0 m ++ Re.rest m
    /\ Forall (part_of (Re.group0 m)) (Re.groups m)
    /\ Forall2 matched_by (captures p) (Re.groups m).
Proof.
  induction p as [|[r|r] p IH]; intros prev s m; simpl.
  - intros [<-|[]]. simpl. repeat split; constructor.
  - rewrite in_flat_map. intros (w1 & H1 & H2).
    apply in_map_iff in H2 as (m2 & <- & H2).
    apply ways_split in H1. apply IH in H2 as (E2 & P2 & F2).
    simpl. split; [now rewrite StrFacts.app_assoc, <- E2|].
    split; [|assumption].
    eapply Forall_impl; [|exact P2]. intros g. apply part_of_later.
  - rewrite in_flat_map. intros (w1 & H1 & H2).
    apply in_map_iff in H2 as (m2 & <- & H2).
    pose proof (ways_split _ _ _ _ H1) as E1.
    apply IH in H2 as (E2 & P2 & F2).
    simpl. split; [now rewrite StrFacts.app_assoc, <- E2|]. split.
    + constructor; [now exists "", (Re.group0 m2)|].
      eapply Forall_impl; [|exact P2]. intros g. apply part_of_later.
    + constructor; [|assumption].
      destruct w1 as [c rest]. now exists prev, s, rest.
Qed.

Lemma search_from_sound (p : pattern) :
  forall s prev m,
    search_from p prev s = Some m ->
    exists pre suf prev',
      s = pre ++ suf /\ In m (pways p prev' suf).
Proof.
  induction s as [|c s IH]; intros prev m; simpl.
  - destruct (pways p prev "") as [|m0 l] eqn:E; simpl; [discriminate|].
    intros [= ->]. exists "", "", prev. rewrite E. split; [reflexivity|now left].
  - destruct (pways p prev (String c s)) as [|m0 l] eqn:E; simpl.
    + intros H. apply IH in H as (pre & suf & prev' & -> & H).
      now exists (String c pre), suf, prev'.
    + intros [= ->]. exists "", (String c s), prev. rewrite E.
      split; [reflexivity|now left].
Qed.

End RxFacts.

(** ** The year of a sentence *)

Lemma range_is_digit (lo hi : nat) (c : ascii) :
  48 <= lo -> hi <= 57 -> Rx.in_range lo hi c = true -> Str.is_digit c = true.
Proof.
  unfold Rx.in_range, Str.is_digit. intros Hlo Hhi H.
  apply andb_true_iff in H as [H1 H2]. apply Nat.leb_le in H1, H2.
  apply andb_true_iff. split; apply Nat.leb_le; lia.
Qed.

(** What the group of a year pattern holds. *)
Lemma year_re_matches (g : string) :
  Rx.matched_by Extractor.year_re g ->
  four_digit g /\ (1950 <= Str.digits_val 0 g <= 2039)%Z.
Proof.
  intros (prev & s & rest & H). unfold Extractor.year_re in H.
  apply RxFacts.ways_alt in H.
  change (Rx.lit "19")
    with (Rx.Cat (Rx.Cls (Ascii.eqb "1")) (Rx.Cls (Ascii.eqb "9"))) in H.
  change (Rx.lit "20")
    with (Rx.Cat (Rx.Cls (Ascii.eqb "2")) (Rx.Cls (Ascii.eqb "0"))) in H.
  destruct H as [H|H];
    apply RxFacts.ways_cat in H as (w1 & w2 & H1 & H2 & E);
    apply RxFacts.ways_cat in H1 as (w3 & w4 & H3 & H4 & ->);
    apply RxFacts.ways_cat in H2 as (w5 & w6 & H5 & H6 & ->);
    apply RxFacts.ways_cls in H3 as (a & r3 & _ & -> & Ha);
    apply RxFacts.ways_cls in H4 as (b & r4 & _ & -> & Hb);
    apply RxFacts.ways_cls in H5 as (c & r5 & _ & -> & Hc);
    apply RxFacts.ways_cls in H6 as (d & r6 & _ & -> & Hd);
    apply Ascii.eqb_eq in Ha, Hb; subst a b;
    simpl in E; injection E as -> _;
    pose proof Hc as Dc; (apply range_is_digit in Dc; [|lia|lia]);
    (split; [split; [reflexivity | simpl; now rewrite Dc, Hd]|]);
    apply IntFacts.digit_val_range in Hd;
    unfold Rx.in_range in Hc; apply andb_true_iff in Hc as [C1 C2];
    apply Nat.leb_le in C1, C2;
    cbn [Str.digits_val]; unfold Str.digit_val in *;
    change (nat_of_ascii "1") with 49; change (nat_of_ascii "9") with 57;
    change (nat_of_ascii "2") with 50; change (nat_of_ascii "0") with 48;
    lia.
Qed.

Lemma year_loop_sound (patterns : list Rx.pattern) (sentence : string) :
  Forall (fun p => Rx.captures p = [Extractor.year_re]) patterns ->
  exists r,
    Extractor.year_loop patterns sentence = Ok r
    /\ match r with
       | None => True
       | Some y =>
           (1950 <= y <= 2030)%Z
           /\ exists pre d post,
                sentence = pre ++ d ++ post /\ four_digit d
                /\ y = Str.digits_val 0 d
       end.
Proof.
  induction 1 as [|p ps Hp _ IH]; simpl; [now exists None|].
  unfold Rx.search.
  destruct (Rx.search_from p None sentence) as [m|] eqn:E; [|exact IH].
  apply RxFacts.search_from_sound in E as (pre & suf & prev & -> & E).
  apply RxFacts.groups_sound in E as (E & P & F).
  rewrite Hp in F. inversion F as [|? g ? ? Hg F' G1 G2]; subst.
  inversion F'; subst.
  unfold Extractor.group1_or_0. rewrite <- G2 in *.
  apply year_re_matches in Hg as [Hd Hv].
  destruct (int_four_digit Hd) as [-> _].
  destruct ((1950 <=? Str.digits_val 0 g)%Z && (Str.digits_val 0 g <=? 2030)%Z)
    eqn:R; [|exact IH].
  exists (Some (Str.digits_val 0 g)). split; [reflexivity|].
  apply andb_true_iff in R as [R1 R2]. apply Z.leb_le in R1, R2.
  split; [lia|].
  inversion P as [|? ? Hab _]. destruct Hab as (a & b & Hab).
  exists (pre ++ a), g, (b ++ Re.rest m).
  split; [|split; [exact Hd | reflexivity]].
  rewrite Hab. now rewrite !StrFacts.app_assoc.
Qed.

(** X12: [extract_year_from_sentence] never raises, and a year that it
    returns lies in 1950..2030 and is the value of four digits that
    stand in the sentence. *)
Theorem extracted_year_is_in_range (sentence : string) :
  exists r,
    Extractor.extract_year_from_sentence sentence = Ok r
    /\ match r with
       | None => True
       | Some y =>
           (1950 <= y <= 2030)%Z
           /\ exists pre d post,
                sentence = pre ++ d ++ post /\ four_digit d
                /\ y = Str.digits_val 0 d
       end.
Proof.
  apply year_loop_sound. repeat constructor.
Qed.

Lemma digit_is_word (c : ascii) : Str.is_digit c = true -> Rx.is_word c = true.
Proof.
  intros H. unfold Rx.is_word.
  change (Rx.in_range 48 57 c) with (Str.is_digit c). now rewrite H.
Qed.

Lemma year_re_none prev (c : ascii) (s : string) :
  Extractor.starts_no_year c = true ->
  Rx.ways Extractor.year_re prev (String c s) = [].
Proof.
  unfold Extractor.starts_no_year. intros H.
  apply andb_true_iff in H as [H1 H2]. apply negb_true_iff in H1, H2.
  unfold Extractor.year_re. cbn [Rx.ways Rx.lit Re.one].
  now rewrite H1, H2.
Qed.

Lemma year_token_shape (d : string) :
  Extractor.year_token d = true ->
  exists a b c e,
    d = String a (String b (String c (String e "")))
    /\ Str.is_digit e = true
    /\ ((a = "1"%char /\ b = "9"%char /\ Rx.in_range 53 57 c = true)
        \/ (a = "2"%char /\ b = "0"%char /\ Rx.in_range 48 51 c = true)).
Proof.
  destruct d as [|a [|b [|c [|e [|x d]]]]]; try discriminate.
  unfold Extractor.year_token. intros H. exists a, b, c, e.
  apply orb_true_iff in H as [H|H];
    apply andb_true_iff in H as [H He];
    apply andb_true_iff in H as [H Hc];
    apply andb_true_iff in H as [Ha Hb];
    apply Ascii.eqb_eq in Ha, Hb; subst a b; auto 10.
Qed.

Lemma year_re_token prev (d post : string) :
  Extractor.year_token d = true ->
  Rx.ways Extractor.year_re prev (d ++ post) = [(d, post)].
Proof.
  intros H.
  destruct (@year_token_shape d H) as (a & b & c & e & -> & He & [T|T]);
    destruct T as (-> & -> & Hc);
    unfold Extractor.year_re; cbn -[Rx.in_range Str.is_digit];
    rewrite Hc; cbn -[Rx.in_range Str.is_digit];
    rewrite He; reflexivity.
Qed.

Lemma year_token_last (d : string) prev :
  Extractor.year_token d = true -> Rx.word_at (Rx.last_of prev d) = true.
Proof.
  intros H.
  destruct (@year_token_shape d H) as (a & b & c & e & -> & He & _).
  simpl. now apply digit_is_word.
Qed.

Lemma year_token_first (d post : string) :
  Extractor.year_token d = true ->
  Rx.word_at (Rx.first_char (d ++ post)) = true.
Proof.
  intros H.
  destruct (@year_token_shape d H) as (a & b & c & e & -> & He & [T|T]);
    destruct T as (-> & -> & _); reflexivity.
Qed.

Lemma year_token_digits (d : string) :
  Extractor.year_token d = true -> four_digit d.
Proof.
  intros H.
  destruct (@year_token_shape d H) as (a & b & c & e & -> & He & [T|T]);
    destruct T as (-> & -> & Hc);
    (apply range_is_digit in Hc; [|lia|lia]);
    (split; [reflexivity | simpl; now rewrite Hc, He]).
Qed.

(** The first pattern finds a year token that stands alone after a text
    in which no year can start. *)
Lemma bounded_year_is_found (pre d post : string) :
  Str.all Extractor.starts_no_year pre = true ->
  Extractor.year_token d = true ->
  Rx.word_at (Rx.first_char post) = false ->
  forall prev,
    Rx.word_at (Rx.last_of prev pre) = false ->
    Rx.search_from [Rx.Plain Rx.Bound; Rx.Capture Extractor.year_re;
                    Rx.Plain Rx.Bound] prev (pre ++ d ++ post)
    = Some (Re.MObj d [d] post).
Proof.
  intros Hpre Hd Hpost.
  induction pre as [|c pre IH]; intros prev Hprev.
  - simpl in Hprev. cbn [append].
    assert (P : Rx.pways [Rx.Plain Rx.Bound; Rx.Capture Extractor.year_re;
                          Rx.Plain Rx.Bound] prev (d ++ post)
                = [Re.MObj d [d] post]).
    { cbn [Rx.pways Rx.ways]. rewrite Hprev, (@year_token_first d post Hd).
      cbn [xorb flat_map Rx.last_of fst snd map app].
      rewrite (@year_re_token _ d post Hd).
      cbn [flat_map Rx.last_of fst snd map app].
      rewrite (@year_token_last d _ Hd), Hpost.
      cbn [xorb flat_map Rx.last_of fst snd map app].
      unfold Re.extend. cbn. now rewrite !StrFacts.app_nil_r. }
    destruct (d ++ post) eqn:E; simpl; simpl in P; now rewrite P.
  - simpl in Hpre. apply andb_true_iff in Hpre as [Hc Hpre].
    cbn [append Rx.search_from].
    assert (P : Rx.pways [Rx.Plain Rx.Bound; Rx.Capture Extractor.year_re;
                          Rx.Plain Rx.Bound] prev
                         (String c (pre ++ d ++ post)) = []).
    { cbn [Rx.pways Rx.ways].
      destruct (xorb _ _); [|reflexivity].
      cbn [flat_map Rx.last_of fst snd map app].
      now rewrite (@year_re_none _ c _ Hc). }
    rewrite P. cbn [hd_error]. apply IH; assumption.
Qed.

(** X13: a year token of the patterns (19 and a digit from 5 on and a
    digit, or 20 and a digit up to 3 and a digit) that is at most 2030
    and stands alone, after a text without "1" and "2" that does not end
    in a word character, and before the end or a character that is not
    a word character, is the year of the sentence. *)
Theorem standalone_year_is_extracted (pre d post : string) :
  Str.all Extractor.starts_no_year pre = true ->
  Rx.word_at (Rx.last_of None pre) = false ->
  Extractor.year_token d = true ->
  (Str.digits_val 0 d <= 2030)%Z ->
  Rx.word_at (Rx.first_char post) = false ->
  Extractor.extract_year_from_sentence (pre ++ d ++ post)
  = Ok (Some (Str.digits_val 0 d)).
Proof.
  intros Hpre Hlast Hd Hv Hpost.
  unfold Extractor.extract_year_from_sentence, Extractor.year_patterns.
  cbn [Extractor.year_loop]. unfold Rx.search.
  rewrite (@bounded_year_is_found pre d post Hpre Hd Hpost None Hlast).
  cbn [Extractor.group1_or_0 Re.groups].
  pose proof (@year_token_digits d Hd) as D.
  destruct (int_four_digit D) as [-> _].
  assert (M : Rx.matched_by Extractor.year_re d).
  { exists None, (d ++ ""), "". rewrite (@year_re_token None d "" Hd).
    now left. }
  apply year_re_matches in M as [_ [L _]].
  apply Z.leb_le in L, Hv. now rewrite L, Hv.
Qed.

Lemma standalone_year_is_extracted_witness :
  Str.all Extractor.starts_no_year "He won the title in " = true
  /\ Extractor.year_token "2017" = true
  /\ Extractor.extract_year_from_sentence
       ("He won the title in " ++ "2017" ++ ", again")
     = Ok (Some 2017%Z).
Proof.
  split; [reflexivity|]. split; [reflexivity|].
  apply (@standalone_year_is_extracted "He won the title in " "2017" ", again").
  - reflexivity.
  - reflexivity.
  - reflexivity.
  - vm_compute. discriminate.
  - reflexivity.
Defined.

(** ** Sentences and batches *)

Lemma all_rev_onto (p : ascii -> bool) (s acc : string) :
  Str.all p (Str.rev_onto s acc) = Str.all p s && Str.all p acc.
Proof.
  revert acc. induction s as [|c s IH]; intros acc; simpl; [reflexivity|].
  rewrite IH. simpl. destruct (p c), (Str.all p s); reflexivity.
Qed.

Lemma all_lstrip (p : ascii -> bool) (s : string) :
  Str.all p s = true -> Str.all p (Str.lstrip s) = true.
Proof.
  induction s as [|c s IH]; simpl; [reflexivity|]. intros H.
  destruct (Str.isspace c); [|exact H].
  apply andb_true_iff in H as [_ H]. now apply IH.
Qed.

Lemma all_rstrip (p : ascii -> bool) (s : string) :
  Str.all p s = true -> Str.all p (Str.rstrip s) = true.
Proof.
  induction s as [|c s IH]; simpl; [reflexivity|]. intros H.
  apply andb_true_iff in H as [Hc H].
  destruct (_ && _); [reflexivity|]. simpl. now rewrite Hc, IH.
Qed.

(** No piece of a split holds the separator. *)
Lemma split_at_pieces (sep : ascii) (s : string) :
  forall cur x,
    Str.all (fun c => negb (Ascii.eqb c sep)) cur = true ->
    In x (Extractor.split_at sep cur s) ->
    Str.all (fun c => negb (Ascii.eqb c sep)) x = true.
Proof.
  induction s as [|c s IH]; intros cur x Hcur; simpl.
  - intros [<-|[]]. unfold Str.rev. rewrite all_rev_onto. now rewrite Hcur.
  - destruct (Ascii.eqb c sep) eqn:E.
    + intros [<-|H].
      * unfold Str.rev. rewrite all_rev_onto. now rewrite Hcur.
      * now apply (IH "" x).
    + apply IH. simpl. now rewrite E, Hcur.
Qed.

Lemma split_at_not_nil (sep : ascii) (cur s : string) :
  Extractor.split_at sep cur s <> [].
Proof.
  revert cur. induction s as [|c s IH]; intros cur; simpl; [discriminate|].
  destruct (Ascii.eqb c sep); [discriminate | apply IH].
Qed.

(** Joining the pieces with the separator gives the text back. *)
Lemma join_split_at (sep : ascii) (s cur : string) :
  Str.join (String sep "") (Extractor.split_at sep cur s) = Str.rev cur ++ s.
Proof.
  revert cur. induction s as [|c s IH]; intros cur; simpl.
  - now rewrite StrFacts.app_nil_r.
  - destruct (Ascii.eqb_spec c sep) as [->|Hc].
    + rewrite join_cons by apply split_at_not_nil. now rewrite IH.
    + rewrite IH. unfold Str.rev. simpl.
      pose proof (StrFacts.rev_onto_acc cur "" (String c "")) as E.
      simpl in E. rewrite E. now rewrite StrFacts.app_assoc.
Qed.

(** X14: every sentence that is kept is a trimmed piece between two
    periods of the text: it is longer than 20 characters, has no white
    space at its ends and holds no period; and the pieces between the
    periods, joined by periods, are the text. *)
Theorem kept_sentences_are_trimmed_pieces :
  (forall text s,
      In s (Extractor.sentences text) ->
      20 < String.length s /\ Str.strip s = s
      /\ Str.all (fun c => negb (Ascii.eqb c ".")) s = true
      /\ exists piece, In piece (Extractor.split "." text)
                       /\ s = Str.strip piece)
  /\ (forall text, Str.join "." (Extractor.split "." text) = text).
Proof.
  split.
  - intros text s H. unfold Extractor.sentences in H.
    apply in_map_iff in H as (piece & <- & H).
    apply filter_In in H as [H L]. apply Nat.ltb_lt in L.
    split; [exact L|]. split; [apply strip_idem|]. split; [|now exists piece].
    unfold Str.strip. apply all_rstrip, all_lstrip.
    now apply (@split_at_pieces "." text "" piece).
  - intros text. apply (join_split_at "." text "").
Qed.

Lemma kept_sentences_are_trimmed_pieces_witness :
  In "Lewis Hamilton drove for Mercedes"
     (Extractor.sentences " Lewis Hamilton drove for Mercedes . He won.")
  /\ 20 < String.length "Lewis Hamilton drove for Mercedes"
  /\ Str.strip "Lewis Hamilton drove for Mercedes"
     = "Lewis Hamilton drove for Mercedes".
Proof.
  assert (I : In "Lewis Hamilton drove for Mercedes"
                (Extractor.sentences
                   " Lewis Hamilton drove for Mercedes . He won."))
    by (vm_compute; now left).
  split; [exact I|].
  destruct (proj1 kept_sentences_are_trimmed_pieces _ _ I) as (L & S & _).
  now split.
Defined.

Lemma range_chunks (A : Type) (l : list A) (fuel : nat) :
  forall i,
    List.length l - i <= fuel ->
    List.concat (map (fun i => Extractor.slice i (i + Extractor.batch_size) l)
                (Extractor.range_from fuel i (List.length l)
                                      Extractor.batch_size))
    = skipn i l.
Proof.
  induction fuel as [|fuel IH]; intros i Hi; simpl.
  - symmetry. apply skipn_all2. lia.
  - destruct (Nat.ltb_spec i (List.length l)) as [Lt|Ge].
    + simpl. rewrite IH by (unfold Extractor.batch_size; lia).
      unfold Extractor.slice, Extractor.batch_size.
      replace (i + 5 - i) with 5 by lia.
      replace (i + 5) with (5 + i) by lia.
      rewrite <- skipn_skipn. apply firstn_skipn.
    + symmetry. apply skipn_all2. lia.
Qed.

Lemma range_chunk_sizes (A : Type) (l : list A) (fuel : nat) :
  forall i,
    Forall (fun b : list A => 1 <= List.length b <= 5)
           (map (fun i => Extractor.slice i (i + Extractor.batch_size) l)
                (Extractor.range_from fuel i (List.length l)
                                      Extractor.batch_size)).
Proof.
  induction fuel as [|fuel IH]; intros i; simpl; [constructor|].
  destruct (Nat.ltb_spec i (List.length l)) as [Lt|Ge]; [|constructor].
  simpl. constructor; [|apply IH].
  unfold Extractor.slice, Extractor.batch_size.
  rewrite length_firstn, length_skipn. lia.
Qed.

Lemma range_count (n fuel : nat) :
  forall i,
    n - i <= fuel ->
    n - i <= 5 * List.length (Extractor.range_from fuel i n Extractor.batch_size)
    /\ 5 * List.length (Extractor.range_from fuel i n Extractor.batch_size)
       < n - i + 5.
Proof.
  induction fuel as [|fuel IH]; intros i Hi; simpl; [lia|].
  destruct (Nat.ltb_spec i n) as [Lt|Ge]; simpl; [|lia].
  specialize (IH (i + Extractor.batch_size)).
  unfold Extractor.batch_size in *. lia.
Qed.

(** X15: the batches of [extract_triples_from_text] are a partition of
    the sentences: put one after the other they are the sentences, in
    order; each has from 1 to 5 sentences; and there are as many as the
    fifths of the number of sentences, rounded up. *)
Theorem batches_partition_the_sentences (sentences : list string) :
  List.concat (Extractor.batches sentences) = sentences
  /\ Forall (fun b : list string => 1 <= List.length b <= 5)
            (Extractor.batches sentences)
  /\ List.length sentences <= 5 * List.length (Extractor.batches sentences)
  /\ 5 * List.length (Extractor.batches sentences)
     < List.length sentences + 5.
Proof.
  unfold Extractor.batches, Extractor.range. split; [|split].
  - rewrite range_chunks by lia. reflexivity.
  - apply range_chunk_sizes.
  - rewrite length_map.
    pose proof (@range_count (List.length sentences) (List.length sentences)
                  0 ltac:(lia)).
    lia.
Qed.

(** ** Titles and file names *)






Lemma replace_length (old new : ascii) (s : string) :
  String.length (Extractor.replace old new s) = String.length s.
Proof. induction s as [|c s IH]; cbn; [reflexivity | now rewrite IH]. Qed.






(* ================================================================= *)
(** * Triples from a batch *)

Module TriplesFacts.
Import Triples.

Lemma all_in_object (members : list (string * json)) :
  Py.all_in triple_keys (JObj members) = Ok (is_triple (JObj members)).
Proof.
  unfold triple_keys, is_triple. cbn [Py.all_in Py.contains].
  destruct (Py.member "subject" members); [|reflexivity].
  destruct (Py.member "predicate" members); [|reflexivity].
  destruct (Py.member "object" members); reflexivity.
Qed.

Lemma all_in_scalar (v : json) :
  scalar v = true -> exists ex, Py.all_in triple_keys v = Raise ex.
Proof.
  destruct v; try discriminate; intros _; eexists; reflexivity.
Qed.

Lemma extract_year_returns (sentence : string) :
  exists year, Extractor.extract_year_from_sentence sentence = Ok year.
Proof.
  destruct (@year_loop_sound Extractor.year_patterns sentence) as (r & E & _).
  - repeat constructor.
  - now exists r.
Qed.

(** The loop prints nothing and sends nothing, and what it returns are
    enriched triples. *)
Lemma enrich_loop_shape (e : xenv) (text page_title : string)
  (year : option Z) :
  Extractor.extract_year_from_sentence text = Ok year ->
  forall items acc w,
    Forall (enriched year page_title) acc ->
    exists w' r,
      enrich_loop e text page_title items acc w = (w', r)
      /\ xout w' = xout w /\ prompts w' = prompts w
      /\ match r with
         | Ok ts => Forall (enriched year page_title) ts
         | Raise _ => True
         end.
Proof.
  intros Hy. induction items as [|triple items IH]; intros acc w Hacc.
  - exists w, (Ok acc). now cbn.
  - cbn [enrich_loop]. unfold St.bind at 1, St.lift at 1.
    destruct (Py.all_in triple_keys triple) as [[|]|ex].
    + unfold St.bind at 1, St.lift at 1. rewrite Hy.
      unfold St.bind at 1, St.lift at 1.
      destruct (Py.subscript triple "subject") as [subject|ex];
        [|now exists w, (Raise ex)].
      unfold St.bind at 1, St.lift at 1.
      destruct (Py.subscript triple "predicate") as [predicate|ex];
        [|now exists w, (Raise ex)].
      unfold St.bind at 1, St.lift at 1.
      destruct (Py.subscript triple "object") as [object|ex];
        [|now exists w, (Raise ex)].
      unfold St.bind at 1, read_clock at 1.
      match goal with
      | |- context [enrich_loop _ _ _ _ ?a ?v] =>
          destruct (IH a v) as (w' & r & E & O & P & R)
      end.
      * apply Forall_app. split; [exact Hacc|].
        constructor; [|constructor].
        now exists subject, predicate, object, (now e (clock w)).
      * exists w', r. now rewrite E.
    + apply IH, Hacc.
    + now exists w, (Raise ex).
Qed.

(** On objects the loop keeps those with the three keys, in order. *)
Lemma enrich_loop_objects (e : xenv) (text page_title : string)
  (year : option Z) :
  Extractor.extract_year_from_sentence text = Ok year ->
  forall items acc w,
    forallb is_object items = true ->
    exists w' ts,
      enrich_loop e text page_title items acc w = (w', Ok (acc ++ ts)%list)
      /\ Forall2 same_core ts (filter is_triple items).
Proof.
  intros Hy. induction items as [|triple items IH]; intros acc w Hobj.
  - exists w, []. cbn. now rewrite app_nil_r.
  - cbn [forallb] in Hobj. apply andb_true_iff in Hobj as [Ho Hobj].
    destruct triple as [| | | | | |members]; try discriminate.
    cbn [enrich_loop filter]. unfold St.bind at 1, St.lift at 1.
    rewrite all_in_object.
    destruct (is_triple (JObj members)) eqn:T.
    + unfold St.bind at 1, St.lift at 1. rewrite Hy.
      cbn [is_triple] in T. cbn [Py.subscript].
      destruct (Py.member "subject" members) as [subject|] eqn:Es;
        [|discriminate].
      destruct (Py.member "predicate" members) as [predicate|] eqn:Ep;
        [|discriminate].
      destruct (Py.member "object" members) as [object|] eqn:Eo;
        [|discriminate].
      unfold St.bind at 1, St.lift at 1.
      unfold St.bind at 1, St.lift at 1.
      unfold St.bind at 1, St.lift at 1.
      unfold St.bind at 1, read_clock at 1.
      match goal with
      | |- context [enrich_loop _ _ _ _ (acc ++ [?t])%list ?v] =>
          destruct (IH (acc ++ [t])%list v Hobj) as (w' & ts & E & F);
          exists w', (t :: ts)
      end.
      split.
      * rewrite E. now rewrite <- app_assoc.
      * constructor; [|exact F].
        unfold same_core. cbn. now rewrite Es, Ep, Eo.
    + apply IH, Hobj.
Qed.

(** One scalar item makes the loop raise. *)
Lemma enrich_loop_scalar (e : xenv) (text page_title : string) :
  forall items acc w,
    existsb scalar items = true ->
    exists w' ex, enrich_loop e text page_title items acc w = (w', Raise ex).
Proof.
  induction items as [|triple items IH]; intros acc w Hs; [discriminate|].
  cbn [existsb] in Hs. cbn [enrich_loop]. unfold St.bind at 1, St.lift at 1.
  destruct (scalar triple) eqn:S.
  - destruct (all_in_scalar _ S) as [ex ->]. now exists w, ex.
  - cbn [orb] in Hs.
    destruct (Py.all_in triple_keys triple) as [[|]|ex];
      [| now apply IH | now exists w, ex].
    unfold St.bind at 1, St.lift at 1.
    destruct (Extractor.extract_year_from_sentence text) as [year|ex];
      [|now exists w, ex].
    unfold St.bind at 1, St.lift at 1.
    destruct (Py.subscript triple "subject") as [subject|ex];
      [|now exists w, ex].
    unfold St.bind at 1, St.lift at 1.
    destruct (Py.subscript triple "predicate") as [predicate|ex];
      [|now exists w, ex].
    unfold St.bind at 1, St.lift at 1.
    destruct (Py.subscript triple "object") as [object|ex];
      [|now exists w, ex].
    unfold St.bind at 1, read_clock at 1.
    now apply IH.
Qed.

(** The first clause with [content] bound, and the second clause: the
    error is printed and the empty list returned. *)
Lemma on_error_bound (raw : string) (ex : exn) (w : xworld) :
  exists evs,
    on_error (Some raw) ex w
    = (XWorld (xout w ++ evs) (prompts w) (clock w), Ok [])
    /\ forallb batch_event evs = true
    /\ (Py.is_decode_error ex = false -> evs = [PrintApiError ex]).
Proof.
  unfold on_error, St.bind, xprint, St.ret.
  destruct (Py.is_decode_error ex).
  - exists [PrintJsonError ex; PrintRaw raw]. cbn.
    rewrite <- app_assoc. now repeat split.
  - exists [PrintApiError ex]. now repeat split.
Qed.

(** The clauses with [content] unbound: the first one raises. *)
Lemma on_error_unbound (ex : exn) (w : xworld) :
  on_error None ex w
  = if Py.is_decode_error ex
    then (XWorld (xout w ++ [PrintJsonError ex]) (prompts w) (clock w),
          Raise unbound_content)
    else (XWorld (xout w ++ [PrintApiError ex]) (prompts w) (clock w),
          Ok []).
Proof.
  unfold on_error, St.bind, xprint, St.ret, St.lift.
  now destruct (Py.is_decode_error ex).
Qed.

(** What [_extract_batch_triples] does with the reply of the model. *)
Lemma batch_reply (e : xenv) (text page_title : string) (w : xworld) :
  _extract_batch_triples e text page_title w
  = let w1 := XWorld (xout w) (prompts w ++ [(text, page_title)]) (clock w) in
    match chat e (prompts w) text page_title with
    | Raise ex => on_error None ex w1
    | Ok choices =>
        match first_content choices with
        | Raise ex => on_error None ex w1
        | Ok content =>
            match loads e (strip_fence content) with
            | Raise ex => on_error (Some (strip_fence content)) ex w1
            | Ok triples_data =>
                match Py.iterate triples_data with
                | Raise ex => on_error (Some (strip_fence content)) ex w1
                | Ok items =>
                    match enrich_loop e text page_title items [] w1 with
                    | (w2, Ok ts) => (w2, Ok ts)
                    | (w2, Raise ex) =>
                        on_error (Some (strip_fence content)) ex w2
                    end
                end
            end
        end
    end.
Proof.
  unfold _extract_batch_triples, read_reply, parse_reply, St.try_except,
    St.bind, chat_create, St.lift.
  cbv zeta.
  destruct (chat e (prompts w) text page_title) as [choices|ex];
    [|reflexivity].
  destruct (first_content choices) as [content|ex]; [|reflexivity].
  destruct (loads e (strip_fence content)) as [data|ex]; [|reflexivity].
  destruct (Py.iterate data) as [items|ex]; reflexivity.
Qed.

(** [_extract_batch_triples] sends its prompt, prints what its clauses
    print, and returns enriched triples; it raises only when the call of
    the model raises a [JSONDecodeError]. *)
Lemma batch_triples_shape (e : xenv) (text page_title : string)
  (year : option Z) (w : xworld) :
  Extractor.extract_year_from_sentence text = Ok year ->
  exists w' r evs,
    _extract_batch_triples e text page_title w = (w', r)
    /\ prompts w' = (prompts w ++ [(text, page_title)])%list
    /\ xout w' = (xout w ++ evs)%list
    /\ forallb batch_event evs = true
    /\ match r with
       | Ok ts => Forall (enriched year page_title) ts
       | Raise ex =>
           ex = unbound_content
           /\ exists ex0,
                chat e (prompts w) text page_title = Raise ex0
                /\ Py.is_decode_error ex0 = true
       end
    /\ (forall ex0,
           chat e (prompts w) text page_title = Raise ex0 ->
           Py.is_decode_error ex0 = true -> r = Raise unbound_content).
Proof.
  intros Hy. rewrite batch_reply. cbv zeta.
  set (w1 := XWorld (xout w) (prompts w ++ [(text, page_title)]) (clock w)).
  assert (B : forall raw ex w2,
             prompts w2 = prompts w1 -> xout w2 = xout w1 ->
             exists w' evs,
               on_error (Some raw) ex w2 = (w', Ok [])
               /\ prompts w' = (prompts w ++ [(text, page_title)])%list
               /\ xout w' = (xout w ++ evs)%list
               /\ forallb batch_event evs = true).
  { intros raw ex w2 P O.
    destruct (on_error_bound raw ex w2) as (evs & E & Bv & _).
    eexists _, evs. split; [exact E|]. cbn [prompts xout].
    now rewrite P, O. }
  destruct (chat e (prompts w) text page_title) as [choices|ex] eqn:C.
  - assert (Z : forall w' evs,
               prompts w' = (prompts w ++ [(text, page_title)])%list ->
               xout w' = (xout w ++ evs)%list ->
               forallb batch_event evs = true ->
               exists w'' r evs',
                 (w', @Ok (list json) []) = (w'', r)
                 /\ prompts w'' = (prompts w ++ [(text, page_title)])%list
                 /\ xout w'' = (xout w ++ evs')%list
                 /\ forallb batch_event evs' = true
                 /\ match r with
                    | Ok ts => Forall (enriched year page_title) ts
                    | Raise ex =>
                        ex = unbound_content
                        /\ exists ex0,
                             @Ok (list (option string)) choices = Raise ex0
                             /\ Py.is_decode_error ex0 = true
                    end
                 /\ (forall ex0,
                        @Ok (list (option string)) choices = Raise ex0 ->
                        Py.is_decode_error ex0 = true ->
                        r = Raise unbound_content)).
    { intros w' evs P O Bv. exists w', (Ok []), evs.
      repeat split; try assumption; [constructor|].
      intros ex0 H. discriminate H. }
    destruct (first_content choices) as [content|ex] eqn:Fc.
    + destruct (loads e (strip_fence content)) as [data|ex].
      * destruct (Py.iterate data) as [items|ex].
        -- destruct (@enrich_loop_shape e text page_title year Hy items [] w1)
             as (w2 & r & E & O & P & R); [constructor|].
           rewrite E. destruct r as [ts|ex].
           ++ exists w2, (Ok ts), []. rewrite app_nil_r.
              repeat split; try assumption. intros ex0 H. discriminate H.
           ++ destruct (B (strip_fence content) ex w2 P O)
                as (w' & evs & -> & P' & O' & B').
              now apply Z with (evs := evs).
        -- destruct (B (strip_fence content) ex w1 eq_refl eq_refl)
             as (w' & evs & -> & P' & O' & B').
           now apply Z with (evs := evs).
      * destruct (B (strip_fence content) ex w1 eq_refl eq_refl)
          as (w' & evs & -> & P' & O' & B').
        now apply Z with (evs := evs).
    + rewrite on_error_unbound.
      assert (D : Py.is_decode_error ex = false).
      { destruct choices as [|[c|] rest]; cbn in Fc;
          try discriminate; now injection Fc as <-. }
      rewrite D. now apply Z with (evs := [PrintApiError ex]).
  - rewrite on_error_unbound.
    destruct (Py.is_decode_error ex) eqn:D.
    + eexists _, (Raise unbound_content), [_]. cbn [prompts xout].
      repeat split. now exists ex.
    + eexists _, (Ok []), [_]. cbn [prompts xout].
      repeat split; [constructor|].
      intros ex0 [= <-] D'. rewrite D in D'. discriminate.
Qed.

End TriplesFacts.

Module TriplesSources.
Import Triples.

Lemma subscript_object (v : json) (key : string) (x : json) :
  Py.subscript v key = Ok x -> is_object v = true.
Proof. destruct v; try discriminate. reflexivity. Qed.

(** Every triple that the loop adds has the subject, the predicate and
    the object of an item with the three keys. *)
Lemma enrich_loop_sources (e : xenv) (text page_title : string) :
  forall items acc w w' ts,
    enrich_loop e text page_title items acc w = (w', Ok ts) ->
    exists new,
      ts = (acc ++ new)%list
      /\ Forall (fun t => exists source,
                   In source items /\ is_triple source = true
                   /\ same_core t source) new.
Proof.
  induction items as [|triple items IH]; intros acc w w' ts E.
  - cbn in E. injection E as _ <-. exists []. now rewrite app_nil_r.
  - cbn [enrich_loop] in E. unfold St.bind at 1, St.lift at 1 in E.
    destruct (Py.all_in triple_keys triple) as [[|]|ex] eqn:A;
      [| |discriminate].
    + unfold St.bind at 1, St.lift at 1 in E.
      destruct (Extractor.extract_year_from_sentence text) as [year|ex];
        [|discriminate].
      unfold St.bind at 1, St.lift at 1 in E.
      destruct (Py.subscript triple "subject") as [subject|ex] eqn:Es;
        [|discriminate].
      unfold St.bind at 1, St.lift at 1 in E.
      destruct (Py.subscript triple "predicate") as [predicate|ex] eqn:Ep;
        [|discriminate].
      unfold St.bind at 1, St.lift at 1 in E.
      destruct (Py.subscript triple "object") as [object|ex] eqn:Eo;
        [|discriminate].
      unfold St.bind at 1, read_clock at 1 in E.
      apply IH in E as (new & -> & F).
      eexists (_ :: new). split; [now rewrite <- app_assoc|].
      constructor.
      * exists triple. split; [now left|]. split.
        -- pose proof (subscript_object _ _ Es) as O.
           destruct triple; try discriminate.
           rewrite TriplesFacts.all_in_object in A. now injection A.
        -- unfold same_core. now rewrite Es, Ep, Eo.
      * eapply Forall_impl; [|exact F].
        intros t (source & I & T & C). exists source. split; [now right|].
        now split.
    + apply IH in E as (new & -> & F). exists new. split; [reflexivity|].
      eapply Forall_impl; [|exact F].
      intros t (source & I & T & C). exists source. split; [now right|].
      now split.
Qed.

(** What is iterated when the reply is no list holds no triple. *)
Lemma iterate_other (data : json) (items : list json) :
  Py.iterate data = Ok items ->
  (forall xs, data <> JArr xs) ->
  forallb (fun v => negb (is_triple v)) items = true.
Proof.
  destruct data; try discriminate; intros E N.
  - injection E as <-. apply forallb_forall. intros v I.
    apply in_map_iff in I as (c & <- & _). reflexivity.
  - now destruct (N items0).
  - injection E as <-. apply forallb_forall. intros v I.
    apply in_map_iff in I as (c & <- & _). reflexivity.
Qed.

End TriplesSources.

(** X17: [_extract_batch_triples] sends one prompt, for the text and the
    page title, and then either returns or raises an
    [UnboundLocalError].  It raises exactly when the call of the model
    raises a [JSONDecodeError]: the first [except] clause then prints
    [content] before anything was assigned to it.  Every triple that it
    returns is a dictionary of the six keys [subject], [predicate],
    [object], [year], [source_page] and [extracted_at], whose year is
    the one found in the whole text of the batch and whose page is the
    title given. *)
Theorem batch_triples_carry_year_and_page (e : Triples.xenv)
  (text page_title : string) (w : Triples.xworld) :
  exists w' r year,
    Triples._extract_batch_triples e text page_title w = (w', r)
    /\ Extractor.extract_year_from_sentence text = Ok year
    /\ Triples.prompts w'
       = (Triples.prompts w ++ [(text, page_title)])%list
    /\ match r with
       | Ok ts => Forall (Triples.enriched year page_title) ts
       | Raise ex => exn_cls ex = UnboundLocalError
       end
    /\ ((exists ex, r = Raise ex)
        <-> exists ex0,
              Triples.chat e (Triples.prompts w) text page_title = Raise ex0
              /\ exn_cls ex0 = JSONDecodeError).
Proof.
  destruct (TriplesFacts.extract_year_returns text) as [year Hy].
  destruct (@TriplesFacts.batch_triples_shape e text page_title year w Hy)
    as (w' & r & evs & E & P & _ & _ & F & G).
  exists w', r, year. split; [exact E|]. split; [exact Hy|].
  split; [exact P|]. split; [|split].
  - destruct r as [ts|ex]; [exact F|]. now destruct F as [-> _].
  - intros [ex ->]. destruct F as (_ & ex0 & C & D). exists ex0.
    split; [exact C|]. unfold Py.is_decode_error in D.
    now destruct (exn_cls ex0).
  - intros (ex0 & C & D). exists Triples.unbound_content.
    apply (G ex0 C). unfold Py.is_decode_error. now rewrite D.
Qed.

(** X18: when the reply of the model parses to a list of objects, the
    triples returned are those of the objects that have the three keys,
    in their order, each with its subject, predicate and object, and
    nothing is printed. *)
Theorem object_list_reply_is_enriched (e : Triples.xenv)
  (text page_title content : string) (rest : list (option string))
  (items : list json) (w : Triples.xworld) :
  Triples.chat e (Triples.prompts w) text page_title
  = Ok (Some content :: rest) ->
  Triples.loads e (Triples.strip_fence (Str.strip content))
  = Ok (JArr items) ->
  forallb Triples.is_object items = true ->
  exists w' ts,
    Triples._extract_batch_triples e text page_title w = (w', Ok ts)
    /\ Forall2 Triples.same_core ts (filter Triples.is_triple items)
    /\ Triples.xout w' = Triples.xout w.
Proof.
  intros Hc Hl Ho.
  destruct (TriplesFacts.extract_year_returns text) as [year Hy].
  rewrite TriplesFacts.batch_reply. cbv zeta. rewrite Hc.
  cbn [first_content]. rewrite Hl. cbn [Py.iterate].
  match goal with
  | |- context [Triples.enrich_loop _ _ _ _ [] ?v] =>
      destruct (@TriplesFacts.enrich_loop_objects e text page_title year Hy
                  items [] v Ho) as (w' & ts & E & F);
      destruct (@TriplesFacts.enrich_loop_shape e text page_title year Hy
                  items [] v) as (w2 & r & E2 & O & _); [constructor|]
  end.
  rewrite E in E2. injection E2 as <- <-.
  rewrite E. exists w', ts. now repeat split.
Qed.

Lemma object_list_reply_is_enriched_witness :
  exists w' ts,
    Triples._extract_batch_triples
      (Triples.XEnv
         (fun _ _ _ => Ok [Some "[...]"])
         (fun _ => Ok (JArr [ JObj [("subject", JStr "Max Verstappen")];
                              JObj [("subject", JStr "Lewis Hamilton");
                                    ("predicate", JStr "drove_for");
                                    ("object", JStr "Mercedes")] ]))
         (fun _ => "2024-01-01T00:00:00"))
      "Lewis Hamilton drove for Mercedes in 2017" "Lewis Hamilton"
      (Triples.XWorld [] [] 0) = (w', Ok ts)
    /\ Forall2 Triples.same_core ts
         (filter Triples.is_triple
            [ JObj [("subject", JStr "Max Verstappen")];
              JObj [("subject", JStr "Lewis Hamilton");
                    ("predicate", JStr "drove_for");
                    ("object", JStr "Mercedes")] ])
    /\ Triples.xout w' = [].
Proof.
  eapply (@object_list_reply_is_enriched _ _ _ "[...]" []); reflexivity.
Defined.

(** What the loop raises is a [TypeError]: of the membership test, or of
    the subscript of a string or a list. *)
Lemma enrich_loop_raises_type_error (e : Triples.xenv)
  (text page_title : string) :
  forall items acc w w' ex,
    Triples.enrich_loop e text page_title items acc w = (w', Raise ex) ->
    exn_cls ex = TypeError.
Proof.
  destruct (TriplesFacts.extract_year_returns text) as [year Hy].
  induction items as [|triple items IH]; intros acc w w' ex E;
    [discriminate|].
  cbn [Triples.enrich_loop] in E. unfold St.bind at 1, St.lift at 1 in E.
  destruct (Py.all_in Triples.triple_keys triple) as [[|]|ex'] eqn:A.
  - unfold St.bind at 1, St.lift at 1 in E. rewrite Hy in E.
    destruct triple as [| | | |s|xs|members]; try discriminate.
    + cbn in E. now injection E as _ <-.
    + cbn in E. now injection E as _ <-.
    + rewrite TriplesFacts.all_in_object in A. injection A as A.
      cbn [Triples.is_triple] in A. cbn [Py.subscript] in E.
      destruct (Py.member "subject" members); [|discriminate].
      destruct (Py.member "predicate" members); [|discriminate].
      destruct (Py.member "object" members); [|discriminate].
      unfold St.bind at 1, St.lift at 1 in E.
      unfold St.bind at 1, St.lift at 1 in E.
      unfold St.bind at 1, St.lift at 1 in E.
      unfold St.bind at 1, Triples.read_clock at 1 in E.
      now apply IH in E.
  - now apply IH in E.
  - injection E as _ <-.
    destruct triple; cbn [Py.all_in Triples.triple_keys Py.contains] in A;
      try (now injection A as <-);
      repeat match type of A with
             | context [if ?b then _ else _] => destruct b
             end;
      discriminate.
Qed.

(** X19: when the reply parses to a list that holds a number, a boolean
    or [null], the whole batch is lost: a [TypeError] (of the membership
    test on that item, if no item before it raised one) is caught by the
    outer clause, which prints it and returns the empty list, also when
    items before it had the three keys. *)
Theorem scalar_item_loses_the_batch (e : Triples.xenv)
  (text page_title content : string) (rest : list (option string))
  (items : list json) (w : Triples.xworld) :
  Triples.chat e (Triples.prompts w) text page_title
  = Ok (Some content :: rest) ->
  Triples.loads e (Triples.strip_fence (Str.strip content))
  = Ok (JArr items) ->
  existsb Triples.scalar items = true ->
  exists w' ex,
    Triples._extract_batch_triples e text page_title w = (w', Ok [])
    /\ Triples.xout w' = (Triples.xout w ++ [Triples.PrintApiError ex])%list
    /\ exn_cls ex = TypeError.
Proof.
  intros Hc Hl Hs.
  destruct (TriplesFacts.extract_year_returns text) as [year Hy].
  rewrite TriplesFacts.batch_reply. cbv zeta. rewrite Hc.
  cbn [first_content]. rewrite Hl. cbn [Py.iterate].
  match goal with
  | |- context [Triples.enrich_loop _ _ _ _ [] ?v] =>
      destruct (@TriplesFacts.enrich_loop_scalar e text page_title
                  items [] v Hs) as (w' & ex & E);
      destruct (@TriplesFacts.enrich_loop_shape e text page_title year Hy
                  items [] v) as (w2 & r & E2 & O & _); [constructor|]
  end.
  rewrite E in E2. injection E2 as <- <-.
  rewrite E. pose proof (enrich_loop_raises_type_error _ _ _ _ _ _ E) as T.
  destruct (TriplesFacts.on_error_bound
              (Triples.strip_fence (Str.strip content)) ex w')
    as (evs & -> & _ & V).
  rewrite V by (unfold Py.is_decode_error; now rewrite T).
  eexists _, ex. split; [reflexivity|].
  cbn [Triples.xout] in *. now rewrite O.
Qed.

Lemma scalar_item_loses_the_batch_witness :
  exists w' ex,
    Triples._extract_batch_triples
      (Triples.XEnv
         (fun _ _ _ => Ok [Some "[...]"])
         (fun _ => Ok (JArr [ JObj [("subject", JStr "Lewis Hamilton");
                                    ("predicate", JStr "drove_for");
                                    ("object", JStr "Mercedes")];
                              JInt 2017 ]))
         (fun _ => "2024-01-01T00:00:00"))
      "Lewis Hamilton drove for Mercedes in 2017" "Lewis Hamilton"
      (Triples.XWorld [] [] 0) = (w', Ok [])
    /\ Triples.xout w' = [Triples.PrintApiError ex]
    /\ exn_cls ex = TypeError.
Proof.
  eapply (@scalar_item_loses_the_batch _ _ _ "[...]" []); reflexivity.
Defined.

(** X20: a triple that [_extract_batch_triples] returns has the subject,
    the predicate and the object of an item of the list that the reply
    parsed to, and that item has the three keys: a reply that parses to
    an object, a string or a number gives no triple. *)
Theorem returned_triple_has_a_source (e : Triples.xenv)
  (text page_title : string) (w w' : Triples.xworld) (ts : list json)
  (t : json) :
  Triples._extract_batch_triples e text page_title w = (w', Ok ts) ->
  In t ts ->
  exists content rest items source,
    Triples.chat e (Triples.prompts w) text page_title
    = Ok (Some content :: rest)
    /\ Triples.loads e (Triples.strip_fence (Str.strip content))
       = Ok (JArr items)
    /\ In source items /\ Triples.is_triple source = true
    /\ Triples.same_core t source.
Proof.
  rewrite TriplesFacts.batch_reply. cbv zeta. intros E I.
  assert (U : forall ex v,
             Triples.on_error None ex v = (w', Ok ts) -> False).
  { intros ex v H. rewrite TriplesFacts.on_error_unbound in H.
    destruct (Py.is_decode_error ex); [discriminate|].
    injection H as _ <-. destruct I. }
  assert (B : forall raw ex v,
             Triples.on_error (Some raw) ex v = (w', Ok ts) -> False).
  { intros raw ex v H.
    destruct (TriplesFacts.on_error_bound raw ex v) as (evs & H' & _).
    rewrite H' in H. injection H as _ <-. destruct I. }
  destruct (Triples.chat e (Triples.prompts w) text page_title)
    as [choices|ex]; [|now destruct (U _ _ E)].
  destruct choices as [|[content|] rest];
    try (now destruct (U _ _ E)).
  cbn [first_content] in E.
  destruct (Triples.loads e (Triples.strip_fence (Str.strip content)))
    as [data|ex] eqn:Hl; [|now destruct (B _ _ _ E)].
  destruct (Py.iterate data) as [items|ex] eqn:It;
    [|now destruct (B _ _ _ E)].
  match type of E with
  | context [Triples.enrich_loop _ _ _ _ [] ?v] =>
      destruct (Triples.enrich_loop e text page_title items [] v)
        as [w2 [ts'|ex]] eqn:L; [|now destruct (B _ _ _ E)]
  end.
  injection E as _ <-.
  apply TriplesSources.enrich_loop_sources in L as (new & -> & F).
  cbn [app] in I.
  apply (proj1 (Forall_forall _ _) F) in I as (source & Is & T & C).
  destruct data as [| | | | |xs|];
    try (pose proof (@TriplesSources.iterate_other _ _ It) as N;
         cbv beta in N;
         assert (negb (Triples.is_triple source) = true) as X
           by (apply (proj1 (forallb_forall _ _)
                        (N ltac:(discriminate)) source Is));
         rewrite T in X; discriminate).
  injection It as <-.
  now exists content, rest, xs, source.
Qed.

Lemma returned_triple_has_a_source_witness :
  exists content rest items source,
    Ok [Some "[...]"] = Ok (Some content :: rest)
    /\ Ok (JArr [ JObj [("subject", JStr "Lewis Hamilton");
                        ("predicate", JStr "drove_for");
                        ("object", JStr "Mercedes")] ])
       = Ok (JArr items)
    /\ In source items /\ Triples.is_triple source = true
    /\ Triples.same_core
         (JObj [("subject", JStr "Lewis Hamilton");
                ("predicate", JStr "drove_for");
                ("object", JStr "Mercedes");
                ("year", JInt 2017);
                ("source_page", JStr "Lewis Hamilton");
                ("extracted_at", JStr "2024-01-01T00:00:00")]) source.
Proof.
  apply (@returned_triple_has_a_source
           (Triples.XEnv
              (fun _ _ _ => Ok [Some "[...]"])
              (fun _ => Ok (JArr [ JObj [("subject", JStr "Lewis Hamilton");
                                         ("predicate", JStr "drove_for");
                                         ("object", JStr "Mercedes")] ]))
              (fun _ => "2024-01-01T00:00:00"))
           "Lewis Hamilton drove for Mercedes in 2017" "Lewis Hamilton"
           (Triples.XWorld [] [] 0)
           (Triples.XWorld [] [("Lewis Hamilton drove for Mercedes in 2017",
                                "Lewis Hamilton")] 1)
           [JObj [("subject", JStr "Lewis Hamilton");
                  ("predicate", JStr "drove_for");
                  ("object", JStr "Mercedes");
                  ("year", JInt 2017);
                  ("source_page", JStr "Lewis Hamilton");
                  ("extracted_at", JStr "2024-01-01T00:00:00")]]
           (JObj [("subject", JStr "Lewis Hamilton");
                  ("predicate", JStr "drove_for");
                  ("object", JStr "Mercedes");
                  ("year", JInt 2017);
                  ("source_page", JStr "Lewis Hamilton");
                  ("extracted_at", JStr "2024-01-01T00:00:00")])).
  - vm_compute. reflexivity.
  - now left.
Defined.

(** The loop over the batches never raises: what a batch raises is
    printed by the clause of the loop, which goes on. *)
Lemma batch_loop_shape (e : Triples.xenv) (page_title : string) :
  forall bs acc w,
    Forall (fun t => exists year, Triples.enriched year page_title t) acc ->
    exists w' ts evs,
      Triples.batch_loop e page_title bs acc w = (w', Ok ts)
      /\ Triples.prompts w'
         = (Triples.prompts w
            ++ map (fun b => (Extractor.batch_text b, page_title)) bs)%list
      /\ Triples.xout w' = (Triples.xout w ++ evs)%list
      /\ Forall (fun ev => match ev with
                           | Triples.PrintBatchError ex =>
                               ex = Triples.unbound_content
                           | _ => True
                           end) evs
      /\ ((forall h t p ex,
              Triples.chat e h t p = Raise ex ->
              Py.is_decode_error ex = false) ->
          forallb Triples.batch_event evs = true)
      /\ Forall (fun t => exists year, Triples.enriched year page_title t) ts.
Proof.
  induction bs as [|b bs IH]; intros acc w Hacc.
  - exists w, acc, []. cbn. rewrite !app_nil_r. now repeat split.
  - cbn [Triples.batch_loop map].
    destruct (TriplesFacts.extract_year_returns (Extractor.batch_text b))
      as [year Hy].
    destruct (@TriplesFacts.batch_triples_shape e (Extractor.batch_text b)
                page_title year w Hy)
      as (w1 & r & evs1 & E & P & O & B & F & G).
    assert (Q : forall evs,
               Forall (fun ev => Triples.batch_event ev = true) evs ->
               Forall (fun ev => match ev with
                                 | Triples.PrintBatchError ex =>
                                     ex = Triples.unbound_content
                                 | _ => True
                                 end) evs).
    { intros evs H. eapply Forall_impl; [|exact H].
      intros [] Hev; try exact I. discriminate Hev. }
    assert (B0 : Forall (fun ev => Triples.batch_event ev = true) evs1).
    { apply Forall_forall. now apply forallb_forall. }
    unfold St.bind at 1, St.try_except at 1, St.bind at 1.
    rewrite E. destruct r as [ts1|ex].
    + unfold St.ret at 1.
      destruct (IH (acc ++ ts1)%list w1)
        as (w' & ts & evs & E' & P' & O' & U' & B' & F').
      { apply Forall_app. split; [exact Hacc|].
        eapply Forall_impl; [|exact F]. intros t Ht. now exists year. }
      exists w', ts, (evs1 ++ evs)%list. rewrite E'. split; [reflexivity|].
      rewrite P', P, O', O, <- !app_assoc. repeat split; try exact F'.
      * apply Forall_app. split; [now apply Q | exact U'].
      * intros H. rewrite forallb_app, B, (B' H). reflexivity.
    + destruct F as (-> & ex0 & C & D).
      unfold St.bind at 1, Triples.xprint at 1, St.ret at 1.
      match goal with
      | |- context [Triples.batch_loop e page_title bs acc ?v] =>
          destruct (IH acc v Hacc)
            as (w' & ts & evs & E' & P' & O' & U' & B' & F')
      end.
      exists w', ts,
        (evs1 ++ Triples.PrintBatchError Triples.unbound_content :: evs)%list.
      rewrite E'. split; [reflexivity|].
      cbn [Triples.prompts Triples.xout] in P', O'.
      rewrite P', P, O', O, <- !app_assoc. cbn [app].
      repeat split; try exact F'.
      * apply Forall_app. split; [now apply Q|]. now constructor.
      * intros H. rewrite (H _ _ _ _ C) in D. discriminate D.
Qed.

(** X21: [extract_triples_from_text] never raises and sends one prompt
    for each batch of sentences, in order, with the sentences of the
    batch joined by a period and a space; every triple returned has the
    six keys and the page title.  Its own [except] clause is taken for
    an [UnboundLocalError] only, which [_extract_batch_triples] raises
    when the call of the model raises a [JSONDecodeError]: with a client
    that raises none, "Error processing batch" is never printed. *)
Theorem every_batch_is_sent_once (e : Triples.xenv)
  (text page_title : string) (w : Triples.xworld) :
  exists w' ts evs,
    Triples.extract_triples_from_text e text page_title w = (w', Ok ts)
    /\ Triples.prompts w'
       = (Triples.prompts w
          ++ map (fun b => (Str.join ". " b, page_title))
               (Extractor.batches (Extractor.sentences text)))%list
    /\ Triples.xout w' = (Triples.xout w ++ evs)%list
    /\ Forall (fun ev => match ev with
                         | Triples.PrintBatchError ex =>
                             exn_cls ex = UnboundLocalError
                         | _ => True
                         end) evs
    /\ ((forall h t p ex,
            Triples.chat e h t p = Raise ex ->
            exn_cls ex <> JSONDecodeError) ->
        forallb Triples.batch_event evs = true)
    /\ Forall (fun t => exists year, Triples.enriched year page_title t) ts.
Proof.
  destruct (@batch_loop_shape e page_title
              (Extractor.batches (Extractor.sentences text)) [] w)
    as (w' & ts & evs & E & P & O & U & B & F); [constructor|].
  exists w', ts, evs. split; [exact E|]. split; [exact P|].
  split; [exact O|]. split; [|split; [|exact F]].
  - eapply Forall_impl; [|exact U]. intros [] H; try exact I. now subst.
  - intros H. apply B. intros h t p ex C. specialize (H h t p ex C).
    unfold Py.is_decode_error. now destruct (exn_cls ex).
Qed.

(* ================================================================= *)
(** * Loading triples *)

Module LoaderFacts.
Import Loader.

Ltac failed_load :=
  eexists _, false; split; [reflexivity|];
  cbn; rewrite <- ?app_assoc, ?length_app; cbn;
  repeat split; try discriminate; try lia; eexists; reflexivity.

Lemma load_triple_shape (e : lenv) (triple : json) (w : lworld) :
  exists w' ok,
    load_triple e triple w = (w', Ok ok)
    /\ (if ok
        then lout w' = lout w
             /\ session e (merges w) = None
             /\ exists p,
                  params_of triple p /\ run e (merges w) p = None
                  /\ merges w' = (merges w ++ [p])%list
        else exists ex,
               lout w'
               = (lout w ++ [PrintLoadError ex; PrintTriple triple])%list)
    /\ (loadable triple = false -> ok = false /\ merges w' = merges w)
    /\ (ok = true -> loadable triple = true)
    /\ (List.length (merges w) <= List.length (merges w')
        <= S (List.length (merges w)))%nat
    /\ (ok = true ->
        List.length (merges w') = S (List.length (merges w))).
Proof.
  unfold load_triple, St.try_except, St.bind, open_session, St.lift,
    session_run, lprint, St.ret.
  destruct (session e (merges w)) as [ex|] eqn:Hs; [failed_load|].
  destruct triple as [| | | | | |members]; try failed_load.
  cbn [Py.subscript Py.get loadable].
  destruct (Py.member "subject" members) as [subject|] eqn:Es;
    [|failed_load].
  destruct (Py.member "object" members) as [object|] eqn:Eo;
    [|failed_load].
  destruct (Py.member "predicate" members) as [predicate|] eqn:Ep;
    [|failed_load].
  destruct (Py.member "year" members) as [year|] eqn:Ey;
    destruct (Py.member "source_page" members) as [source_page|] eqn:Ea;
    destruct (Py.member "extracted_at" members) as [extracted_at|] eqn:Et;
    cbn [merges lout];
    match goal with
    | |- context [run e (merges w) ?ps] =>
        set (p := ps); destruct (run e (merges w) p) as [ex|] eqn:Hr
    end; try failed_load;
    (eexists _, true; split; [reflexivity|]; cbn; rewrite length_app; cbn;
     repeat split; try discriminate; try lia;
     exists p; repeat split; try assumption;
     intros key [<-|[<-|[<-|[]]]]; cbn;
     now rewrite ?Es, ?Eo, ?Ep, ?Ey, ?Ea, ?Et).
Qed.





End LoaderFacts.

(** X22: [load_triple] never raises.  It returns [True] only for a
    dictionary with a subject, an object and a predicate, after a
    session was opened and the query ran, and the query was sent with
    the six parameters of the triple ([None] for a missing year, source
    page or time); it returns [False] after printing the error and the
    triple; and for a triple without one of the three keys nothing is
    sent to the store. *)
Theorem load_triple_reports_failure (e : Loader.lenv) (triple : json)
  (w : Loader.lworld) :
  exists w' ok,
    Loader.load_triple e triple w = (w', Ok ok)
    /\ (if ok
        then Loader.lout w' = Loader.lout w
             /\ Loader.session e (Loader.merges w) = None
             /\ exists p,
                  Loader.params_of triple p
                  /\ Loader.run e (Loader.merges w) p = None
                  /\ Loader.merges w' = (Loader.merges w ++ [p])%list
        else exists ex,
               Loader.lout w'
               = (Loader.lout w
                  ++ [Loader.PrintLoadError ex; Loader.PrintTriple triple])%list)
    /\ (Loader.loadable triple = false ->
        ok = false /\ Loader.merges w' = Loader.merges w).
Proof.
  destruct (LoaderFacts.load_triple_shape e triple w)
    as (w' & ok & E & O & N & _).
  now exists w', ok.
Qed.


(* ================================================================= *)
(** * All pages *)

Lemma pages_loop_shape (e : Pages.penv) :
  forall files total w,
  exists w' new,
    Pages.pages_loop e files total w
    = (w', Ok (total + List.length new)%nat)
    /\ Pages.triples_file w' = (Pages.triples_file w ++ new)%list
    /\ Forall (Pages.from_files files) new
    /\ Triples.prompts (Pages.extractor w')
       = (Triples.prompts (Pages.extractor w)
          ++ flat_map Pages.prompts_of files)%list.
Proof.
  induction files as [|[stem text] files IH]; intros total w.
  - exists w, []. cbn. rewrite !app_nil_r, Nat.add_0_r. now repeat split.
  - cbn [Pages.pages_loop flat_map]. cbv zeta.
    unfold St.bind at 1, Pages.within at 1, Triples.xprint at 1.
    cbn [Pages.extractor Pages.triples_file].
    unfold St.bind at 1, Pages.within at 1.
    cbn [Pages.extractor Pages.triples_file].
    match goal with
    | |- context [Triples.extract_triples_from_text ?c ?t ?p ?v] =>
        destruct (@batch_loop_shape c p
                    (Extractor.batches (Extractor.sentences t)) [] v)
          as (x1 & ts & evs & E & P & O & _ & _ & F); [constructor|];
        change (Triples.batch_loop c p
                  (Extractor.batches (Extractor.sentences t)) [] v)
          with (Triples.extract_triples_from_text c t p v) in E
    end.
    rewrite E. cbn [Triples.prompts] in P.
    assert (Forall (Pages.from_files ((stem, text) :: files)) ts) as F'.
    { eapply Forall_impl; [|exact F]. intros t [year Ht].
      exists stem, text, year. split; [now left|exact Ht]. }
    assert (forall new, Forall (Pages.from_files files) new ->
                        Forall (Pages.from_files ((stem, text) :: files)) new)
      as W.
    { intros new H. eapply Forall_impl; [|exact H].
      intros t (s0 & t0 & y0 & I & Ht). exists s0, t0, y0.
      split; [now right|exact Ht]. }
    destruct ts as [|t ts].
    + unfold St.bind at 1, Pages.within at 1, Triples.xprint at 1.
      cbn [Pages.extractor Pages.triples_file].
      match goal with
      | |- context [Pages.pages_loop e files total ?v] =>
          destruct (IH total v) as (w' & new & E' & S' & F'' & P')
      end.
      exists w', new. rewrite E'. cbn [Pages.extractor Pages.triples_file
                                         Triples.prompts] in *.
      repeat split; [exact S' | now apply W |].
      rewrite P', P. unfold Pages.prompts_of at 2. cbn [fst snd].
      now rewrite <- app_assoc.
    + unfold St.bind at 1, Pages.save_triples at 1.
      cbn [Pages.extractor Pages.triples_file].
      unfold St.bind at 1, Pages.within at 1, Triples.xprint at 1.
      cbn [Pages.extractor Pages.triples_file].
      match goal with
      | |- context [Pages.pages_loop e files ?n ?v] =>
          destruct (IH n v) as (w' & new & E' & S' & F'' & P')
      end.
      exists w', ((t :: ts) ++ new)%list. rewrite E'.
      cbn [Pages.extractor Pages.triples_file Triples.prompts] in *.
      repeat split.
      * f_equal. f_equal. rewrite length_app. cbn [List.length]. lia.
      * rewrite S'. now rewrite <- app_assoc.
      * apply Forall_app. split; [exact F' | now apply W].
      * rewrite P', P. unfold Pages.prompts_of at 2. cbn [fst snd].
        now rewrite <- app_assoc.
Qed.

(** X24: [process_all_pages] never raises when the text files can be
    read and the triples file written.  The total that it returns is the
    number of triples that it appended to [triples.jsonl], after what
    the file held before; each of them has the six keys and, as its
    source page, the stem of one of the text files with spaces for the
    underscores; and the model received, file after file, one prompt for
    each batch of sentences. *)
Theorem total_counts_the_saved_triples (e : Pages.penv) (w : Pages.pworld) :
  exists w' new,
    Pages.process_all_pages e w = (w', Ok (List.length new))
    /\ Pages.triples_file w' = (Pages.triples_file w ++ new)%list
    /\ Forall (Pages.from_files (Pages.text_files e)) new
    /\ Triples.prompts (Pages.extractor w')
       = (Triples.prompts (Pages.extractor w)
          ++ flat_map Pages.prompts_of (Pages.text_files e))%list.
Proof.
  unfold Pages.process_all_pages.
  unfold St.bind at 1, Pages.within at 1, Triples.xprint at 1.
  cbn [Pages.extractor Pages.triples_file].
  unfold St.bind at 1.
  match goal with
  | |- context [Pages.pages_loop e ?fs 0 ?v] =>
      destruct (pages_loop_shape e fs 0 v) as (w' & new & E & S & F & P)
  end.
  rewrite E. cbn [Nat.add].
  unfold St.bind, Pages.within, Triples.xprint, St.ret.
  cbn [Pages.extractor Pages.triples_file Triples.prompts] in *.
  eexists _, new. split; [reflexivity|].
  cbn [Pages.extractor Pages.triples_file Triples.prompts].
  now repeat split.
Qed.

(** X25: a triple as [_extract_batch_triples] builds it is one that
    [load_triple] loads whenever the store works: the query is sent with
    the year and the source page of the triple, nothing is printed, and
    the result is [True]. *)
Theorem enriched_triple_is_loaded (e : Loader.lenv) (year : option Z)
  (page_title : string) (t : json) (w : Loader.lworld) :
  Triples.enriched year page_title t ->
  Loader.session e (Loader.merges w) = None ->
  (forall p, Loader.run e (Loader.merges w) p = None) ->
  exists p,
    Loader.load_triple e t w
    = (Loader.LWorld (Loader.lout w) (Loader.merges w ++ [p]), Ok true)
    /\ Loader.params_of t p
    /\ Py.member "year" p = Some (Triples.json_of_year year)
    /\ Py.member "source_page" p = Some (JStr page_title).
Proof.
  intros (subject & predicate & object & extracted_at & ->) Hs Hr.
  unfold Loader.load_triple, St.try_except, St.bind, Loader.open_session,
    St.lift, Loader.session_run, Loader.lprint, St.ret.
  rewrite Hs. cbn. rewrite Hr. eexists. split; [reflexivity|].
  split; [|now split].
  split; [reflexivity|].
  split; intros key [<-|[<-|[<-|[]]]]; reflexivity.
Qed.

Lemma enriched_triple_is_loaded_witness :
  exists p,
    Loader.load_triple
      (Loader.LEnv (fun _ => None) (fun _ _ => None)
         (fun _ => Loader.Missing) (fun _ => Ok JNull))
      (JObj [("subject", JStr "Lewis Hamilton");
             ("predicate", JStr "drove_for");
             ("object", JStr "Mercedes");
             ("year", JInt 2017);
             ("source_page", JStr "Lewis Hamilton");
             ("extracted_at", JStr "2024-01-01T00:00:00")])
      (Loader.LWorld [] [])
    = (Loader.LWorld [] ([] ++ [p]), Ok true)
    /\ Loader.params_of
         (JObj [("subject", JStr "Lewis Hamilton");
                ("predicate", JStr "drove_for");
                ("object", JStr "Mercedes");
                ("year", JInt 2017);
                ("source_page", JStr "Lewis Hamilton");
                ("extracted_at", JStr "2024-01-01T00:00:00")]) p
    /\ Py.member "year" p = Some (Triples.json_of_year (Some 2017%Z))
    /\ Py.member "source_page" p = Some (JStr "Lewis Hamilton").
Proof.
  apply (@enriched_triple_is_loaded
           (Loader.LEnv (fun _ => None) (fun _ _ => None)
              (fun _ => Loader.Missing) (fun _ => Ok JNull))
           (Some 2017%Z) "Lewis Hamilton" _ (Loader.LWorld [] [])).
  - now exists (JStr "Lewis Hamilton"), (JStr "drove_for"), (JStr "Mercedes"),
      "2024-01-01T00:00:00".
  - reflexivity.
  - reflexivity.
Defined.

(* ================================================================= *)
(** * The pipeline *)

Module PipelineFacts.
Import Pipeline.






End PipelineFacts.

